(** * pricetool: a shallow embedding of [price.py]

    The development follows the layout of the source file:
    - [PyStr]         Python [str] values and the string methods the program calls;
    - [PyNum]         Python [float] (IEEE binary64) and the [float()] / [int()] builtins;
    - [Product]       the dataclass and its [__post_init__];
    - [DatabaseManager]   the [products] table, [save_product], [get_price_history];
    - [Soup]          the parsed document and the CSS selections the scrapers issue;
    - [WebScraper]    [get_soup], [_extract_price], [_scrape_amazon], [_scrape_ebay],
                      [scrape_site];
    - [PriceComparisonTool]   [search_products] and the ranking of [display_results];
    - [Spec]          the operations as the specification words them;
    - [Parts], [Sites], [Trace], [Samples]   names used in the statements,
                      and sample data;
    - [Notions], [Outcome], [Prices], [StoreFacts]   what the later
                      statements say of records, runs, prices and the table;
    - [Console]       [offer_best_deals], [show_price_history], [main] and
                      the printing side of [display_results];
    - [Dialogue], [Stopping], [Sessions]   names and sample sessions for
                      [Console].

    Stateful code is written in a state-and-exception monad over a [world]
    that holds the network and clock oracles and the logger's output. *)

From Stdlib Require Import ZArith NArith List Bool Lia String Ascii.
From Stdlib Require Import Permutation Sorted.
From Stdlib Require Import Floats.SpecFloat.
Import ListNotations.

Set Implicit Arguments.
Local Open Scope string_scope.
Local Open Scope list_scope.
Local Open Scope Z_scope.

(* ================================================================== *)
(** * Python strings *)
(* ================================================================== *)

Module PyStr.

(** A Python [str] is a sequence of Unicode code points. *)
Definition char := N.
Definition str := list char.

(** ASCII literals of the source, as code point sequences. *)
Definition lit (s : string) : str :=
  List.map N_of_ascii (list_ascii_of_string s).

Fixpoint eqb (a b : str) : bool :=
  match a, b with
  | [], [] => true
  | x :: a', y :: b' => N.eqb x y && eqb a' b'
  | _, _ => false
  end.

(** Truthiness of a string: [if s] / [if not s]. *)
Definition truthy (s : str) : bool :=
  match s with [] => false | _ :: _ => true end.

Definition in_ranges (tbl : list (N * N)) (c : char) : bool :=
  existsb (fun r => N.leb (fst r) c && N.leb c (snd r)) tbl.

(** Code points with [Numeric_Type=Decimal] (general category Nd),
    Unicode 14.0.  Inside each range the digit value is the offset
    modulo ten. *)
Definition decimal_ranges : list (N * N) := [
    (48, 57); (1632, 1641); (1776, 1785); (1984, 1993);
    (2406, 2415); (2534, 2543); (2662, 2671); (2790, 2799);
    (2918, 2927); (3046, 3055); (3174, 3183); (3302, 3311);
    (3430, 3439); (3558, 3567); (3664, 3673); (3792, 3801);
    (3872, 3881); (4160, 4169); (4240, 4249); (6112, 6121);
    (6160, 6169); (6470, 6479); (6608, 6617); (6784, 6793);
    (6800, 6809); (6992, 7001); (7088, 7097); (7232, 7241);
    (7248, 7257); (42528, 42537); (43216, 43225); (43264, 43273);
    (43472, 43481); (43504, 43513); (43600, 43609); (44016, 44025);
    (65296, 65305); (66720, 66729); (68912, 68921); (69734, 69743);
    (69872, 69881); (69942, 69951); (70096, 70105); (70384, 70393);
    (70736, 70745); (70864, 70873); (71248, 71257); (71360, 71369);
    (71472, 71481); (71904, 71913); (72016, 72025); (72784, 72793);
    (73040, 73049); (73120, 73129); (92768, 92777); (92864, 92873);
    (93008, 93017); (120782, 120831); (123200, 123209); (123632, 123641);
    (125264, 125273); (130032, 130041) ]%N.

(** Code points with [Numeric_Type=Digit] that are not decimal:
    superscripts, subscripts, circled digits and the like. *)
Definition other_digit_ranges : list (N * N) := [
    (178, 179); (185, 185); (4969, 4977); (6618, 6618);
    (8304, 8304); (8308, 8313); (8320, 8329); (9312, 9320);
    (9332, 9340); (9352, 9360); (9450, 9450); (9461, 9469);
    (9471, 9471); (10102, 10110); (10112, 10120); (10122, 10130);
    (68160, 68163); (69216, 69224); (69714, 69722); (127232, 127242) ]%N.

(** [str.isspace] on one character. *)
Definition whitespace_ranges : list (N * N) := [
    (9, 13); (28, 32); (133, 133); (160, 160); (5760, 5760);
    (8192, 8202); (8232, 8233); (8239, 8239); (8287, 8287);
    (12288, 12288) ]%N.

Definition isdecimal (c : char) : bool := in_ranges decimal_ranges c.

(** [c.isdigit()] *)
Definition isdigit (c : char) : bool :=
  isdecimal c || in_ranges other_digit_ranges c.

Definition isspace (c : char) : bool := in_ranges whitespace_ranges c.

(** The decimal digit value of a code point, when it has one. *)
Definition decimal_value (c : char) : option N :=
  match find (fun r => N.leb (fst r) c && N.leb c (snd r)) decimal_ranges with
  | Some r => Some (N.modulo (c - fst r) 10)
  | None => None
  end.

Fixpoint lstrip (s : str) : str :=
  match s with
  | c :: s' => if isspace c then lstrip s' else s
  | [] => []
  end.

Definition rstrip (s : str) : str := rev (lstrip (rev s)).

(** [s.strip()] *)
Definition strip (s : str) : str := rstrip (lstrip s).

(** [s.split()]: the maximal runs of non-whitespace characters.
    [cur] is the run being read, in reverse. *)
Fixpoint split_go (cur : str) (s : str) : list str :=
  match s with
  | [] => match cur with [] => [] | _ => [rev cur] end
  | c :: s' =>
      if isspace c
      then match cur with
           | [] => split_go [] s'
           | _ => rev cur :: split_go [] s'
           end
      else split_go (c :: cur) s'
  end.

Definition split (s : str) : list str := split_go [] s.

(** [s.replace(old, new)] for a one-character [old]. *)
Definition replace (old : char) (new : str) (s : str) : str :=
  flat_map (fun c => if N.eqb c old then new else [c]) s.

(** [''.join(c for c in s if p c)] *)
Definition join_filter (p : char -> bool) (s : str) : str := filter p s.

(** [s.lower()].  Exact on every code point whose lowercase form contains
    an ASCII character: A-Z, U+0130 and U+212A.  All other cased code
    points lowercase to non-ASCII code points; they are kept as they are,
    which leaves a comparison with an ASCII literal unchanged. *)
Definition lower_char (c : char) : str :=
  if (N.leb 65 c && N.leb c 90)%N then [c + 32]%N
  else if N.eqb c 304 then [105; 775]%N
  else if N.eqb c 8490 then [107]%N
  else [c].

Definition lower (s : str) : str := flat_map lower_char s.

(** [s.startswith(p)] and substring search ([p in s]). *)
Fixpoint startswith (p s : str) : bool :=
  match p, s with
  | [], _ => true
  | x :: p', y :: s' => N.eqb x y && startswith p' s'
  | _ :: _, [] => false
  end.

Fixpoint contains (p s : str) : bool :=
  startswith p s ||
  match s with
  | [] => false
  | _ :: s' => contains p s'
  end.

(** Two range tables with no code point in common, and a table whose
    ranges all start at or above a bound. *)
Definition ranges_disjoint (t1 t2 : list (N * N)) : bool :=
  forallb (fun r =>
             forallb (fun r' => N.ltb (snd r) (fst r') || N.ltb (snd r') (fst r))
               t2) t1.

Definition ranges_from (n : N) (tbl : list (N * N)) : bool :=
  forallb (fun r => N.leb n (fst r)) tbl.

End PyStr.

(* ================================================================== *)
(** * Exceptions and results *)
(* ================================================================== *)

(** The exception classes the program can meet.  [RequestException]
    is the base class of what the HTTP session raises: connection
    errors, timeouts and the [HTTPError] of [raise_for_status]. *)
Inductive request_failure :=
| ConnectionError
| Timeout
| HTTPError (status : Z).

Inductive exn :=
| ValueError
| TypeError
| OverflowError
| IndexError
| KeyError
| AttributeError
| UnicodeEncodeError
| RequestException (why : request_failure).

(** The outcome of a call that may raise. *)
Inductive result (A : Type) :=
| Ok (a : A)
| Raise (e : exn).
Arguments Ok {A} a.
Arguments Raise {A} e.

Definition exn_eqb (a b : exn) : bool :=
  match a, b with
  | ValueError, ValueError
  | TypeError, TypeError
  | OverflowError, OverflowError
  | IndexError, IndexError
  | KeyError, KeyError
  | AttributeError, AttributeError
  | UnicodeEncodeError, UnicodeEncodeError => true
  | RequestException ConnectionError, RequestException ConnectionError
  | RequestException Timeout, RequestException Timeout => true
  | RequestException (HTTPError x), RequestException (HTTPError y) => Z.eqb x y
  | _, _ => false
  end.

(* ================================================================== *)
(** * Python numbers *)
(* ================================================================== *)

Module PyNum.
Import PyStr.

(** A Python [float] is an IEEE 754 binary64 value. *)
Definition pyfloat := spec_float.

Definition prec : Z := 53.
Definition emax : Z := 1024.

Definition inf : pyfloat := S754_infinity false.

(** [bool(x)] for a float: zero (of either sign) is false, NaN is true. *)
Definition float_truthy (x : pyfloat) : bool :=
  match x with
  | S754_zero _ => false
  | _ => true
  end.

Definition is_nan (x : pyfloat) : bool :=
  match x with
  | S754_nan => true
  | _ => false
  end.

(** [x < y], [x <= y], [x == y] *)
Definition flt (x y : pyfloat) : bool := SFltb x y.
Definition fle (x y : pyfloat) : bool := SFleb x y.
Definition feq (x y : pyfloat) : bool := SFeqb x y.

(** The binary64 nearest to [(-1)^neg * d * 10^e] (ties to even);
    overflow gives an infinity, underflow a zero. *)
Definition decimal_to_binary64 (neg : bool) (d : N) (e : Z) : pyfloat :=
  match d with
  | N0 => S754_zero neg
  | Npos p =>
      if 0 <=? e
      then binary_normalize prec emax
             (cond_Zopp neg (Zpos p * 10 ^ e)) 0 false
      else
        let '(q, e', l) :=
          SFdiv_core_binary prec emax (Zpos p) 0 (10 ^ (- e)) 0 in
        binary_round_aux prec emax neg q e' l
  end.

(** [float(n)] for an [int]: correctly rounded, [OverflowError] when the
    result would not be finite. *)
Definition float_of_int (n : Z) : result pyfloat :=
  match binary_normalize prec emax n 0 false with
  | S754_infinity _ => Raise OverflowError
  | f => Ok f
  end.

Definition is_ascii_digit (c : char) : bool := (N.leb 48 c && N.leb c 57)%N.

(** [Py_ISSPACE]: the ASCII white space of the C layer. *)
Definition py_isspace (c : char) : bool :=
  (N.leb 9 c && N.leb c 13)%N || N.eqb c 32.

(** What [float()] and [int()] do to a [str] before parsing it: ASCII is
    kept, other white space becomes a blank, other decimal digits become
    ASCII digits, and anything else becomes ['?']. *)
Definition to_ascii (c : char) : char :=
  if N.ltb c 127 then c
  else if isspace c then 32%N
  else match decimal_value c with
       | Some d => (48 + d)%N
       | None => 63%N
       end.

Definition underscore : char := 95%N.

(** Underscores are allowed only between two digits. *)
Fixpoint underscores_ok (prev : char) (s : str) : bool :=
  match s with
  | [] => negb (N.eqb prev underscore)
  | c :: s' =>
      (if N.eqb c underscore then is_ascii_digit prev
       else negb (N.eqb prev underscore) || is_ascii_digit c)
      && underscores_ok c s'
  end.

Fixpoint c_lstrip (s : str) : str :=
  match s with
  | c :: s' => if py_isspace c then c_lstrip s' else s
  | [] => []
  end.

Definition c_strip (s : str) : str := rev (c_lstrip (rev (c_lstrip s))).

(** The longest prefix of ASCII digits, and what follows it. *)
Fixpoint span_digits (s : str) : str * str :=
  match s with
  | c :: s' =>
      if is_ascii_digit c
      then let '(ds, r) := span_digits s' in (c :: ds, r)
      else ([], s)
  | [] => ([], [])
  end.

Definition digits_value (ds : str) : N :=
  fold_left (fun acc c => (10 * acc + (c - 48))%N) ds 0%N.

(** An optional sign: [(negative, rest)]. *)
Definition take_sign (s : str) : bool * str :=
  match s with
  | 45%N :: s' => (true, s')
  | 43%N :: s' => (false, s')
  | _ => (false, s)
  end.

(** The exponent part [e[+-]ddd]; it is read only when at least one
    digit follows, otherwise the text is left where it is. *)
Definition take_exponent (s : str) : Z * str :=
  match s with
  | c :: s' =>
      if N.eqb c 101 || N.eqb c 69
      then let '(neg, r1) := take_sign s' in
           let '(ds, r2) := span_digits r1 in
           match ds with
           | [] => (0, s)
           | _ => (cond_Zopp neg (Z.of_N (digits_value ds)), r2)
           end
      else (0, s)
  | [] => (0, [])
  end.

(** [strtod] on the decimal grammar
    [[sign] digits [. digits] [exponent]] with at least one digit in the
    mantissa: the value read and the unread rest, or [None] when no
    number starts here. *)
Definition parse_decimal (s : str) : option (pyfloat * str) :=
  let '(neg, r0) := take_sign s in
  let '(ip, r1) := span_digits r0 in
  let '(fp, r2) :=
    match r1 with
    | 46%N :: r => span_digits r
    | _ => ([], r1)
    end in
  match ip ++ fp with
  | [] => None
  | ds =>
      let '(ex, r3) := take_exponent r2 in
      Some (decimal_to_binary64 neg (digits_value ds)
              (ex - Z.of_nat (List.length fp)), r3)
  end.

(** [inf], [infinity] and [nan], in any case, with an optional sign. *)
Definition parse_inf_or_nan (s : str) : option (pyfloat * str) :=
  let '(neg, r0) := take_sign s in
  let l := lower r0 in
  if startswith (lit "infinity") l
  then Some (S754_infinity neg, skipn 8 r0)
  else if startswith (lit "inf") l
  then Some (S754_infinity neg, skipn 3 r0)
  else if startswith (lit "nan") l
  then Some (S754_nan, skipn 3 r0)
  else None.

(** [float(s)] for a [str]. *)
Definition float_of_str (s : str) : result pyfloat :=
  let a := List.map to_ascii s in
  if underscores_ok 0%N a then
    let t := c_strip (filter (fun c => negb (N.eqb c underscore)) a) in
    match parse_decimal t with
    | Some (x, []) => Ok x
    | Some (_, _ :: _) => Raise ValueError
    | None =>
        match parse_inf_or_nan t with
        | Some (x, []) => Ok x
        | _ => Raise ValueError
        end
    end
  else Raise ValueError.

(** The default of [sys.int_max_str_digits]. *)
Definition int_max_str_digits : nat := 4300.

(** The digits of an [int] literal, single underscores between them
    dropped: [(digits, rest)], or [None] on a misplaced underscore. *)
Fixpoint scan_int (prev : char) (acc : str) (s : str) : option (str * str) :=
  match s with
  | c :: s' =>
      if is_ascii_digit c then scan_int c (c :: acc) s'
      else if N.eqb c underscore
      then if N.eqb prev underscore then None
           else scan_int underscore acc s'
      else if N.eqb prev underscore then None else Some (rev acc, s)
  | [] => if N.eqb prev underscore then None else Some (rev acc, [])
  end.

(** [int(s)] for a [str], base ten. *)
Definition int_of_str (s : str) : result Z :=
  let a := List.map to_ascii s in
  let '(neg, r0) := take_sign (c_lstrip a) in
  match r0 with
  | 95%N :: _ => Raise ValueError
  | _ =>
      match scan_int 0%N [] r0 with
      | Some (ds, rest) =>
          match ds, c_lstrip rest with
          | _ :: _, [] =>
              if Nat.ltb int_max_str_digits (List.length ds)
              then Raise ValueError
              else Ok (cond_Zopp neg (Z.of_N (digits_value ds)))
          | _, _ => Raise ValueError
          end
      | None => Raise ValueError
      end
  end.

End PyNum.

(* ================================================================== *)
(** * The Product dataclass *)
(* ================================================================== *)

Import PyStr PyNum.

(** A naive [datetime], as the number of microseconds since
    0001-01-01 00:00:00.  The text form sqlite3 stores for it
    ([isoformat(' ')]) is ordered the way the datetimes are. *)
Definition datetime := N.

(** A value a caller may pass where the dataclass says
    [Optional[float]]; nothing checks the annotation at run time.
    [PyObject] is any object [float()] rejects with [TypeError]. *)
Inductive pyval :=
| PyNone
| PyBool (b : bool)
| PyInt (n : Z)
| PyFloat (x : pyfloat)
| PyStr (s : str)
| PyObject.

(** [float(v)] *)
Definition float_ (v : pyval) : result pyfloat :=
  match v with
  | PyNone => Raise TypeError
  | PyBool b => float_of_int (if b then 1 else 0)
  | PyInt n => float_of_int n
  | PyFloat x => Ok x
  | PyStr s => float_of_str s
  | PyObject => Raise TypeError
  end.

Record Product := {
  name : str;
  price : option pyfloat;
  website : str;
  url : str;
  timestamp : datetime;
  description : str;
  rating : pyfloat;
  num_reviews : Z;
  availability : str
}.

(** [__post_init__], on the [price] the constructor was given: the
    value the field holds afterwards, or the exception that leaves the
    constructor. *)
Definition __post_init__ (price : pyval) : result (option pyfloat) :=
  match price with
  | PyNone => Ok None
  | _ =>
      match float_ price with
      | Ok x => Ok (Some x)
      | Raise ValueError | Raise TypeError => Ok None
      | Raise e => Raise e
      end
  end.

(** [Product(name=..., price=..., ...)]: the generated [__init__]
    stores the fields and runs [__post_init__]. *)
Definition Product_init (name : str) (price : pyval) (website url : str)
    (timestamp : datetime) (description : str) (rating : pyfloat)
    (num_reviews : Z) (availability : str) : result Product :=
  match __post_init__ price with
  | Ok p =>
      Ok {| name := name; price := p; website := website; url := url;
            timestamp := timestamp; description := description;
            rating := rating; num_reviews := num_reviews;
            availability := availability |}
  | Raise e => Raise e
  end.

(** [Optional[float]] seen as a Python value. *)
Definition of_optional (p : option pyfloat) : pyval :=
  match p with
  | Some x => PyFloat x
  | None => PyNone
  end.

(** A stable sort that, like [sorted] and like a SQL sorter, only asks
    whether one element is strictly before another. *)
Section StableSort.
Variable A : Type.
Variable lt : A -> A -> bool.

Fixpoint insert_sorted (x : A) (l : list A) : list A :=
  match l with
  | [] => [x]
  | y :: l' => if lt y x then y :: insert_sorted x l' else x :: y :: l'
  end.

Definition stable_sort (l : list A) : list A :=
  fold_right insert_sorted [] l.
End StableSort.

(* ================================================================== *)
(** * DatabaseManager *)
(* ================================================================== *)

Module DatabaseManager.

(** One row of the [products] table.  TEXT columns hold [str], REAL
    columns a binary64 or NULL, INTEGER columns an integer (the 64-bit
    range of SQLite integers is not modelled). *)
Record row := {
  id : Z;
  r_name : str;
  r_price : option pyfloat;
  r_website : str;
  r_url : str;
  r_timestamp : datetime;
  r_description : str;
  r_rating : option pyfloat;
  r_num_reviews : Z;
  r_availability : str
}.

(** The table, in rowid order of insertion. *)
Definition table := list row.

(** [setup_database]: CREATE TABLE IF NOT EXISTS leaves an existing
    table as it is; a missing one ([None]) is created empty. *)
Definition setup_database (db : option table) : table :=
  match db with
  | Some t => t
  | None => []
  end.

(** How SQLite binds a float to a REAL column: a NaN becomes NULL and
    a negative zero is read back as zero. *)
Definition sql_real (x : pyfloat) : option pyfloat :=
  match x with
  | S754_nan => None
  | S754_zero _ => Some (S754_zero false)
  | _ => Some x
  end.

(** The UNIQUE(name, website, timestamp) constraint: do the row and
    the key collide? *)
Definition same_key (n w : str) (t : datetime) (r : row) : bool :=
  PyStr.eqb (r_name r) n && PyStr.eqb (r_website r) w && N.eqb (r_timestamp r) t.

(** The rowid given to a new row: one more than the largest in use. *)
Definition next_id (t : table) : Z :=
  fold_right (fun r m => Z.max (id r) m) 0 t + 1.

(** A bound [Optional[float]]: [None] is NULL. *)
Definition sql_optional_real (p : option pyfloat) : option pyfloat :=
  match p with
  | Some x => sql_real x
  | None => None
  end.

Definition is_none {A : Type} (o : option A) : bool :=
  match o with
  | None => true
  | Some _ => false
  end.

Definition row_of_product (i : Z) (p : Product) : row :=
  {| id := i;
     r_name := name p;
     r_price := sql_optional_real (price p);
     r_website := website p;
     r_url := url p;
     r_timestamp := timestamp p;
     r_description := description p;
     r_rating := sql_real (rating p);
     r_num_reviews := num_reviews p;
     r_availability := availability p |}.

(** [save_product], on the table: INSERT OR REPLACE deletes the rows
    that collide with the new one on the unique key, then inserts it.
    This is the statement once sqlite3 has bound its parameters; the
    call that raises on a parameter it cannot bind, and then stores
    nothing, is [Console.db_save_product]. *)
Definition save_product (db : table) (product : Product) : table :=
  if negb (truthy (name product)) || is_none (price product) then db
  else
    filter (fun r => negb (same_key (name product) (website product)
                             (timestamp product) r)) db
    ++ [row_of_product (next_id db) product].

(** SQLite's [LIKE]: [%] matches any run of characters, [_] any one
    character, ASCII letters match without regard to case and every
    other character matches itself only.  SQLite reads both operands
    as C strings, up to their first U+0000: [like] is its matcher on
    texts that hold none ([nul_free]). *)
Definition sql_fold (c : char) : char :=
  if (N.leb 65 c && N.leb c 90)%N then (c + 32)%N else c.

Definition percent : char := 37%N.

Fixpoint like (pat s : str) {struct pat} : bool :=
  match pat with
  | [] => match s with [] => true | _ :: _ => false end
  | c :: pat' =>
      if N.eqb c percent
      then (fix star (s : str) : bool :=
              like pat' s ||
              match s with
              | [] => false
              | _ :: s' => star s'
              end) s
      else match s with
           | [] => false
           | d :: s' =>
               (N.eqb c underscore || N.eqb (sql_fold c) (sql_fold d))
               && like pat' s'
           end
  end.


(** The WHERE clause of [get_price_history]. *)
Definition history_where (product_name : str) (r : row) : bool :=
  like (lit "%" ++ product_name ++ lit "%") (r_name r)
  && match r_price r with Some _ => true | None => false end.

(** The selected columns: website, price, timestamp, url. *)
Definition history_columns (r : row)
  : str * option pyfloat * datetime * str :=
  (r_website r, r_price r, r_timestamp r, r_url r).

(** [get_price_history], on the table.  ORDER BY timestamp DESC; rows
    with equal timestamps are left in rowid order here (SQL leaves it
    open).  This is the SELECT once sqlite3 has taken the name; the
    call that raises on a name or a pattern it refuses is
    [Console.db_get_price_history]. *)
Definition get_price_history (db : table) (product_name : str)
  : list (str * option pyfloat * datetime * str) :=
  List.map history_columns
    (stable_sort (fun a b => N.ltb (r_timestamp b) (r_timestamp a))
       (filter (history_where product_name) db)).

End DatabaseManager.

(* ================================================================== *)
(** * The parsed document *)
(* ================================================================== *)

Module Soup.

Definition attrs := list (str * str).

(** The tree [BeautifulSoup(content, 'html.parser')] builds: tags with
    their attribute dictionary and contents, and text.  Tag and
    attribute names are in lower case, as the parser leaves them.  Only
    what [.text] and the selectors look at is kept. *)
#[local] Unset Elimination Schemes.
Inductive node :=
| Tag (tag_name : str) (tag_attrs : attrs) (contents : list node)
| NavigableString (s : str).
#[local] Set Elimination Schemes.

(** The [BeautifulSoup] object: the top-level contents. *)
Definition soup := list node.

(** A tag of the tree, with the tags above it, nearest first. *)
Record element := {
  parents : list (str * attrs);
  el_name : str;
  el_attrs : attrs;
  el_contents : list node
}.

(** [attrs.get(key)] *)
Fixpoint get (key : str) (a : attrs) : option str :=
  match a with
  | [] => None
  | (k, v) :: a' => if PyStr.eqb k key then Some v else get key a'
  end.

(** [tag.text]: all the text below the tag, in document order. *)
Fixpoint node_text (n : node) : str :=
  match n with
  | NavigableString s => s
  | Tag _ _ cs => flat_map node_text cs
  end.

Definition text (e : element) : str := flat_map node_text (el_contents e).

(** The tags at or below a node, in document order. *)
Fixpoint tags_of (above : list (str * attrs)) (n : node) : list element :=
  match n with
  | NavigableString _ => []
  | Tag nm a cs =>
      {| parents := above; el_name := nm; el_attrs := a; el_contents := cs |}
      :: flat_map (tags_of ((nm, a) :: above)) cs
  end.

Definition descendants (e : element) : list element :=
  flat_map (tags_of ((el_name e, el_attrs e) :: parents e)) (el_contents e).

(** A compound selector [tag.class1.class2[attr="value"]]. *)
Record compound := {
  c_tag : str;
  c_classes : list str;
  c_attr : option (str * str)
}.

Inductive combinator := Descendant | Child.

(** A complex selector, read from the right: the compound the selected
    tag must match, then what must hold above it. *)
Record selector := {
  subject : compound;
  context : list (combinator * compound)
}.

Definition has_class (a : attrs) (cls : str) : bool :=
  match get (lit "class") a with
  | Some v => existsb (PyStr.eqb cls) (split v)
  | None => false
  end.

Definition match_compound (c : compound) (nm : str) (a : attrs) : bool :=
  PyStr.eqb (c_tag c) nm
  && forallb (has_class a) (c_classes c)
  && match c_attr c with
     | Some (k, v) =>
         match get k a with
         | Some v' => PyStr.eqb v v'
         | None => false
         end
     | None => true
     end.

(** Does the chain of tags above a matched tag satisfy the rest of the
    selector?  The whole chain up to the document counts, also above
    the tag the selection started from. *)
Fixpoint match_context (ctx : list (combinator * compound))
    (above : list (str * attrs)) {struct ctx} : bool :=
  match ctx with
  | [] => true
  | (Child, c) :: ctx' =>
      match above with
      | (nm, a) :: above' => match_compound c nm a && match_context ctx' above'
      | [] => false
      end
  | (Descendant, c) :: ctx' =>
      (fix up (above : list (str * attrs)) : bool :=
         match above with
         | (nm, a) :: above' =>
             (match_compound c nm a && match_context ctx' above') || up above'
         | [] => false
         end) above
  end.

Definition matches (sel : selector) (e : element) : bool :=
  match_compound (subject sel) (el_name e) (el_attrs e)
  && match_context (context sel) (parents e).

(** [soup.select(sel)] on the document. *)
Definition select_all (sel : selector) (doc : soup) : list element :=
  filter (matches sel) (flat_map (tags_of []) doc).

(** [tag.select(sel)] and [tag.select_one(sel)] *)
Definition select (sel : selector) (e : element) : list element :=
  filter (matches sel) (descendants e).

Definition select_one (sel : selector) (e : element) : option element :=
  hd_error (select sel e).

Definition tag (nm : string) : compound :=
  {| c_tag := lit nm; c_classes := []; c_attr := None |}.

Definition tag_class (nm : string) (cls : list string) : compound :=
  {| c_tag := lit nm; c_classes := List.map lit cls; c_attr := None |}.

Definition simple (c : compound) : selector :=
  {| subject := c; context := [] |}.

End Soup.

(* ================================================================== *)
(** * The world: network, clock, logger, terminal *)
(* ================================================================== *)

(** What [session.get(url, ..., timeout=15)] comes back with: a failure
    of the request, or a response with its status code and its content
    as [html.parser] reads it. *)
Inductive http_outcome :=
| Failed (why : request_failure)
| Response (status_code : Z) (content : Soup.soup).

(** The records handed to [logger.error]: the fixed part of the
    message, the URL when the message has one, and the exception. *)
Inductive log_record :=
| ErrorFetching (url : str) (e : exn)
| ErrorParsingAmazon (e : exn)
| ErrorParsingEbay (e : exn).

(** The lines [search_products] prints. *)
Inductive printed :=
| Searching
| SearchingOn (site_name : str)
| ErrorSearching (site_name : str) (e : exn).

(** The network and the clock are oracles: the answer to the [n]-th
    request and the [n]-th reading of [datetime.now()].  The random
    delay before a request only moves the clock, which the oracle
    already leaves free. *)
Record world := {
  network : nat -> str -> http_outcome;
  requests : nat;
  clock : nat -> datetime;
  readings : nat;
  log : list log_record;
  stdout : list printed
}.

(** State and exceptions. *)
Definition M (A : Type) : Type := world -> result A * world.

Definition ret {A : Type} (a : A) : M A := fun w => (Ok a, w).

Definition bind {A B : Type} (m : M A) (k : A -> M B) : M B :=
  fun w =>
    match m w with
    | (Ok a, w') => k a w'
    | (Raise e, w') => (Raise e, w')
    end.

Definition lift {A : Type} (r : result A) : M A := fun w => (r, w).

(** [try: m  except Exception as e: h e] *)
Definition try_except {A : Type} (m : M A) (h : exn -> M A) : M A :=
  fun w =>
    match m w with
    | (Ok a, w') => (Ok a, w')
    | (Raise e, w') => h e w'
    end.

Declare Scope monad_scope.
Delimit Scope monad_scope with monad.
Notation "x <- m ;; k" := (bind m (fun x => k))
  (at level 61, m at next level, right associativity) : monad_scope.
Notation "m ;;; k" := (bind m (fun _ => k))
  (at level 61, right associativity) : monad_scope.

(** [session.get(url, headers=..., timeout=15)], taken from the oracle:
    the response, or the exception of a failed request. *)
Definition session_get (url : str) : M (Z * Soup.soup) :=
  fun w =>
    let w' := {| network := network w; requests := S (requests w);
                 clock := clock w; readings := readings w;
                 log := log w; stdout := stdout w |} in
    match network w (requests w) url with
    | Failed why => (Raise (RequestException why), w')
    | Response status_code content => (Ok (status_code, content), w')
    end.

(** [response.raise_for_status()] *)
Definition raise_for_status (status_code : Z) : M unit :=
  if (400 <=? status_code) && (status_code <? 600)
  then lift (Raise (RequestException (HTTPError status_code)))
  else ret tt.

(** [datetime.now()] *)
Definition now : M datetime :=
  fun w =>
    (Ok (clock w (readings w)),
     {| network := network w; requests := requests w;
        clock := clock w; readings := S (readings w);
        log := log w; stdout := stdout w |}).

(** [logger.error(...)] *)
Definition logger_error (r : log_record) : M unit :=
  fun w =>
    (Ok tt,
     {| network := network w; requests := requests w;
        clock := clock w; readings := readings w;
        log := log w ++ [r]; stdout := stdout w |}).

(** [print(...)] *)
Definition print (p : printed) : M unit :=
  fun w =>
    (Ok tt,
     {| network := network w; requests := requests w;
        clock := clock w; readings := readings w;
        log := log w; stdout := stdout w ++ [p] |}).

(* ================================================================== *)
(** * WebScraper *)
(* ================================================================== *)

Module WebScraper.
Import Soup.
Local Open Scope monad_scope.

(** [get_soup] *)
Definition get_soup (url : str) : M (option soup) :=
  try_except
    (response <- session_get url ;;
     raise_for_status (fst response) ;;;
     ret (Some (snd response)))
    (fun e => logger_error (ErrorFetching url e) ;;; ret None).

Definition dot : char := 46%N.
Definition comma : char := 44%N.

(** [_extract_price] *)
Definition _extract_price (price_text : str) : result (option pyfloat) :=
  if negb (truthy price_text) then Ok None
  else
    let cleaned :=
      join_filter (fun c => isdigit c || N.eqb c dot || N.eqb c comma)
        price_text in
    let cleaned := replace comma [] cleaned in
    match float_of_str cleaned with
    | Ok x => Ok (Some x)
    | Raise ValueError | Raise AttributeError => Ok None
    | Raise e => Raise e
    end.

(** [l[0]] *)
Definition first_item {A : Type} (l : list A) : result A :=
  match l with
  | x :: _ => Ok x
  | [] => Raise IndexError
  end.

(** [for item in items: try: body(item) except Exception as e: handler(e)],
    where the body either appends one product or goes on to the next
    item. *)
Fixpoint for_each_item (body : element -> M (option Product))
    (handler : exn -> M (option Product))
    (items : list element) (products : list Product) : M (list Product) :=
  match items with
  | [] => ret products
  | item :: rest =>
      r <- try_except (body item) handler ;;
      for_each_item body handler rest
        (match r with
         | Some p => products ++ [p]
         | None => products
         end)
  end.

Definition amazon_result : selector :=
  simple {| c_tag := lit "div"; c_classes := [];
            c_attr := Some (lit "data-component-type", lit "s-search-result") |}.

Definition amazon_name : selector :=
  {| subject := tag "span";
     context := [(Descendant, tag "a"); (Descendant, tag "h2")] |}.

Definition amazon_price : selector :=
  {| subject := tag_class "span" ["a-offscreen"];
     context := [(Child, tag_class "span" ["a-price"])] |}.

Definition amazon_rating : selector := simple (tag_class "span" ["a-icon-alt"]).

Definition amazon_reviews : selector :=
  simple (tag_class "span" ["a-size-base"; "s-underline-text"]).

Definition amazon_link : selector :=
  {| subject := tag "a"; context := [(Descendant, tag "h2")] |}.

Definition zero : pyfloat := S754_zero false.

(** [float(text.split()[0])] *)
Definition rating_value (text : str) : result pyfloat :=
  match first_item (split text) with
  | Ok token => float_of_str token
  | Raise e => Raise e
  end.

(** [int(text.replace(',', ''))] *)
Definition reviews_value (text : str) : result Z :=
  int_of_str (replace comma [] text).

(** The [href] of the first tag [sel] selects, when there is such a
    tag and it has the attribute:
    [url_elem['href'] if url_elem and 'href' in url_elem.attrs]. *)
Definition link_href (sel : selector) (item : element) : option str :=
  match select_one sel item with
  | Some url_elem => get (lit "href") (el_attrs url_elem)
  | None => None
  end.

(** The body of the loop of [_scrape_amazon], inside its [try]. *)
Definition amazon_item (base_url : str) (item : element) : M (option Product) :=
  let name_elem := select_one amazon_name item in
  let price_elem := select_one amazon_price item in
  let rating_elem := select_one amazon_rating item in
  let reviews_elem := select_one amazon_reviews item in
  match name_elem with
  | None => ret None
  | Some name_elem =>
      let name := strip (text name_elem) in
      price <- lift (match price_elem with
                     | Some e => _extract_price (text e)
                     | None => Ok None
                     end) ;;
      rating <- lift (match rating_elem with
                      | Some e => rating_value (text e)
                      | None => Ok zero
                      end) ;;
      reviews <- lift (match reviews_elem with
                       | Some e => reviews_value (text e)
                       | None => Ok 0
                       end) ;;
      let url :=
        match link_href amazon_link item with
        | Some href => lit "https://www.amazon.com" ++ href
        | None => base_url
        end in
      if truthy name && truthy url
      then
        t <- now ;;
        p <- lift (Product_init name (of_optional price) (lit "Amazon") url t
                     [] rating reviews []) ;;
        ret (Some p)
      else ret None
  end.

(** [_scrape_amazon] *)
Definition _scrape_amazon (soup : option soup) (base_url : str)
  : M (list Product) :=
  match soup with
  | None => ret []
  | Some doc =>
      for_each_item (amazon_item base_url)
        (fun e => logger_error (ErrorParsingAmazon e) ;;; ret None)
        (select_all amazon_result doc) []
  end.

Definition ebay_result : selector := simple (tag_class "li" ["s-item"]).
Definition ebay_name : selector := simple (tag_class "div" ["s-item__title"]).
Definition ebay_price : selector := simple (tag_class "span" ["s-item__price"]).
Definition ebay_condition : selector := simple (tag_class "span" ["SECONDARY_INFO"]).
Definition ebay_link : selector := simple (tag_class "a" ["s-item__link"]).

(** The body of the loop of [_scrape_ebay], inside its [try]. *)
Definition ebay_item (base_url : str) (item : element) : M (option Product) :=
  let name_elem := select_one ebay_name item in
  let price_elem := select_one ebay_price item in
  let condition_elem := select_one ebay_condition item in
  match name_elem with
  | None => ret None
  | Some name_elem =>
      let name := strip (text name_elem) in
      if PyStr.eqb (lower name) (lit "shop on ebay") then ret None
      else
        price <- lift (match price_elem with
                       | Some e => _extract_price (text e)
                       | None => Ok None
                       end) ;;
        let availability :=
          match condition_elem with
          | Some e => strip (text e)
          | None => []
          end in
        let url :=
          match link_href ebay_link item with
          | Some href => href
          | None => base_url
          end in
        if truthy name && truthy url
        then
          t <- now ;;
          p <- lift (Product_init name (of_optional price) (lit "eBay") url t
                       [] zero 0 availability) ;;
          ret (Some p)
        else ret None
  end.

(** [_scrape_ebay] *)
Definition _scrape_ebay (soup : option soup) (base_url : str)
  : M (list Product) :=
  match soup with
  | None => ret []
  | Some doc =>
      for_each_item (ebay_item base_url)
        (fun e => logger_error (ErrorParsingEbay e) ;;; ret None)
        (select_all ebay_result doc) []
  end.

(** [scrape_site] *)
Definition scrape_site (url site_name : str) : M (list Product) :=
  soup <- get_soup url ;;
  match soup with
  | None => ret []
  | Some doc =>
      if PyStr.eqb site_name (lit "amazon") then _scrape_amazon (Some doc) url
      else if PyStr.eqb site_name (lit "ebay") then _scrape_ebay (Some doc) url
      else ret []
  end.

End WebScraper.

(* ================================================================== *)
(** * PriceComparisonTool *)
(* ================================================================== *)

Module PriceComparisonTool.
Local Open Scope monad_scope.

(** The UTF-8 bytes of a code point; a surrogate has none. *)
Definition utf8 (c : char) : result (list N) :=
  (if c <? 128 then Ok [c]
   else if c <? 2048 then Ok [192 + c / 64; 128 + c mod 64]
   else if (55296 <=? c) && (c <=? 57343) then Raise UnicodeEncodeError
   else if c <? 65536
   then Ok [224 + c / 4096; 128 + (c / 64) mod 64; 128 + c mod 64]
   else Ok [240 + c / 262144; 128 + (c / 4096) mod 64;
            128 + (c / 64) mod 64; 128 + c mod 64])%N.

Definition hex_digit (n : N) : char :=
  (if n <? 10 then 48 + n else 55 + n)%N.

(** The bytes [quote] leaves as they are: letters, digits and [_.-~]. *)
Definition always_safe (b : N) : bool :=
  ((65 <=? b) && (b <=? 90) || (97 <=? b) && (b <=? 122)
   || (48 <=? b) && (b <=? 57)
   || (b =? 95) || (b =? 46) || (b =? 45) || (b =? 126))%N.

Definition quote_byte (b : N) : str :=
  if always_safe b then [b]
  else if N.eqb b 32 then [43%N]
  else [37%N; hex_digit (b / 16); hex_digit (b mod 16)].

(** [urllib.parse.quote_plus] *)
Fixpoint quote_plus (s : str) : result str :=
  match s with
  | [] => Ok []
  | c :: s' =>
      match utf8 c, quote_plus s' with
      | Ok bs, Ok r => Ok (flat_map quote_byte bs ++ r)
      | Raise e, _ => Raise e
      | _, Raise e => Raise e
      end
  end.

(** A format string, read into its literal text and its [{}] fields. *)
Inductive segment :=
| Literal (s : str)
| Field.

Definition template := list segment.

(** [template.format(arg)], one positional argument: the first [{}]
    takes it and a second one finds no argument left. *)
Fixpoint format_from (used : bool) (t : template) (arg : str) : result str :=
  match t with
  | [] => Ok []
  | Literal s :: t' =>
      match format_from used t' arg with
      | Ok r => Ok (s ++ r)
      | Raise e => Raise e
      end
  | Field :: t' =>
      if used then Raise IndexError
      else match format_from true t' arg with
           | Ok r => Ok (arg ++ r)
           | Raise e => Raise e
           end
  end.

Definition format (t : template) (arg : str) : result str :=
  format_from false t arg.

(** What [search_products] asks of [self.scraper]. *)
Record Scraper := {
  scrape_site : str -> str -> M (list Product)
}.

Record tool := {
  scraper : Scraper;
  site_urls : list (str * template)
}.

(** [__init__]: the scraper and the two sites, in the order the
    dictionary literal lists them. *)
Definition init : tool :=
  {| scraper := {| scrape_site := WebScraper.scrape_site |};
     site_urls :=
       [ (lit "amazon", [Literal (lit "https://www.amazon.com/s?k="); Field]);
         (lit "ebay",
          [Literal (lit "https://www.ebay.com/sch/i.html?_nkw="); Field]) ] |}.

(** The loop of [search_products] over [site_urls.items()]. *)
Fixpoint for_each_site (self : tool) (encoded_query : str)
    (sites : list (str * template)) (products : list Product)
  : M (list Product) :=
  match sites with
  | [] => ret products
  | (site_name, url_template) :: rest =>
      products <-
        try_except
          (url <- lift (format url_template encoded_query) ;;
           print (SearchingOn site_name) ;;;
           site_products <- scrape_site (scraper self) url site_name ;;
           ret (products ++ site_products))
          (fun e => print (ErrorSearching site_name e) ;;; ret products) ;;
      for_each_site self encoded_query rest products
  end.

(** [search_products] *)
Definition search_products (self : tool) (query : str) : M (list Product) :=
  encoded_query <- lift (quote_plus query) ;;
  print Searching ;;;
  for_each_site self encoded_query (site_urls self) [].

(** [display_results]: the filter, the sort key and the sort. *)
Definition valid_products (products : list Product) : list Product :=
  filter (fun p => negb (DatabaseManager.is_none (price p))) products.

(** [x.price or float('inf')] *)
Definition sort_key (x : Product) : pyfloat :=
  match price x with
  | Some v => if float_truthy v then v else inf
  | None => inf
  end.

(** [sorted(valid_products, key=...)].  Keys are compared with [<]
    only; the order is the one of [sorted] whenever no key is a NaN. *)
Definition sorted_products (valid : list Product) : list Product :=
  stable_sort (fun a b => flt (sort_key a) (sort_key b)) valid.

(** What [display_results] shows. *)
Inductive shown :=
| NoProductsFound
| NoValidPrices
| Results (sorted : list Product).

Definition display_results (products : list Product) : shown :=
  match products with
  | [] => NoProductsFound
  | _ =>
      let valid := valid_products products in
      match valid with
      | [] => NoValidPrices
      | _ => Results (sorted_products valid)
      end
  end.

(** The loop of [main] that stores a search, on the table:
    [if product.price is not None: tool.db.save_product(product)],
    for records sqlite3 can bind.  The loop that stops at the first
    record it cannot bind is [Console.store_search]. *)
Definition save_all (db : DatabaseManager.table) (products : list Product)
  : DatabaseManager.table :=
  fold_left
    (fun db product =>
       if negb (DatabaseManager.is_none (price product))
       then DatabaseManager.save_product db product
       else db)
    products db.

End PriceComparisonTool.

(* ================================================================== *)
(** * The specification's wording *)
(* ================================================================== *)

(** The operations as the specification words them, to be compared
    with the functions above, and the properties it names. *)
Module Spec.
Import DatabaseManager.

(** The longest prefix whose characters satisfy [p], and the rest. *)
Fixpoint span (p : char -> bool) (s : str) : str * str :=
  match s with
  | c :: s' =>
      if p c then let '(a, r) := span p s' in (c :: a, r) else ([], s)
  | [] => ([], [])
  end.

(** The number a run of decimal digits writes. *)
Definition digit (c : char) : N :=
  match decimal_value c with
  | Some d => d
  | None => 0%N
  end.

Definition number (ds : str) : N :=
  fold_left (fun acc c => (10 * acc + digit c)%N) ds 0%N.

(** A decimal number: digits, then possibly a point and more digits,
    with a digit somewhere; its value is rounded to the nearest float. *)
Definition decimal_number (s : str) : option pyfloat :=
  let '(ip, r1) := span isdecimal s in
  let whole (fp : str) :=
    match ip ++ fp with
    | [] => None
    | ds => Some (decimal_to_binary64 false (number ds)
                    (- Z.of_nat (List.length fp)))
    end in
  match r1 with
  | [] => whole []
  | c :: r2 =>
      if N.eqb c WebScraper.dot
      then let '(fp, r3) := span isdecimal r2 in
           match r3 with
           | [] => whole fp
           | _ :: _ => None
           end
      else None
  end.

(** parsePrice: keep digits, points and commas; drop the commas; read
    what is left as a decimal number; unknown on empty input or when
    that fails. *)
Definition parsePrice (text : str) : option pyfloat :=
  match text with
  | [] => None
  | _ =>
      let kept :=
        filter (fun c => isdigit c || N.eqb c WebScraper.dot
                         || N.eqb c WebScraper.comma) text in
      decimal_number (filter (fun c => negb (N.eqb c WebScraper.comma)) kept)
  end.



(** Newest first. *)
Definition newer_or_same (a b : str * option pyfloat * datetime * str) : Prop :=
  match a, b with
  | (_, _, ta, _), (_, _, tb, _) => (tb <= ta)%N
  end.

(** Resolving an item link against the origin of a site: an absolute
    URL stands for itself, a path is placed under the origin. *)
Definition resolve (origin href : str) : str :=
  if contains (lit "://") href then href
  else if startswith (lit "/") href then origin ++ href
  else origin ++ lit "/" ++ href.


(** The prices of the records that have one, in order. *)
Definition known_prices (l : list Product) : list pyfloat :=
  flat_map (fun p => match price p with Some x => [x] | None => [] end) l.

(** A price sequence that never goes down. *)
Definition non_decreasing (prices : list pyfloat) : Prop :=
  Sorted (fun a b => fle a b = true) prices.

End Spec.

(* ================================================================== *)
(** * Names for parts of the program's behaviour *)
(* ================================================================== *)

Module Parts.

(** The two site parsers, with the parts the per-item contract
    speaks of: the selector of the items, the selector of the name
    element, the body run for each item and the record logged when
    that body raises. *)
Record site_parser := {
  parse : option Soup.soup -> str -> M (list Product);
  items : Soup.selector;
  name_element : Soup.selector;
  item_body : str -> Soup.element -> M (option Product);
  error_record : exn -> log_record
}.

Definition amazon_parser : site_parser :=
  {| parse := WebScraper._scrape_amazon;
     items := WebScraper.amazon_result;
     name_element := WebScraper.amazon_name;
     item_body := WebScraper.amazon_item;
     error_record := ErrorParsingAmazon |}.

Definition ebay_parser : site_parser :=
  {| parse := WebScraper._scrape_ebay;
     items := WebScraper.ebay_result;
     name_element := WebScraper.ebay_name;
     item_body := WebScraper.ebay_item;
     error_record := ErrorParsingEbay |}.

(** The world after one more record went to the logger. *)
Definition logged (r : log_record) (w : world) : world :=
  snd (logger_error r w).

(** The world after one more request was sent. *)
Definition requested (url : str) (w : world) : world :=
  snd (session_get url w).

(** The world after one more reading of the clock. *)
Definition clock_read (w : world) : world := snd (now w).

(** The world after one more line was printed. *)
Definition printed_line (p : printed) (w : world) : world :=
  snd (print p w).

(** The handler of the per-item [try] of a parser. *)
Definition on_error (P : site_parser) (e : exn) : M (option Product) :=
  bind (logger_error (error_record P e)) (fun _ => ret None).

(** The characters that are left of a price text once it is cleaned,
    and what [float()] turns them into before it parses. *)
Definition price_char (c : char) : bool := isdigit c || N.eqb c WebScraper.dot.

Definition plain (a : char) : bool :=
  is_ascii_digit a || N.eqb a 46 || N.eqb a 63.

(** The records a call returned. *)
Definition records (r : result (list Product) * world) : list Product :=
  match fst r with
  | Ok l => l
  | Raise _ => []
  end.

(** A price that ranks as itself: not zero and not a NaN. *)
Definition ranks_as_itself (p : Product) : Prop :=
  exists x, price p = Some x /\ float_truthy x = true /\ is_nan x = false.

End Parts.

(* ================================================================== *)
(** * Sample data *)
(* ================================================================== *)

Module Samples.
Import Soup DatabaseManager.

(** Floats read from their decimal text, as the scrapers obtain them. *)
Definition float_lit (s : string) : pyfloat :=
  match float_of_str (lit s) with
  | Ok x => x
  | Raise _ => S754_nan
  end.

Definition product (n : string) (p : option pyfloat) (site : string)
    (t : datetime) : Product :=
  {| name := lit n; price := p; website := lit site;
     url := lit "https://example.com/item"; timestamp := t;
     description := []; rating := S754_zero false; num_reviews := 0;
     availability := [] |}.

Definition phone_9 : Product := product "iPhone" (Some (float_lit "9.99")) "eBay" 100%N.
Definition phone_7 : Product :=
  {| name := lit "iPhone"; price := Some (float_lit "7.50"); website := lit "eBay";
     url := lit "https://example.com/other"; timestamp := 100%N;
     description := lit "second look"; rating := float_lit "4.5";
     num_reviews := 12; availability := lit "Used" |}.
Definition case_5 : Product := product "Phone case" (Some (float_lit "5.00")) "Amazon" 200%N.
Definition free_item : Product := product "Sticker" (Some (float_lit "0.00")) "eBay" 300%N.
Definition unpriced : Product := product "Mystery box" None "eBay" 400%N.

(** Documents. *)
Definition T (nm cls : string) (cs : list node) : node :=
  Tag (lit nm) [(lit "class", lit cls)] cs.

Definition txt (s : string) : node := NavigableString (lit s).

Definition amazon_tile (cs : list node) : node :=
  Tag (lit "div") [(lit "data-component-type", lit "s-search-result")] cs.

Definition amazon_title (href title : string) : node :=
  Tag (lit "h2") []
    [Tag (lit "a") [(lit "href", lit href)] [Tag (lit "span") [] [txt title]]].

Definition amazon_price_tag (p : string) : node :=
  T "span" "a-price" [T "span" "a-offscreen" [txt p]].

(** A tile with every field. *)
Definition laptop_contents : list node :=
  [amazon_title "/dp/B01" " Laptop ";
   amazon_price_tag "$1,234.56";
   T "span" "a-icon-alt" [txt "4.5 out of 5 stars"];
   T "span" "a-size-base s-underline-text" [txt "1,234"]].

Definition laptop_tile : node := amazon_tile laptop_contents.

(** A tile without the name element. *)
Definition nameless_tile : node := amazon_tile [amazon_price_tag "$1.00"].

(** A tile whose rating text is not a number. *)
Definition unrated_contents : list node :=
  [amazon_title "/dp/B02" "Phone";
   amazon_price_tag "$99.00";
   T "span" "a-icon-alt" [txt "N/A"]].

Definition unrated_tile : node := amazon_tile unrated_contents.

(** A tile whose price text is not a number and that has no rating. *)
Definition unpriced_contents : list node :=
  [amazon_title "/dp/B03" "Tablet"; amazon_price_tag "N/A"].

Definition unpriced_tile : node := amazon_tile unpriced_contents.

(** A tile whose link is an absolute URL. *)
Definition absolute_tile : node :=
  amazon_tile [amazon_title "https://www.amazon.com/dp/B04" "Camera"].

(** A result tile of a page, as the selection hands it to the loop. *)
Definition amazon_element (cs : list node) : element :=
  {| parents := [(lit "body", []); (lit "html", [])];
     el_name := lit "div";
     el_attrs := [(lit "data-component-type", lit "s-search-result")];
     el_contents := cs |}.

Definition ebay_element (cs : list node) : element :=
  {| parents := [];
     el_name := lit "li";
     el_attrs := [(lit "class", lit "s-item")];
     el_contents := cs |}.

Definition page (tiles : list node) : soup :=
  [Tag (lit "html") [] [Tag (lit "body") [] tiles]].

Definition ebay_contents (href title p : string) : list node :=
  [T "div" "s-item__title" [txt title];
   T "span" "s-item__price" [txt p];
   Tag (lit "a") [(lit "class", lit "s-item__link"); (lit "href", lit href)] []].

Definition ebay_tile (href title p : string) : node :=
  T "li" "s-item" (ebay_contents href title p).

Definition ebay_tile_no_link (title p : string) : node :=
  T "li" "s-item"
    [T "div" "s-item__title" [txt title]; T "span" "s-item__price" [txt p]].

(** A world in which every request times out, and one that serves a
    page to the second request only. *)
Definition offline : world :=
  {| network := fun _ _ => Failed Timeout; requests := 0;
     clock := fun n => N.of_nat n; readings := 0; log := []; stdout := [] |}.

Definition ebay_only : world :=
  {| network := fun n _ =>
       match n with
       | 1%nat => Response 200 [ebay_tile "https://www.ebay.com/itm/1" "Laptop bag" "$20.00"]
       | _ => Failed Timeout
       end;
     requests := 0; clock := fun n => N.of_nat n; readings := 0;
     log := []; stdout := [] |}.

(** A tile whose name is blank. *)
Definition blank_contents : list node :=
  [amazon_title "/dp/B05" "   "; amazon_price_tag "$3.00"].

(** A tile whose review count does not fit 64 bits. *)
Definition crowded_contents : list node :=
  [amazon_title "/dp/B06" "Phone";
   amazon_price_tag "$99.00";
   T "span" "a-size-base s-underline-text" [txt "99,999,999,999,999,999,999"]].

End Samples.

(* ================================================================== *)
(** * The two sites *)
(* ================================================================== *)

Module Sites.
Import Soup WebScraper Parts.

Inductive site :=
| Amazon
| Ebay.

Definition parser_of (s : site) : site_parser :=
  match s with
  | Amazon => amazon_parser
  | Ebay => ebay_parser
  end.

Definition is_ok {A : Type} (r : result A) : bool :=
  match r with
  | Ok _ => true
  | Raise _ => false
  end.

(** The URL the parser of a site gives an item. *)
Definition url_of (s : site) (base_url : str) (item : element) : str :=
  match s with
  | Amazon =>
      match link_href amazon_link item with
      | Some href => lit "https://www.amazon.com" ++ href
      | None => base_url
      end
  | Ebay =>
      match link_href ebay_link item with
      | Some href => href
      | None => base_url
      end
  end.

(** A well-formed item of a site: it has a name element whose text is
    not blank, its URL is not empty, and what else the parser reads
    as a number is one: for Amazon the rating and the review count,
    when their elements are there; for eBay the name is not the
    [Shop on eBay] placeholder. *)
Definition well_formed (s : site) (base_url : str) (item : element) : bool :=
  match select_one (name_element (parser_of s)) item with
  | None => false
  | Some name_elem =>
      truthy (strip (text name_elem))
      && truthy (url_of s base_url item)
      && match s with
         | Amazon =>
             match select_one amazon_rating item with
             | Some e => is_ok (rating_value (text e))
             | None => true
             end
             && match select_one amazon_reviews item with
                | Some e => is_ok (reviews_value (text e))
                | None => true
                end
         | Ebay =>
             negb (PyStr.eqb (lower (strip (text name_elem)))
                     (lit "shop on ebay"))
         end
  end.

End Sites.

(** The outcomes of a run of a site parser, item by item. *)
Module Trace.
Import Soup Parts.

(** What the body of the loop came to for each item, in the worlds
    the loop ran it in: after a body that raised, the handler has
    logged its record. *)
Fixpoint outcomes (P : site_parser) (base_url : str) (items : list element)
    (w : world) : list (result (option Product)) :=
  match items with
  | [] => []
  | item :: rest =>
      let r := item_body P base_url item w in
      fst r
      :: outcomes P base_url rest
           match fst r with
           | Raise e => logged (error_record P e) (snd r)
           | Ok _ => snd r
           end
  end.

Definition records_of (os : list (result (option Product))) : list Product :=
  flat_map (fun o => match o with Ok (Some p) => [p] | _ => [] end) os.

Definition raised_of (os : list (result (option Product))) : list exn :=
  flat_map (fun o => match o with Raise e => [e] | _ => [] end) os.

End Trace.

(* ================================================================== *)
(** * What the parsers leave behind *)
(* ================================================================== *)

Module Notions.
Import Soup Parts.

(** A text without white space at either end. *)
Definition trimmed (s : str) : Prop :=
  match s with
  | [] => True
  | c :: _ => isspace c = false /\ isspace (last s c) = false
  end.

(** What every record of the Amazon parser looks like. *)
Definition amazon_record (p : Product) : Prop :=
  truthy (name p) = true /\ trimmed (name p)
  /\ truthy (url p) = true
  /\ website p = lit "Amazon"
  /\ description p = [] /\ availability p = [].

(** What every record of the eBay parser looks like. *)
Definition ebay_record (p : Product) : Prop :=
  truthy (name p) = true /\ trimmed (name p)
  /\ lower (name p) <> lit "shop on ebay"
  /\ truthy (url p) = true
  /\ website p = lit "eBay"
  /\ description p = [] /\ trimmed (availability p)
  /\ rating p = WebScraper.zero /\ num_reviews p = 0.

(** An item body that touches the world in one way only: it reads the
    clock once, for the record it emits, and that reading is the
    record's timestamp. *)
Definition reads_clock_once (Q : Product -> Prop)
    (body : element -> M (option Product)) : Prop :=
  forall item w,
    match body item w with
    | (Ok (Some p), w') =>
        w' = clock_read w /\ timestamp p = clock w (readings w) /\ Q p
    | (_, w') => w' = w
    end.

(** The next [n] readings of the clock. *)
Definition next_readings (w : world) (n : nat) : list datetime :=
  List.map (clock w) (seq (readings w) n).

End Notions.

Module Outcome.
Import Soup Parts Notions.

(** What a run of a site parser on a document comes to: the records,
    the exceptions of the items that were skipped with one, and the
    world afterwards. *)
Record run := {
  emitted : list Product;
  errors : list exn;
  after : world
}.

(** The run leaves the network, the clock and the terminal alone,
    reads the clock once per record, in order, and logs one record per
    exception. *)
Definition effects_of (P : site_parser) (n_items : nat) (w : world) (r : run)
  : Prop :=
  network (after r) = network w
  /\ requests (after r) = requests w
  /\ clock (after r) = clock w
  /\ stdout (after r) = stdout w
  /\ readings (after r) = (readings w + List.length (emitted r))%nat
  /\ List.map timestamp (emitted r) = next_readings w (List.length (emitted r))
  /\ log (after r) = log w ++ List.map (error_record P) (errors r)
  /\ (List.length (emitted r) + List.length (errors r) <= n_items)%nat.

End Outcome.

Module Prices.

(** A float that is zero, a positive number or plus infinity: not
    negative, not minus zero and not a NaN. *)
Definition non_negative (x : pyfloat) : Prop :=
  match x with
  | S754_zero false | S754_infinity false | S754_finite false _ _ => True
  | _ => False
  end.

End Prices.

(* ================================================================== *)
(** * What the table keeps *)
(* ================================================================== *)

Module StoreFacts.
Import DatabaseManager.

(** The columns of the UNIQUE constraint. *)
Definition key_of (r : row) : str * str * datetime :=
  (r_name r, r_website r, r_timestamp r).

Definition product_key (p : Product) : str * str * datetime :=
  (name p, website p, timestamp p).

(** The constraints of the table: no two rows with the same key, no
    two rows with the same rowid. *)
Definition well_keyed (db : table) : Prop :=
  NoDup (List.map key_of db) /\ NoDup (List.map id db).

Definition priced (r : row) : bool :=
  match r_price r with
  | Some _ => true
  | None => false
  end.

End StoreFacts.

(* ================================================================== *)
(** * The interactive program *)
(* ================================================================== *)

(** [main] and the methods that talk to the user, over a session that
    holds the world of the scraper, the table, the input still to be
    read and what went out.  Writing to the terminal and
    [webbrowser.open] are taken to succeed; the database fails where
    sqlite3 turns a parameter or a pattern down, not for reasons of
    its file. *)
Module Console.
Import DatabaseManager.

(** What a read of the terminal meets: a line (without its newline),
    the end of the input, or Ctrl-C while the program waits.  Ctrl-C
    is modelled at the reads only. *)
Inductive answer :=
| Line (s : str)
| EndOfFile
| Interrupt.

(** What can leave a call: an exception of the classes above, the
    [OperationalError] of sqlite3, the [EOFError] of [input], all of
    them instances of [Exception]; and [KeyboardInterrupt], which is
    not. *)
Inductive raised :=
| Error (e : exn)
| OperationalError
| EOFError
| KeyboardInterrupt.

Inductive prompt :=
| EnterChoice
| EnterSearch
| EnterHistoryName
| PressEnter
| SeeTopDeals
| OpenInBrowser.

(** What goes to the terminal besides the lines of [search_products],
    which the world keeps: each [print] by its format and the values
    it shows, [clear_terminal], the prompt of an [input], and the two
    seconds of [time.sleep(2)]. *)
Inductive event :=
| Cleared
| Menu
| Asked (p : prompt)
| Slept
| EnterValidName
| InvalidChoice
| Goodbye
| TerminatedByUser
| ErrorOccurred (e : raised)
| NoProductsLine
| NoValidPricesLine
| ResultsHeader
| ResultEntry (i : nat) (product : Product)
| DealsHeader
| DealEntry (i : nat) (product : Product)
| ErrorDisplayingDeals (e : raised)
| NoHistory (product_name : str)
| HistoryHeader (product_name : str)
| HistoryEntry (entry : str * option pyfloat * datetime * str)
| ErrorDisplayingHistory (e : raised).

(** The state a run of [main] works on: the world of the scraper, the
    [products] table of the database file, the input still to be
    read, what went to the terminal and the URLs handed to
    [webbrowser.open]. *)
Record session := {
  world_of : world;
  table_of : table;
  stdin : list answer;
  terminal : list event;
  opened : list str
}.

Inductive outcome (A : Type) :=
| Done (a : A)
| Raised (r : raised).
Arguments Done {A} a.
Arguments Raised {A} r.

Definition C (A : Type) : Type := session -> outcome A * session.

Definition ret {A : Type} (a : A) : C A := fun s => (Done a, s).

Definition bind {A B : Type} (m : C A) (k : A -> C B) : C B :=
  fun s =>
    match m s with
    | (Done a, s') => k a s'
    | (Raised r, s') => (Raised r, s')
    end.

Declare Scope console_scope.
Delimit Scope console_scope with console.
Notation "x <- m ;; k" := (bind m (fun x => k))
  (at level 61, m at next level, right associativity) : console_scope.
Notation "m ;;; k" := (bind m (fun _ => k))
  (at level 61, right associativity) : console_scope.
Local Open Scope console_scope.

(** [try: m  except Exception as e: h e] *)
Definition try_except {A : Type} (m : C A) (h : raised -> C A) : C A :=
  fun s =>
    match m s with
    | (Done a, s') => (Done a, s')
    | (Raised KeyboardInterrupt, s') => (Raised KeyboardInterrupt, s')
    | (Raised e, s') => h e s'
    end.

(** [print(...)], [clear_terminal()] and [time.sleep(2)]. *)
Definition show (e : event) : C unit :=
  fun s =>
    (Done tt,
     {| world_of := world_of s; table_of := table_of s; stdin := stdin s;
        terminal := terminal s ++ [e]; opened := opened s |}).

Definition clear_terminal : C unit := show Cleared.

Definition sleep : C unit := show Slept.

(** [input(prompt)]: the prompt is written, then a line is read. *)
Definition input (p : prompt) : C str :=
  fun s =>
    let read rest :=
      {| world_of := world_of s; table_of := table_of s; stdin := rest;
         terminal := terminal s ++ [Asked p]; opened := opened s |} in
    match stdin s with
    | [] => (Raised EOFError, read [])
    | Line l :: rest => (Done l, read rest)
    | EndOfFile :: rest => (Raised EOFError, read rest)
    | Interrupt :: rest => (Raised KeyboardInterrupt, read rest)
    end.

(** [webbrowser.open(url)] *)
Definition webbrowser_open (u : str) : C unit :=
  fun s =>
    (Done tt,
     {| world_of := world_of s; table_of := table_of s; stdin := stdin s;
        terminal := terminal s; opened := opened s ++ [u] |}).

(** [for x in l: f x] and [for i, x in enumerate(l, i): f i x] *)
Fixpoint for_each {A : Type} (f : A -> C unit) (l : list A) : C unit :=
  match l with
  | [] => ret tt
  | x :: l' => f x ;;; for_each f l'
  end.

Fixpoint for_each_numbered {A : Type} (f : nat -> A -> C unit) (i : nat)
    (l : list A) : C unit :=
  match l with
  | [] => ret tt
  | x :: l' => f i x ;;; for_each_numbered f (S i) l'
  end.

(** What sqlite3 takes as a parameter: a text it can encode in UTF-8,
    which a lone surrogate prevents, and an integer of 64 bits. *)
Definition surrogate (c : char) : bool :=
  (N.leb 55296 c && N.leb c 57343)%N.

Definition encodable (s : str) : bool := forallb (fun c => negb (surrogate c)) s.

Definition int64 (n : Z) : bool :=
  (- 2 ^ 63 <=? n) && (n <? 2 ^ 63).

(** The parameters of the INSERT, bound in their order: the first one
    that cannot be bound gives the exception. *)
Definition bind_parameters (product : Product) : option exn :=
  if negb (encodable (name product)) then Some UnicodeEncodeError
  else if negb (encodable (website product)) then Some UnicodeEncodeError
  else if negb (encodable (url product)) then Some UnicodeEncodeError
  else if negb (encodable (description product)) then Some UnicodeEncodeError
  else if negb (int64 (num_reviews product)) then Some OverflowError
  else if negb (encodable (availability product)) then Some UnicodeEncodeError
  else None.

(** [self.db.save_product(product)], the call: the early return, then
    the statement with its parameters. *)
Definition db_save_product (product : Product) : C unit :=
  fun s =>
    if negb (truthy (name product)) || is_none (price product)
    then (Done tt, s)
    else
      match bind_parameters product with
      | Some e => (Raised (Error e), s)
      | None =>
          (Done tt,
           {| world_of := world_of s;
              table_of := save_product (table_of s) product;
              stdin := stdin s; terminal := terminal s;
              opened := opened s |})
      end.

(** The length of a text in UTF-8. *)
Definition utf8_length (s : str) : Z :=
  fold_right
    (fun c n =>
       (if (c <? 128)%N then 1
        else if (c <? 2048)%N then 2
        else if (c <? 65536)%N then 3
        else 4) + n)
    0 s.

Definition has_rows (db : table) : bool :=
  match db with
  | [] => false
  | _ :: _ => true
  end.

(** [self.db.get_price_history(product_name)], the call.  The name is
    bound first; SQLite (3.40, default limits) then refuses a LIKE
    pattern of more than 50000 bytes when it comes to match it against
    a row, which it does with the first row, priced or not. *)
Definition db_get_price_history (product_name : str)
  : C (list (str * option pyfloat * datetime * str)) :=
  fun s =>
    if negb (encodable product_name) then (Raised (Error UnicodeEncodeError), s)
    else if (50000 <? utf8_length product_name + 2) && has_rows (table_of s)
    then (Raised OperationalError, s)
    else (Done (get_price_history (table_of s) product_name), s).

(** [tool.search_products(query)], run on the world of the session. *)
Definition search_products (query : str) : C (list Product) :=
  fun s =>
    let r := PriceComparisonTool.search_products PriceComparisonTool.init
               query (world_of s) in
    let s' := {| world_of := snd r; table_of := table_of s; stdin := stdin s;
                 terminal := terminal s; opened := opened s |} in
    match fst r with
    | Ok products => (Done products, s')
    | Raise e => (Raised (Error e), s')
    end.

(** [offer_best_deals] *)
Definition offer_best_deals (products : list Product) : C unit :=
  match products with
  | [] => ret tt
  | _ =>
      try_except
        (choice <- input SeeTopDeals ;;
         if PyStr.eqb (lower choice) (lit "y")
         then
           clear_terminal ;;;
           show DealsHeader ;;;
           for_each_numbered (fun i product => show (DealEntry i product)) 1
             (firstn 5 products) ;;;
           choice <- input OpenInBrowser ;;
           if PyStr.eqb (lower choice) (lit "y")
           then for_each (fun product => webbrowser_open (url product))
                  (firstn 5 products)
           else ret tt
         else ret tt)
        (fun e => show (ErrorDisplayingDeals e))
  end.

(** [display_results], with what it prints and the call it ends on. *)
Definition display_results (products : list Product) : C unit :=
  match PriceComparisonTool.display_results products with
  | PriceComparisonTool.NoProductsFound => show NoProductsLine
  | PriceComparisonTool.NoValidPrices => show NoValidPricesLine
  | PriceComparisonTool.Results sorted_products =>
      show ResultsHeader ;;;
      for_each_numbered (fun i product => show (ResultEntry i product)) 1
        sorted_products ;;;
      offer_best_deals sorted_products
  end.

(** [show_price_history] *)
Definition show_price_history (product_name : str) : C unit :=
  try_except
    (history <- db_get_price_history product_name ;;
     match history with
     | [] => show (NoHistory product_name)
     | _ =>
         show (HistoryHeader product_name) ;;;
         for_each (fun entry => show (HistoryEntry entry)) history
     end)
    (fun e => show (ErrorDisplayingHistory e)).

(** The loop of [main] that stores a search. *)
Definition store_search (products : list Product) : C unit :=
  for_each
    (fun product =>
       if negb (is_none (price product)) then db_save_product product
       else ret tt)
    products.

(** How one turn of the [while True] ends. *)
Inductive control :=
| Continue
| Break.

(** The body of the [try] of one turn. *)
Definition main_body : C control :=
  clear_terminal ;;;
  show Menu ;;;
  choice <- input EnterChoice ;;
  let choice := strip choice in
  if PyStr.eqb choice (lit "1") then
    clear_terminal ;;;
    query <- input EnterSearch ;;
    let query := strip query in
    if negb (truthy query)
    then show EnterValidName ;;; sleep ;;; ret Continue
    else
      products <- search_products query ;;
      display_results products ;;;
      store_search products ;;;
      input PressEnter ;;;
      ret Continue
  else if PyStr.eqb choice (lit "2") then
    clear_terminal ;;;
    product_name <- input EnterHistoryName ;;
    let product_name := strip product_name in
    if negb (truthy product_name)
    then show EnterValidName ;;; sleep ;;; ret Continue
    else
      show_price_history product_name ;;;
      input PressEnter ;;;
      ret Continue
  else if PyStr.eqb choice (lit "3") then
    clear_terminal ;;;
    show Goodbye ;;;
    ret Break
  else
    show InvalidChoice ;;; sleep ;;; ret Continue.

(** One turn: the body and the two handlers. *)
Definition main_turn : C control :=
  fun s =>
    match main_body s with
    | (Done c, s') => (Done c, s')
    | (Raised KeyboardInterrupt, s') =>
        (clear_terminal ;;; show TerminatedByUser ;;; ret Break) s'
    | (Raised e, s') =>
        (show (ErrorOccurred e) ;;; input PressEnter ;;; ret Continue) s'
    end.

(** How [main] ends: it returns, or an exception leaves it. *)
Inductive ending :=
| Returned
| Uncaught (r : raised).

(** The loop, for at most [fuel] turns. *)
Fixpoint main_loop (fuel : nat) (s : session) : option ending * session :=
  match fuel with
  | O => (None, s)
  | S fuel' =>
      match main_turn s with
      | (Done Continue, s') => main_loop fuel' s'
      | (Done Break, s') => (Some Returned, s')
      | (Raised r, s') => (Some (Uncaught r), s')
      end
  end.

(** [main]: the tool is built, which creates the table when the file
    has none, and the loop runs. *)
Definition main (fuel : nat) (file : option table) (w : world)
    (keys : list answer) : option ending * session :=
  main_loop fuel
    {| world_of := w; table_of := setup_database file; stdin := keys;
       terminal := []; opened := [] |}.

(** The product can be stored: it passes the early return of
    [save_product] and its fields can be bound. *)
Definition storable (p : Product) : bool :=
  truthy (name p) && negb (is_none (price p)) && is_none (bind_parameters p).

End Console.

(* ================================================================== *)
(** * Notions for the interactive program *)
(* ================================================================== *)

Module Dialogue.
Import Console.

(** The two prompts of [offer_best_deals] were both answered with a
    line that lowercases to [y]. *)
Definition agreed (products : list Product) (keys : list answer) : bool :=
  match products, keys with
  | _ :: _, Line first :: Line second :: _ =>
      PyStr.eqb (lower first) (lit "y") && PyStr.eqb (lower second) (lit "y")
  | _, _ => false
  end.

(** The lines of a numbered listing. *)
Fixpoint entries (f : nat -> Product -> event) (i : nat) (l : list Product)
  : list event :=
  match l with
  | [] => []
  | p :: l' => f i p :: entries f (S i) l'
  end.

(** A computation keeps a relation between the session it starts in
    and the one it leaves. *)
Definition keeps (R : session -> session -> Prop) {A : Type} (m : C A) : Prop :=
  forall s, R s (snd (m s)).

(** The table is as it was. *)
Definition same_table (s s' : session) : Prop := table_of s' = table_of s.

(** A record the loop that stores a search gets past: one it skips,
    one [save_product] turns away, or one whose fields can be bound. *)
Definition passes (p : Product) : bool :=
  DatabaseManager.is_none (price p) || negb (truthy (name p))
  || DatabaseManager.is_none (bind_parameters p).

(** The input was not refilled, the constraints of the table still
    hold if they held, and every key of the table is still in it. *)
Definition carried (s s' : session) : Prop :=
  (List.length (stdin s') <= List.length (stdin s))%nat
  /\ (StoreFacts.well_keyed (table_of s) -> StoreFacts.well_keyed (table_of s'))
  /\ (forall r, In r (table_of s) ->
        exists r', In r' (table_of s')
                   /\ StoreFacts.key_of r' = StoreFacts.key_of r).

End Dialogue.

Module Stopping.
Import Console.

(** An answer that asks the program to stop: Ctrl-C, or a line that
    is the choice 3 once stripped. *)
Definition asks_to_stop (a : answer) : bool :=
  match a with
  | Interrupt => true
  | Line l => PyStr.eqb (strip l) (lit "3")
  | EndOfFile => false
  end.

(** A computation reads the input from its front, and raises
    [KeyboardInterrupt] only for a Ctrl-C it read. *)
Definition reads_on {A : Type} (m : C A) : Prop :=
  forall s,
    exists read,
      stdin s = read ++ stdin (snd (m s))
      /\ (fst (m s) = Raised KeyboardInterrupt -> In Interrupt read).

(** A computation that does not end the loop. *)
Definition goes_on (m : C control) : Prop :=
  forall s, fst (m s) <> Done Break.

End Stopping.

Module Sessions.
Import Console.

(** A session at the start of [main]: no database file, nothing on
    the terminal yet. *)
Definition fresh (w : world) (keys : list answer) : session :=
  {| world_of := w; table_of := DatabaseManager.setup_database None;
     stdin := keys; terminal := []; opened := [] |}.

(** The search for "laptop bag" in the world that serves the eBay
    page only. *)
Definition bag_search : result (list Product) * world :=
  PriceComparisonTool.search_products PriceComparisonTool.init
    (lit "laptop bag") Samples.ebay_only.

End Sessions.

(* ================================================================== *)
(** * Properties *)
(* ================================================================== *)

(** ** Strings *)

Lemma str_eqb_eq (a b : str) : PyStr.eqb a b = true <-> a = b.
Proof.
  revert b; induction a as [|x a IH]; intros [|y b]; simpl; split;
    try congruence; intros H.
  - apply andb_true_iff in H as [H1 H2].
    apply N.eqb_eq in H1. apply IH in H2. congruence.
  - injection H as -> ->. rewrite N.eqb_refl. simpl. now apply IH.
Qed.

Lemma str_eqb_refl (a : str) : PyStr.eqb a a = true.
Proof. now apply str_eqb_eq. Qed.

Lemma str_eqb_neq (a b : str) : PyStr.eqb a b = false <-> a <> b.
Proof.
  split.
  - intros H E. apply str_eqb_eq in E. congruence.
  - intros H. destruct (PyStr.eqb a b) eqn:E; [|reflexivity].
    apply str_eqb_eq in E. contradiction.
Qed.

(** ** Stable sorting *)

Section StableSortFacts.
Variable A : Type.
Variable lt : A -> A -> bool.

Lemma insert_sorted_perm (x : A) (l : list A) :
  Permutation (x :: l) (insert_sorted lt x l).
Proof.
  induction l as [|y l IH]; simpl; [reflexivity|].
  destruct (lt y x); [|reflexivity].
  rewrite perm_swap. now constructor.
Qed.

Lemma stable_sort_perm (l : list A) : Permutation l (stable_sort lt l).
Proof.
  induction l as [|x l IH]; simpl; [constructor|].
  rewrite <- insert_sorted_perm. now constructor.
Qed.

(** The output is in order for any relation [le] that [lt] decides on
    the elements present. *)
Variable le : A -> A -> Prop.
Variable ok : A -> Prop.
Hypothesis lt_le : forall a b, ok a -> ok b -> lt a b = true -> le a b.
Hypothesis not_lt_le : forall a b, ok a -> ok b -> lt a b = false -> le b a.

Lemma insert_sorted_hd (x a : A) (l : list A) :
  ok x -> ok a -> Forall ok l ->
  le a x -> HdRel le a l -> HdRel le a (insert_sorted lt x l).
Proof.
  intros Hx Ha Hl Hax Hhd. destruct l as [|y l]; simpl.
  - now constructor.
  - destruct (lt y x); constructor; [now inversion Hhd | assumption].
Qed.

Lemma insert_sorted_sorted (x : A) (l : list A) :
  ok x -> Forall ok l -> Sorted le l -> Sorted le (insert_sorted lt x l).
Proof.
  intros Hx Hl Hs. induction Hs as [|y l Hs IH Hhd]; simpl.
  - repeat constructor.
  - inversion Hl as [|? ? Hy Hl']; subst.
    destruct (lt y x) eqn:E.
    + constructor; [now apply IH|].
      apply insert_sorted_hd; auto.
    + constructor; [now constructor|].
      constructor. now apply not_lt_le.
Qed.

Lemma insert_sorted_ok (x : A) (l : list A) :
  ok x -> Forall ok l -> Forall ok (insert_sorted lt x l).
Proof.
  intros Hx Hl. induction Hl as [|y l Hy Hl IH]; simpl.
  - now repeat constructor.
  - destruct (lt y x); repeat constructor; auto.
Qed.

Lemma stable_sort_ok (l : list A) : Forall ok l -> Forall ok (stable_sort lt l).
Proof.
  induction 1 as [|x l Hx Hl IH]; simpl; [constructor|].
  now apply insert_sorted_ok.
Qed.

Lemma stable_sort_sorted (l : list A) :
  Forall ok l -> Sorted le (stable_sort lt l).
Proof.
  induction 1 as [|x l Hx Hl IH]; simpl; [constructor|].
  apply insert_sorted_sorted; auto using stable_sort_ok.
Qed.
End StableSortFacts.

(** ** The price history store *)

Section Store.
Import DatabaseManager Console.

Lemma filter_twice (A : Type) (f : A -> bool) (l : list A) :
  filter f (filter f l) = filter f l.
Proof.
  induction l as [|x l IH]; simpl; [reflexivity|].
  destruct (f x) eqn:E; simpl; [rewrite E|]; congruence.
Qed.

Lemma filter_complement (A : Type) (f : A -> bool) (l : list A) :
  filter f (filter (fun x => negb (f x)) l) = [].
Proof.
  induction l as [|x l IH]; simpl; [reflexivity|].
  destruct (f x) eqn:E; simpl; [|rewrite E]; assumption.
Qed.

Lemma same_key_row_of_product (i : Z) (p : Product) :
  same_key (name p) (website p) (timestamp p) (row_of_product i p) = true.
Proof.
  unfold same_key; simpl. now rewrite !str_eqb_refl, N.eqb_refl.
Qed.

Lemma save_product_valid (db : table) (p : Product) :
  truthy (name p) = true -> price p <> None ->
  save_product db p =
    filter (fun r => negb (same_key (name p) (website p) (timestamp p) r)) db
    ++ [row_of_product (next_id db) p].
Proof.
  intros Hn Hp. unfold save_product. rewrite Hn.
  destruct (price p); [reflexivity | contradiction].
Qed.

(** C3, amended.  [save_product] returns without touching the table
    when the name is empty or the price is [None].  For a record with
    a name and a price it raises, and stores nothing, when sqlite3
    cannot bind one of its fields.  Otherwise it is an upsert on
    (name, website, timestamp): after two saves with the same key the
    table holds exactly one row with that key, it is the row of the
    second record, and the rows with other keys are the ones that
    were there; nothing but the table changes. *)
Theorem save_product_upsert (s : session) (p q : Product) :
  (truthy (name p) = false \/ price p = None ->
   db_save_product p s = (Done tt, s))
  /\ (truthy (name p) = true -> price p <> None ->
      forall e, bind_parameters p = Some e ->
        db_save_product p s = (Raised (Error e), s))
  /\ (truthy (name p) = true -> price p <> None ->
      bind_parameters p = None ->
      truthy (name q) = true -> price q <> None ->
      bind_parameters q = None ->
      name q = name p -> website q = website p -> timestamp q = timestamp p ->
      let key := same_key (name q) (website q) (timestamp q) in
      exists once twice,
        db_save_product p s
        = (Done tt,
           {| world_of := world_of s; table_of := once; stdin := stdin s;
              terminal := terminal s; opened := opened s |})
        /\ db_save_product q
             {| world_of := world_of s; table_of := once; stdin := stdin s;
                terminal := terminal s; opened := opened s |}
           = (Done tt,
              {| world_of := world_of s; table_of := twice; stdin := stdin s;
                 terminal := terminal s; opened := opened s |})
        /\ filter key twice = [row_of_product (next_id once) q]
        /\ filter (fun r => negb (key r)) twice
           = filter (fun r => negb (key r)) (table_of s)).
Proof.
  split; [|split].
  - intros [H | H]; unfold db_save_product; rewrite H; [reflexivity|].
    simpl. now rewrite orb_true_r.
  - intros Hn Hp e He. unfold db_save_product. rewrite Hn, He.
    destruct (price p); [reflexivity | contradiction].
  - intros Hpn Hpp Hpb Hqn Hqp Hqb En Ew Et key.
    exists (save_product (table_of s) p),
           (save_product (save_product (table_of s) p) q).
    split; [|split].
    + unfold db_save_product. rewrite Hpn, Hpb.
      destruct (price p); [reflexivity | contradiction].
    + unfold db_save_product. rewrite Hqn, Hqb.
      destruct (price q); [reflexivity | contradiction].
    + rewrite (save_product_valid _ q Hqn Hqp).
      rewrite (save_product_valid (table_of s) p Hpn Hpp).
      rewrite <- En, <- Ew, <- Et. fold key.
      set (rq := row_of_product _ q).
      set (rp := row_of_product _ p).
      assert (Kq : key rq = true) by apply same_key_row_of_product.
      assert (Kp : key rp = true).
      { subst key rp. rewrite En, Ew, Et. apply same_key_row_of_product. }
      rewrite !filter_app. simpl. rewrite Kq, Kp. simpl.
      rewrite filter_complement, !filter_twice. simpl.
      now rewrite !app_nil_r.
Qed.

Lemma save_product_upsert_witness :
  let s := {| world_of := Samples.offline;
              table_of := save_product [] Samples.case_5;
              stdin := []; terminal := []; opened := [] |} in
  db_save_product Samples.unpriced s = (Done tt, s)
  /\ exists once twice,
       fst (db_save_product Samples.phone_9 s) = Done tt
       /\ table_of (snd (db_save_product Samples.phone_9 s)) = once
       /\ table_of
            (snd (db_save_product Samples.phone_7
                    (snd (db_save_product Samples.phone_9 s)))) = twice
       /\ List.map (fun r => (id r, r_price r, r_url r, r_availability r))
            (filter (same_key (name Samples.phone_7) (website Samples.phone_7)
                       (timestamp Samples.phone_7)) twice)
          = [(3, Some (Samples.float_lit "7.50"),
              lit "https://example.com/other", lit "Used")]
       /\ List.length twice = 2%nat.
Proof.
  intros s.
  pose proof (save_product_upsert s Samples.unpriced Samples.unpriced)
    as [N _].
  pose proof (save_product_upsert s Samples.phone_9 Samples.phone_7)
    as (_ & _ & U).
  split; [apply N; right; reflexivity|].
  destruct U as (once & twice & E1 & E2 & K & _);
    try reflexivity; try discriminate.
  exists once, twice. rewrite E1. cbn [fst snd table_of].
  split; [reflexivity|]. split; [reflexivity|].
  rewrite E2. cbn [snd table_of]. split; [reflexivity|].
  split.
  - rewrite K.
    assert (O : once = save_product (save_product [] Samples.case_5)
                         Samples.phone_9).
    { pose proof (f_equal (fun r => table_of (snd r)) E1) as F.
      cbn [snd table_of] in F. symmetry. exact F. }
    rewrite O. reflexivity.
  - assert (T : twice
                = save_product
                    (save_product (save_product [] Samples.case_5)
                       Samples.phone_9) Samples.phone_7).
    { pose proof (f_equal (fun r => table_of (snd r)) E1) as F1.
      cbn [snd table_of] in F1.
      pose proof (f_equal (fun r => table_of (snd r)) E2) as F2.
      cbn [snd table_of] in F2. rewrite <- F2, <- F1. reflexivity. }
    rewrite T. reflexivity.
Defined.

(** C3 as worded fails: a record with a name, a price and a review
    count beyond 64 bits is not upserted; the call raises
    [OverflowError] and the table is as it was. *)
Lemma save_product_overflow :
  let p := {| name := lit "iPhone"; price := Some (Samples.float_lit "9.99");
              website := lit "Amazon";
              url := lit "https://www.amazon.com/dp/B01";
              timestamp := 100%N; description := [];
              rating := Samples.float_lit "4.5";
              num_reviews := 99999999999999999999;
              availability := [] |} in
  let s := {| world_of := Samples.offline; table_of := [];
              stdin := []; terminal := []; opened := [] |} in
  truthy (name p) = true /\ price p <> None
  /\ db_save_product p s = (Raised (Error OverflowError), s).
Proof. intros p s. split; [reflexivity|]. split; [discriminate|reflexivity]. Qed.

End Store.

(** ** Price history *)

Section History.
Import DatabaseManager Console.

Import Spec Parts.

Lemma like_percent (pat s : str) :
  like (percent :: pat) s
  = like pat s || match s with
                  | [] => false
                  | _ :: s' => like (percent :: pat) s'
                  end.
Proof. destruct s; reflexivity. Qed.

Lemma like_plain (c : char) (pat s : str) :
  N.eqb c percent = false ->
  like (c :: pat) s
  = match s with
    | [] => false
    | d :: s' =>
        (N.eqb c underscore || N.eqb (sql_fold c) (sql_fold d)) && like pat s'
    end.
Proof. intros H. simpl. now rewrite H. Qed.

Lemma like_percent_only (s : str) : like [percent] s = true.
Proof.
  induction s as [|d s IH]; [reflexivity|].
  rewrite like_percent, IH. apply orb_true_r.
Qed.




Lemma Sorted_map (A B : Type) (f : A -> B) (R : A -> A -> Prop)
    (R' : B -> B -> Prop) (l : list A) :
  (forall a b, R a b -> R' (f a) (f b)) ->
  Sorted R l -> Sorted R' (List.map f l).
Proof.
  intros HR. induction 1 as [|a l Hs IH Hhd]; simpl; constructor; auto.
  destruct Hhd; simpl; constructor; auto.
Qed.




End History.

(** ** Ranking *)

Section Ranking.
Import PriceComparisonTool Spec Parts.

Lemma compare_cont_antisym (m m' : positive) :
  PosDef.Pos.compare_cont Eq m m'
  = CompOpp (PosDef.Pos.compare_cont Eq m' m).
Proof. exact (Pos.compare_antisym m' m). Qed.

Lemma SFcompare_antisym (a b : pyfloat) :
  SFcompare a b = option_map CompOpp (SFcompare b a).
Proof.
  destruct a as [s| s | |s m e], b as [s'|s'| |s' m' e']; simpl;
    try reflexivity; try (destruct s; reflexivity);
    try (destruct s'; reflexivity);
    try (destruct s, s'; reflexivity).
  destruct s, s'; try reflexivity; rewrite (Z.compare_antisym e e');
    destruct (e ?= e') eqn:E; simpl; try reflexivity;
    rewrite (compare_cont_antisym m m'); reflexivity.
Qed.

Lemma flt_fle (a b : pyfloat) : flt a b = true -> fle a b = true.
Proof.
  unfold flt, fle, SFltb, SFleb.
  destruct (SFcompare a b) as [[]|]; congruence.
Qed.

Lemma not_flt_fle (a b : pyfloat) :
  is_nan a = false -> is_nan b = false -> flt a b = false -> fle b a = true.
Proof.
  unfold flt, fle, SFltb, SFleb. intros Ha Hb.
  rewrite (SFcompare_antisym b a).
  destruct (SFcompare a b) as [[]|] eqn:E; simpl; try congruence.
  destruct a, b; simpl in *; try discriminate;
    repeat match goal with s : bool |- _ => destruct s end; discriminate.
Qed.

(** [valid_products] keeps the records with a price and drops exactly
    the ones without. *)
Lemma valid_products_spec (products : list Product) (p : Product) :
  In p (valid_products products) <-> In p products /\ price p <> None.
Proof.
  unfold valid_products. rewrite filter_In.
  destruct (price p); simpl; intuition congruence.
Qed.

Lemma nan_key (p : Product) : ranks_as_itself p -> is_nan (sort_key p) = false.
Proof.
  intros (x & E & T & N). unfold sort_key. now rewrite E, T.
Qed.

Lemma known_prices_keys (l : list Product) :
  Forall ranks_as_itself l -> known_prices l = List.map sort_key l.
Proof.
  induction 1 as [|p l (x & E & T & N) Hl IH]; simpl; [reflexivity|].
  unfold sort_key at 1. rewrite E, T. simpl. now rewrite <- IH.
Qed.

(** When no price is zero or a NaN, the ranking of [display_results]
    shows prices that never go down. *)
Lemma sorted_products_non_decreasing (valid : list Product) :
  Forall ranks_as_itself valid ->
  non_decreasing (known_prices (sorted_products valid)).
Proof.
  intros H. unfold non_decreasing, sorted_products.
  rewrite known_prices_keys by now apply stable_sort_ok.
  apply Sorted_map with (R := fun a b => fle (sort_key a) (sort_key b) = true);
    [auto|].
  apply stable_sort_sorted with (ok := ranks_as_itself); [| |assumption].
  - intros a b _ _. apply flt_fle.
  - intros a b Ha Hb. apply not_flt_fle; now apply nan_key.
Qed.

(** C7 at a zero price.  ["$0.00"] is read as the price zero; the sort
    key [x.price or float('inf')] ranks that record as if it had no
    price, so it is shown after the five-dollar one and the prices
    shown go down. *)
Theorem display_results_zero_price_last :
  WebScraper._extract_price (lit "$0.00") = Ok (price Samples.free_item)
  /\ display_results [Samples.free_item; Samples.unpriced; Samples.case_5]
     = Results [Samples.case_5; Samples.free_item]
  /\ known_prices [Samples.case_5; Samples.free_item]
     = [Samples.float_lit "5.00"; S754_zero false]
  /\ ~ non_decreasing [Samples.float_lit "5.00"; S754_zero false].
Proof.
  repeat split; try reflexivity.
  intros H. inversion H as [|? ? _ Hhd]; subst.
  inversion Hhd as [|? ? E]; subst. vm_compute in E. discriminate.
Qed.

End Ranking.

(** ** The price of a Product *)

Section PostInit.
Import PriceComparisonTool DatabaseManager.

Lemma float_of_str_raises (s : str) (e : exn) :
  float_of_str s = Raise e -> e = ValueError.
Proof.
  unfold float_of_str.
  destruct (underscores_ok _ _); [|congruence].
  destruct (parse_decimal _) as [[x [|c r]]|]; try congruence.
  destruct (parse_inf_or_nan _) as [[x [|c r]]|]; congruence.
Qed.

Lemma float_of_int_raises (n : Z) (e : exn) :
  float_of_int n = Raise e -> e = OverflowError.
Proof.
  unfold float_of_int.
  destruct (binary_normalize _ _ _ _ _); congruence.
Qed.

Lemma float_raises (v : pyval) (e : exn) :
  float_ v = Raise e ->
  e = ValueError \/ e = TypeError \/ e = OverflowError.
Proof.
  destruct v as [|b|n|x|s|]; simpl; intros H; try (injection H as <-; tauto);
    try discriminate.
  - apply float_of_int_raises in H. tauto.
  - apply float_of_int_raises in H. tauto.
  - apply float_of_str_raises in H. tauto.
Qed.

(** A price the scrapers computed goes through [__post_init__] as it is. *)
Lemma post_init_of_optional (p : option pyfloat) :
  __post_init__ (of_optional p) = Ok p.
Proof. now destruct p. Qed.

(** C10, amended.  [__post_init__] leaves in [price] the float that
    [float(price)] gives, or [None] when the price was [None] or the
    conversion raised [ValueError] or [TypeError]; the one other way a
    conversion fails, the [OverflowError] of an [int] beyond the float
    range, leaves the constructor and no Product is built.  A record
    that is ranked or stored has a float for its price. *)
Theorem post_init_price (v : pyval) :
  match __post_init__ v with
  | Ok (Some x) => float_ v = Ok x
  | Ok None =>
      v = PyNone \/ float_ v = Raise ValueError \/ float_ v = Raise TypeError
  | Raise e =>
      e = OverflowError /\ exists n, v = PyInt n /\ float_ v = Raise OverflowError
  end
  /\ (forall products p,
        In p (valid_products products) -> exists x, price p = Some x)
  /\ (forall db p, save_product db p <> db -> exists x, price p = Some x).
Proof.
  split; [|split].
  - destruct v as [|b|n|x|s|]; simpl; auto.
    + destruct b; simpl; auto.
    + destruct (float_of_int n) as [x|e] eqn:E; [reflexivity|].
      pose proof (float_of_int_raises _ E) as ->. eauto.
    + destruct (float_of_str s) as [x|e] eqn:E; [reflexivity|].
      pose proof (float_of_str_raises _ E) as ->. auto.
  - intros products p H. apply valid_products_spec in H as [_ H].
    destruct (price p) as [x|]; [eauto | contradiction].
  - intros db p H. unfold save_product in H.
    destruct (price p) as [x|]; [eauto|].
    rewrite orb_true_r in H. contradiction.
Qed.

Lemma post_init_price_witness :
  __post_init__ (PyStr (lit "N/A")) = Ok None
  /\ float_ (PyStr (lit "N/A")) = Raise ValueError
  /\ exists x, price Samples.case_5 = Some x.
Proof.
  pose proof (post_init_price (PyStr (lit "N/A"))) as (C & R & _).
  assert (E : __post_init__ (PyStr (lit "N/A")) = Ok None) by reflexivity.
  rewrite E in C. split; [exact E|]. split.
  - destruct C as [C | [C | C]]; [discriminate | exact C | discriminate].
  - apply (R [Samples.unpriced; Samples.case_5]). simpl. left. reflexivity.
Defined.

(** C10 as worded fails at an [int] that is too large: the conversion
    fails and the price is not replaced by [None]; the constructor
    raises. *)
Lemma post_init_overflow :
  float_ (PyInt (10 ^ 400)) = Raise OverflowError
  /\ __post_init__ (PyInt (10 ^ 400)) <> Ok None
  /\ Product_init (lit "Laptop") (PyInt (10 ^ 400)) (lit "Amazon")
       (lit "https://www.amazon.com/dp/B01") 0%N [] (S754_zero false) 0 []
     = Raise OverflowError.
Proof.
  assert (E : float_ (PyInt (10 ^ 400)) = Raise OverflowError)
    by (vm_compute; reflexivity).
  split; [exact E|].
  unfold Product_init, __post_init__. rewrite E. split; [discriminate|reflexivity].
Qed.

End PostInit.

(** ** The monad *)

Lemma bind_lift (A B : Type) (r : result A) (k : A -> M B) (w : world) :
  bind (lift r) k w
  = match r with
    | Ok a => k a w
    | Raise e => (Raise e, w)
    end.
Proof. now destruct r. Qed.

Lemma bind_ret (A B : Type) (a : A) (k : A -> M B) (w : world) :
  bind (ret a) k w = k a w.
Proof. reflexivity. Qed.

(** ** Fetching *)

Section Fetching.
Import WebScraper Spec Parts.

(** What [get_soup] comes back with, case by case: it never raises. *)
Lemma get_soup_outcome (url : str) (w : world) :
  get_soup url w
  = match network w (requests w) url with
    | Failed why =>
        (Ok None,
         logged (ErrorFetching url (RequestException why)) (requested url w))
    | Response status_code content =>
        if (400 <=? status_code) && (status_code <? 600)
        then (Ok None,
              logged (ErrorFetching url (RequestException (HTTPError status_code)))
                (requested url w))
        else (Ok (Some content), requested url w)
    end.
Proof.
  unfold get_soup, try_except, bind, requested, session_get.
  destruct (network w (requests w) url) as [why|st content]; simpl;
    [reflexivity|].
  unfold raise_for_status. destruct ((400 <=? st) && (st <? 600)); reflexivity.
Qed.

Lemma get_soup_total (url : str) (w : world) :
  exists d w', get_soup url w = (Ok d, w').
Proof.
  rewrite get_soup_outcome.
  destruct (network w (requests w) url) as [why|st content]; [eauto|].
  destruct ((400 <=? st) && (st <? 600)); eauto.
Qed.

Lemma scrape_site_no_document (url site_name : str) (w : world) :
  fst (get_soup url w) = Ok None ->
  scrape_site url site_name w = (Ok [], snd (get_soup url w)).
Proof.
  unfold scrape_site, bind.
  destruct (get_soup url w) as [[d|e] w']; simpl; intros H;
    [|discriminate].
  now injection H as ->.
Qed.

(** C9.  [scrape_site] returns the empty list for a site name other
    than 'amazon' and 'ebay', and whenever [get_soup] has no document;
    in neither case does it raise. *)
Theorem scrape_site_empty (url site_name : str) (w : world) :
  (site_name <> lit "amazon" -> site_name <> lit "ebay" ->
   fst (scrape_site url site_name w) = Ok [])
  /\ (fst (get_soup url w) = Ok None ->
      scrape_site url site_name w = (Ok [], snd (get_soup url w))).
Proof.
  split.
  - intros Ha He. apply str_eqb_neq in Ha, He.
    unfold scrape_site, bind.
    destruct (get_soup_total url w) as ([doc|] & w' & E); rewrite E;
      [|reflexivity].
    now rewrite Ha, He.
  - apply scrape_site_no_document.
Qed.

Lemma scrape_site_empty_witness :
  lit "walmart" <> lit "amazon" /\ lit "walmart" <> lit "ebay"
  /\ fst (scrape_site (lit "https://www.walmart.com/search?q=tv")
            (lit "walmart") Samples.ebay_only) = Ok []
  /\ fst (get_soup (lit "https://www.amazon.com/s?k=tv") Samples.offline) = Ok None
  /\ fst (scrape_site (lit "https://www.amazon.com/s?k=tv")
            (lit "amazon") Samples.offline) = Ok [].
Proof.
  assert (Na : lit "walmart" <> lit "amazon") by discriminate.
  assert (Ne : lit "walmart" <> lit "ebay") by discriminate.
  assert (G : fst (get_soup (lit "https://www.amazon.com/s?k=tv") Samples.offline)
              = Ok None) by reflexivity.
  split; [exact Na|]. split; [exact Ne|]. split; [|split; [exact G|]].
  - apply (scrape_site_empty (lit "https://www.walmart.com/search?q=tv")
             (lit "walmart") Samples.ebay_only); assumption.
  - rewrite (proj2 (scrape_site_empty (lit "https://www.amazon.com/s?k=tv")
                      (lit "amazon") Samples.offline) G).
    reflexivity.
Defined.

End Fetching.

(** ** Per-item isolation in the site parsers *)

Section PerItem.
Import Soup WebScraper Spec Parts.

Variable P : site_parser.
Variable base_url : str.

Let loop := for_each_item (item_body P base_url) (on_error P).

Lemma loop_step (item : element) (rest : list element)
    (acc : list Product) (w : world) :
  loop (item :: rest) acc w
  = match item_body P base_url item w with
    | (Ok (Some p), w') => loop rest (acc ++ [p]) w'
    | (Ok None, w') => loop rest acc w'
    | (Raise e, w') => loop rest acc (logged (error_record P e) w')
    end.
Proof.
  unfold loop. simpl. unfold bind at 1, try_except.
  destruct (item_body P base_url item w) as [[[p|]|e] w']; reflexivity.
Qed.

Lemma loop_total (l : list element) (acc : list Product) (w : world) :
  exists ps w', loop l acc w = (Ok (acc ++ ps), w').
Proof.
  revert acc w. induction l as [|item rest IH]; intros acc w.
  - exists [], w. now rewrite app_nil_r.
  - rewrite loop_step.
    destruct (item_body P base_url item w) as [[[p|]|e] w'].
    + destruct (IH (acc ++ [p]) w') as (ps & w'' & E).
      exists (p :: ps), w''. rewrite E. now rewrite <- app_assoc.
    + apply IH.
    + apply IH.
Qed.

Lemma loop_app (xs ys : list element) (acc : list Product) (w : world) :
  loop (xs ++ ys) acc w
  = match loop xs acc w with
    | (Ok acc', w') => loop ys acc' w'
    | (Raise e, w') => (Raise e, w')
    end.
Proof.
  revert acc w. induction xs as [|item rest IH]; intros acc w.
  - simpl app. unfold loop at 2. simpl. reflexivity.
  - simpl app. rewrite !loop_step.
    destruct (item_body P base_url item w) as [[[p|]|e] w']; apply IH.
Qed.

Lemma loop_acc (l : list element) (acc : list Product) (w : world) :
  exists ps w',
    loop l [] w = (Ok ps, w') /\ loop l acc w = (Ok (acc ++ ps), w').
Proof.
  revert acc w. induction l as [|item rest IH]; intros acc w.
  - exists [], w. unfold loop. simpl. now rewrite app_nil_r.
  - rewrite !loop_step.
    destruct (item_body P base_url item w) as [[[p|]|e] w']; try apply IH.
    destruct (IH [p] w') as (ps & w1 & E0 & E1).
    destruct (IH (acc ++ [p]) w') as (ps' & w2 & E0' & E2).
    rewrite E0 in E0'. injection E0' as <- <-.
    exists (p :: ps), w1. split.
    + simpl app. exact E1.
    + rewrite E2. now rewrite <- app_assoc.
Qed.

(** Records come out in the order of the items: those of an earlier
    part of the selection before those of a later part. *)
Lemma loop_in_order (xs ys : list element) (w : world) :
  exists ps w1 qs w2,
    loop xs [] w = (Ok ps, w1)
    /\ loop ys [] w1 = (Ok qs, w2)
    /\ loop (xs ++ ys) [] w = (Ok (ps ++ qs), w2).
Proof.
  destruct (loop_acc xs [] w) as (ps & w1 & E1 & _).
  destruct (loop_acc ys ps w1) as (qs & w2 & E2 & E3).
  exists ps, w1, qs, w2. repeat split; try assumption.
  now rewrite loop_app, E1.
Qed.

End PerItem.

Section SiteParsers.
Import Soup WebScraper Spec Parts.

Lemma parse_is_loop (P : site_parser) (doc : soup) (base_url : str) :
  P = amazon_parser \/ P = ebay_parser ->
  parse P (Some doc) base_url
  = for_each_item (item_body P base_url) (on_error P)
      (select_all (items P) doc) [].
Proof. intros [-> | ->]; reflexivity. Qed.

Lemma nameless_item_skipped (P : site_parser) (base_url : str)
    (item : element) (w : world) :
  P = amazon_parser \/ P = ebay_parser ->
  select_one (name_element P) item = None ->
  item_body P base_url item w = (Ok None, w).
Proof.
  intros [-> | ->]; simpl; intros H;
    [unfold amazon_item | unfold ebay_item]; now rewrite H.
Qed.

End SiteParsers.

(** ** What an item becomes *)

Section Items.
Import Soup WebScraper Spec Parts.

Lemma extract_price_total (price_text : str) :
  exists o, _extract_price price_text = Ok o.
Proof.
  unfold _extract_price. destruct (negb (truthy price_text)); [eauto|].
  destruct (float_of_str _) as [x|e] eqn:E; [eauto|].
  apply float_of_str_raises in E as ->. eauto.
Qed.

Lemma optional_price_total (price_elem : option element) :
  exists o,
    match price_elem with
    | Some e => _extract_price (text e)
    | None => Ok None
    end = Ok o.
Proof. destruct price_elem; [apply extract_price_total | eauto]. Qed.

Lemma Product_init_of_optional (n : str) (p : option pyfloat) (s u : str)
    (t : datetime) (d : str) (r : pyfloat) (k : Z) (a : str) :
  Product_init n (of_optional p) s u t d r k a
  = Ok {| name := n; price := p; website := s; url := u; timestamp := t;
          description := d; rating := r; num_reviews := k;
          availability := a |}.
Proof. unfold Product_init. now rewrite post_init_of_optional. Qed.

(** [amazon_item], stage by stage. *)
Lemma amazon_item_equation (base_url : str) (item : element) (w : world) :
  amazon_item base_url item w
  = match select_one amazon_name item with
    | None => (Ok None, w)
    | Some name_elem =>
        match
          match select_one amazon_price item with
          | Some e => _extract_price (text e)
          | None => Ok None
          end,
          match select_one amazon_rating item with
          | Some e => rating_value (text e)
          | None => Ok zero
          end,
          match select_one amazon_reviews item with
          | Some e => reviews_value (text e)
          | None => Ok 0
          end
        with
        | Raise x, _, _ => (Raise x, w)
        | Ok _, Raise x, _ => (Raise x, w)
        | Ok _, Ok _, Raise x => (Raise x, w)
        | Ok p, Ok r, Ok n =>
            let u :=
              match link_href amazon_link item with
              | Some href => lit "https://www.amazon.com" ++ href
              | None => base_url
              end in
            if truthy (strip (text name_elem)) && truthy u
            then (Ok (Some {| name := strip (text name_elem); price := p;
                              website := lit "Amazon"; url := u;
                              timestamp := clock w (readings w);
                              description := []; rating := r;
                              num_reviews := n; availability := [] |}),
                  clock_read w)
            else (Ok None, w)
        end
    end.
Proof.
  unfold amazon_item.
  destruct (select_one amazon_name item) as [name_elem|]; [|reflexivity].
  rewrite bind_lift.
  destruct (match select_one amazon_price item with
            | Some e => _extract_price (text e) | None => Ok None end)
    as [p|x]; [|reflexivity].
  rewrite bind_lift.
  destruct (match select_one amazon_rating item with
            | Some e => rating_value (text e) | None => Ok zero end)
    as [r|x]; [|reflexivity].
  rewrite bind_lift.
  destruct (match select_one amazon_reviews item with
            | Some e => reviews_value (text e) | None => Ok 0 end)
    as [n|x]; [|reflexivity].
  cbv zeta.
  destruct (truthy (strip (text name_elem)) && truthy _); [|reflexivity].
  unfold bind at 1, now. rewrite bind_lift, Product_init_of_optional.
  reflexivity.
Qed.

(** [ebay_item], stage by stage. *)
Lemma ebay_item_equation (base_url : str) (item : element) (w : world) :
  ebay_item base_url item w
  = match select_one ebay_name item with
    | None => (Ok None, w)
    | Some name_elem =>
        if PyStr.eqb (lower (strip (text name_elem))) (lit "shop on ebay")
        then (Ok None, w)
        else
          match
            match select_one ebay_price item with
            | Some e => _extract_price (text e)
            | None => Ok None
            end
          with
          | Raise x => (Raise x, w)
          | Ok p =>
              let u :=
                match link_href ebay_link item with
                | Some href => href
                | None => base_url
                end in
              if truthy (strip (text name_elem)) && truthy u
              then (Ok (Some {| name := strip (text name_elem); price := p;
                                website := lit "eBay"; url := u;
                                timestamp := clock w (readings w);
                                description := []; rating := zero;
                                num_reviews := 0;
                                availability :=
                                  match select_one ebay_condition item with
                                  | Some e => strip (text e)
                                  | None => []
                                  end |}),
                    clock_read w)
              else (Ok None, w)
          end
    end.
Proof.
  unfold ebay_item.
  destruct (select_one ebay_name item) as [name_elem|]; [|reflexivity].
  destruct (PyStr.eqb _ _); [reflexivity|].
  rewrite bind_lift.
  destruct (match select_one ebay_price item with
            | Some e => _extract_price (text e) | None => Ok None end)
    as [p|x]; [|reflexivity].
  cbv zeta.
  destruct (truthy (strip (text name_elem)) && truthy _); [|reflexivity].
  unfold bind at 1, now. rewrite bind_lift, Product_init_of_optional.
  reflexivity.
Qed.

End Items.

Section Isolation.
Import Soup WebScraper Spec Parts Sites.

Lemma well_formed_emits (S : site) (base_url : str) (item : element)
    (w : world) :
  well_formed S base_url item = true ->
  exists p,
    item_body (parser_of S) base_url item w = (Ok (Some p), clock_read w).
Proof.
  unfold well_formed. destruct S.
  - change (name_element (parser_of Amazon)) with amazon_name.
    change (item_body (parser_of Amazon)) with amazon_item.
    unfold url_of. rewrite amazon_item_equation.
    destruct (select_one amazon_name item) as [name_elem|]; [|discriminate].
    intros H. apply andb_true_iff in H as [H Hn].
    apply andb_true_iff in H as [Ht Hu].
    apply andb_true_iff in Hn as [Hr Hc].
    destruct (optional_price_total (select_one amazon_price item)) as [o ->].
    destruct (match select_one amazon_rating item with
              | Some e => rating_value (text e) | None => Ok zero end)
      as [r|x] eqn:Er.
    2:{ destruct (select_one amazon_rating item); [|discriminate].
        rewrite Er in Hr. discriminate. }
    destruct (match select_one amazon_reviews item with
              | Some e => reviews_value (text e) | None => Ok 0 end)
      as [n|x] eqn:En.
    2:{ destruct (select_one amazon_reviews item); [|discriminate].
        rewrite En in Hc. discriminate. }
    cbv zeta. eexists. rewrite Ht. cbn [andb].
    match goal with
    | |- context [if truthy ?x then _ else _] =>
        assert (Hx : truthy x = true) by exact Hu; rewrite Hx
    end.
    reflexivity.
  - change (name_element (parser_of Ebay)) with ebay_name.
    change (item_body (parser_of Ebay)) with ebay_item.
    unfold url_of. rewrite ebay_item_equation.
    destruct (select_one ebay_name item) as [name_elem|]; [|discriminate].
    intros H. apply andb_true_iff in H as [H Hs].
    apply andb_true_iff in H as [Ht Hu].
    apply negb_true_iff in Hs. rewrite Hs.
    destruct (optional_price_total (select_one ebay_price item)) as [o ->].
    cbv zeta. eexists. rewrite Ht. cbn [andb].
    match goal with
    | |- context [if truthy ?x then _ else _] =>
        assert (Hx : truthy x = true) by exact Hu; rewrite Hx
    end.
    reflexivity.
Qed.

Lemma parser_of_cases (S : site) :
  parser_of S = amazon_parser \/ parser_of S = ebay_parser.
Proof. destruct S; [now left | now right]. Qed.

(** C1.  Each site parser runs its item body on the selected items in
    turn: an item that emits a record appends it, an item without a
    name element is skipped, and an item whose body raises is skipped
    with one record sent to the logger, the items after it being
    processed as before.  The parser never raises and returns the
    empty list when no item is selected.  A well-formed item emits a
    record, so a document with one well-formed item and one item
    without a name element yields exactly that one record, in either
    order, and nothing is logged; with an item whose body raises
    before a well-formed one, it yields the record of the well-formed
    one and the logger gets the one record of the exception. *)
Theorem site_parser_isolation (S : site) (doc : soup) (base_url : str) :
  let P := parser_of S in
  let loop := for_each_item (item_body P base_url) (on_error P) in
  (forall w, parse P (Some doc) base_url w = loop (select_all (items P) doc) [] w)
  /\ (forall item rest acc w,
        loop (item :: rest) acc w
        = match item_body P base_url item w with
          | (Ok (Some p), w') => loop rest (acc ++ [p]) w'
          | (Ok None, w') => loop rest acc w'
          | (Raise e, w') => loop rest acc (logged (error_record P e) w')
          end)
  /\ (forall item w,
        select_one (name_element P) item = None ->
        item_body P base_url item w = (Ok None, w))
  /\ (forall w, exists ps w', parse P (Some doc) base_url w = (Ok ps, w'))
  /\ (forall w,
        select_all (items P) doc = [] ->
        parse P (Some doc) base_url w = (Ok [], w))
  /\ (forall w good bad,
        select_all (items P) doc = [good; bad]
        \/ select_all (items P) doc = [bad; good] ->
        select_one (name_element P) bad = None ->
        well_formed S base_url good = true ->
        exists p,
          item_body P base_url good w = (Ok (Some p), clock_read w)
          /\ parse P (Some doc) base_url w = (Ok [p], clock_read w)
          /\ log (clock_read w) = log w)
  /\ (forall w ugly good e w1,
        select_all (items P) doc = [ugly; good] ->
        item_body P base_url ugly w = (Raise e, w1) ->
        well_formed S base_url good = true ->
        let w2 := logged (error_record P e) w1 in
        exists p,
          item_body P base_url good w2 = (Ok (Some p), clock_read w2)
          /\ parse P (Some doc) base_url w = (Ok [p], clock_read w2)
          /\ log (clock_read w2) = log w1 ++ [error_record P e]).
Proof.
  intros P loop. pose proof (parser_of_cases S) as HP. fold P in HP.
  split; [|split; [|split; [|split; [|split; [|split]]]]].
  - intros w. now rewrite parse_is_loop.
  - intros item rest acc w. apply loop_step.
  - intros item w. now apply nameless_item_skipped.
  - intros w. rewrite parse_is_loop by assumption.
    destruct (loop_total P base_url (select_all (items P) doc) [] w)
      as (ps & w' & E).
    exists ps, w'. exact E.
  - intros w H. rewrite parse_is_loop by assumption. now rewrite H.
  - intros w good bad Hsel Hbad Hgood.
    destruct (well_formed_emits S base_url good w Hgood) as [p Hp].
    fold P in Hp. exists p. split; [exact Hp|]. split; [|reflexivity].
    rewrite parse_is_loop by assumption.
    destruct Hsel as [-> | ->]; rewrite !loop_step.
    + rewrite Hp, loop_step.
      now rewrite (nameless_item_skipped base_url bad (clock_read w) HP Hbad).
    + rewrite (nameless_item_skipped base_url bad w HP Hbad).
      now rewrite loop_step, Hp.
  - intros w ugly good e w1 Hsel Hugly Hgood w2.
    destruct (well_formed_emits S base_url good w2 Hgood) as [p Hp].
    fold P in Hp. exists p. split; [exact Hp|]. split; [|reflexivity].
    rewrite parse_is_loop by assumption.
    rewrite Hsel, loop_step, Hugly. fold w2. now rewrite loop_step, Hp.
Qed.

Lemma site_parser_isolation_witness :
  let amazon_url := lit "https://www.amazon.com/s?k=laptop" in
  let ebay_url := lit "https://www.ebay.com/sch/i.html?_nkw=bag" in
  let nameless_item :=
    Samples.T "li" "s-item"
      [Samples.T "span" "s-item__price" [Samples.txt "$5.00"]] in
  let bag_item :=
    Samples.ebay_tile "https://www.ebay.com/itm/1" "Laptop bag" "$20.00" in
  (exists p,
     _scrape_amazon
       (Some (Samples.page [Samples.laptop_tile; Samples.nameless_tile]))
       amazon_url Samples.offline
     = (Ok [p], clock_read Samples.offline)
     /\ name p = lit "Laptop")
  /\ (exists p,
        _scrape_ebay (Some [nameless_item; bag_item]) ebay_url Samples.offline
        = (Ok [p], clock_read Samples.offline)
        /\ name p = lit "Laptop bag")
  /\ (exists p,
        _scrape_amazon
          (Some (Samples.page [Samples.unrated_tile; Samples.laptop_tile]))
          amazon_url Samples.offline
        = (Ok [p],
           clock_read (logged (ErrorParsingAmazon ValueError) Samples.offline))
        /\ name p = lit "Laptop").
Proof.
  intros amazon_url ebay_url nameless_item bag_item.
  split; [|split].
  - destruct (site_parser_isolation Amazon
                (Samples.page [Samples.laptop_tile; Samples.nameless_tile])
                amazon_url)
      as (_ & _ & _ & _ & _ & One & _).
    destruct (One Samples.offline
                (Samples.amazon_element Samples.laptop_contents)
                (Samples.amazon_element [Samples.amazon_price_tag "$1.00"]))
      as (p & _ & Hd & _);
      [left; reflexivity | reflexivity | reflexivity |].
    exists p. split; [exact Hd|].
    pose proof (f_equal fst Hd) as F. vm_compute in F.
    injection F as <-. reflexivity.
  - destruct (site_parser_isolation Ebay [nameless_item; bag_item] ebay_url)
      as (_ & _ & _ & _ & _ & One & _).
    destruct (One Samples.offline
                (Samples.ebay_element
                   (Samples.ebay_contents "https://www.ebay.com/itm/1"
                      "Laptop bag" "$20.00"))
                (Samples.ebay_element
                   [Samples.T "span" "s-item__price" [Samples.txt "$5.00"]]))
      as (p & _ & Hd & _);
      [right; reflexivity | reflexivity | reflexivity |].
    exists p. split; [exact Hd|].
    pose proof (f_equal fst Hd) as F. vm_compute in F.
    injection F as <-. reflexivity.
  - destruct (site_parser_isolation Amazon
                (Samples.page [Samples.unrated_tile; Samples.laptop_tile])
                amazon_url)
      as (_ & _ & _ & _ & _ & _ & Skip).
    destruct (Skip Samples.offline
                (Samples.amazon_element Samples.unrated_contents)
                (Samples.amazon_element Samples.laptop_contents)
                ValueError Samples.offline)
      as (p & _ & Hd & _);
      [reflexivity | reflexivity | reflexivity |].
    exists p. split; [exact Hd|].
    pose proof (f_equal fst Hd) as F. vm_compute in F.
    injection F as <-. reflexivity.
Defined.

End Isolation.

Section ItemFields.
Import Soup WebScraper Spec Parts.

(** C6, amended.  For an Amazon item with a name element: the price
    text never raises, so an unparseable price only makes the price
    [None]; an absent rating or review-count element gives the default
    0.0 or 0; but a rating or review-count text that is present and
    does not parse raises inside the item's [try], and the item is
    skipped with one record sent to the logger.  When nothing raises,
    the item is emitted with the values read if its name is not blank
    and its URL is not empty, and dropped without a word if not.
    Whether an emitted record is ranked depends on its price alone;
    whether it is stored depends on its price and on sqlite3 taking
    its fields: the loop of [main] raises on a record with a price
    that it cannot bind, a review count beyond 64 bits for one. *)
Theorem amazon_item_coercion (base_url : str) (item name_elem : element)
    (w : world) :
  select_one amazon_name item = Some name_elem ->
  let step := try_except (amazon_item base_url item) (on_error amazon_parser) in
  let price_of :=
    match select_one amazon_price item with
    | Some e => _extract_price (text e)
    | None => Ok None
    end in
  let rating_of :=
    match select_one amazon_rating item with
    | Some e => rating_value (text e)
    | None => Ok zero
    end in
  let reviews_of :=
    match select_one amazon_reviews item with
    | Some e => reviews_value (text e)
    | None => Ok 0
    end in
  let u :=
    match link_href amazon_link item with
    | Some href => lit "https://www.amazon.com" ++ href
    | None => base_url
    end in
  (exists o, price_of = Ok o)
  /\ (select_one amazon_rating item = None -> rating_of = Ok zero)
  /\ (select_one amazon_reviews item = None -> reviews_of = Ok 0)
  /\ (forall x, rating_of = Raise x ->
        step w = (Ok None, logged (ErrorParsingAmazon x) w))
  /\ (forall r x, rating_of = Ok r -> reviews_of = Raise x ->
        step w = (Ok None, logged (ErrorParsingAmazon x) w))
  /\ (forall o r n,
        price_of = Ok o -> rating_of = Ok r -> reviews_of = Ok n ->
        step w
        = if truthy (strip (text name_elem)) && truthy u
          then (Ok (Some {| name := strip (text name_elem); price := o;
                            website := lit "Amazon"; url := u;
                            timestamp := clock w (readings w);
                            description := []; rating := r;
                            num_reviews := n; availability := [] |}),
                clock_read w)
          else (Ok None, w))
  /\ (forall p w',
        step w = (Ok (Some p), w') ->
        (forall products,
           In p (PriceComparisonTool.valid_products products)
           <-> In p products /\ price p <> None)
        /\ (forall s,
              Console.store_search [p] s
              = match price p, Console.bind_parameters p with
                | None, _ => (Console.Done tt, s)
                | Some _, Some e => (Console.Raised (Console.Error e), s)
                | Some _, None =>
                    (Console.Done tt,
                     {| Console.world_of := Console.world_of s;
                        Console.table_of :=
                          filter
                            (fun r =>
                               negb (DatabaseManager.same_key (name p)
                                       (website p) (timestamp p) r))
                            (Console.table_of s)
                          ++ [DatabaseManager.row_of_product
                                (DatabaseManager.next_id (Console.table_of s))
                                p];
                        Console.stdin := Console.stdin s;
                        Console.terminal := Console.terminal s;
                        Console.opened := Console.opened s |})
                end)).
Proof.
  intros Hname step price_of rating_of reviews_of u.
  destruct (optional_price_total (select_one amazon_price item)) as [o Ho].
  fold price_of in Ho.
  assert (Eq : step w
               = match amazon_item base_url item w with
                 | (Ok r, w') => (Ok r, w')
                 | (Raise x, w') => (Ok None, logged (ErrorParsingAmazon x) w')
                 end).
  { unfold step, try_except.
    destruct (amazon_item base_url item w) as [[r|x] w']; reflexivity. }
  rewrite Eq, amazon_item_equation, Hname.
  fold price_of rating_of reviews_of u. rewrite Ho.
  split; [eauto|].
  split; [intros H; subst rating_of; now rewrite H|].
  split; [intros H; subst reviews_of; now rewrite H|].
  split; [|split; [|split]].
  - intros x Hr. now rewrite Hr.
  - intros r x Hr Hn. now rewrite Hr, Hn.
  - intros o' r n Ho' Hr Hn.
    injection Ho' as <-. rewrite Hr, Hn. subst u. cbv zeta.
    now destruct (truthy (strip (text name_elem)) && truthy _).
  - intros p w' Hs.
    assert (Tp : truthy (name p) = true).
    { destruct rating_of as [r|x]; [|discriminate].
      destruct reviews_of as [n|x]; [|discriminate].
      cbv zeta in Hs.
      destruct (truthy (strip (text name_elem))) eqn:Tn; [|discriminate].
      destruct (truthy u); [|discriminate].
      simpl in Hs. injection Hs as <- _. exact Tn. }
    split.
    + intros products. apply valid_products_spec.
    + intros s. unfold Console.store_search. cbn [Console.for_each].
      unfold Console.bind at 1.
      destruct (price p) as [x|] eqn:Ep; cbn [DatabaseManager.is_none negb].
      * unfold Console.db_save_product. rewrite Tp, Ep.
        cbn [negb orb DatabaseManager.is_none].
        destruct (Console.bind_parameters p); [reflexivity|].
        unfold DatabaseManager.save_product. rewrite Tp, Ep.
        reflexivity.
      * reflexivity.
Qed.

Lemma amazon_item_coercion_witness :
  let base_url := lit "https://www.amazon.com/s?k=tablet" in
  (exists p,
     try_except
       (amazon_item base_url (Samples.amazon_element Samples.unpriced_contents))
       (on_error amazon_parser) Samples.offline
     = (Ok (Some p), clock_read Samples.offline)
     /\ name p = lit "Tablet" /\ price p = None
     /\ rating p = zero /\ num_reviews p = 0)
  /\ try_except
       (amazon_item base_url (Samples.amazon_element Samples.unrated_contents))
       (on_error amazon_parser) Samples.offline
     = (Ok None, logged (ErrorParsingAmazon ValueError) Samples.offline)
  /\ try_except
       (amazon_item base_url (Samples.amazon_element Samples.blank_contents))
       (on_error amazon_parser) Samples.offline
     = (Ok None, Samples.offline)
  /\ (exists p,
        try_except
          (amazon_item base_url
             (Samples.amazon_element Samples.crowded_contents))
          (on_error amazon_parser) Samples.offline
        = (Ok (Some p), clock_read Samples.offline)
        /\ price p = Some (Samples.float_lit "99.00")
        /\ num_reviews p = 99999999999999999999
        /\ forall s,
             Console.store_search [p] s
             = (Console.Raised (Console.Error OverflowError), s)).
Proof.
  intros base_url. split; [|split; [|split]].
  - eexists. split.
    + rewrite (proj1 (proj2 (proj2 (proj2 (proj2 (proj2
                (@amazon_item_coercion base_url
                   (Samples.amazon_element Samples.unpriced_contents)
                   _ Samples.offline eq_refl))))))
                None zero 0 eq_refl eq_refl eq_refl).
      reflexivity.
    + cbv. repeat split.
  - exact (proj1 (proj2 (proj2 (proj2
             (@amazon_item_coercion base_url
                (Samples.amazon_element Samples.unrated_contents)
                _ Samples.offline eq_refl))))
             ValueError eq_refl).
  - rewrite (proj1 (proj2 (proj2 (proj2 (proj2 (proj2
              (@amazon_item_coercion base_url
                 (Samples.amazon_element Samples.blank_contents)
                 _ Samples.offline eq_refl))))))
              (Some (Samples.float_lit "3.00")) zero 0 eq_refl eq_refl eq_refl).
    reflexivity.
  - pose proof (@amazon_item_coercion base_url
                  (Samples.amazon_element Samples.crowded_contents)
                  _ Samples.offline eq_refl) as (_ & _ & _ & _ & _ & E & S).
    specialize (E (Some (Samples.float_lit "99.00")) zero
                  99999999999999999999 eq_refl eq_refl eq_refl).
    eexists. split; [exact E|]. split; [reflexivity|].
    split; [reflexivity|].
    intros s. destruct (S _ _ E) as [_ St]. rewrite St. reflexivity.
Defined.

(** C6 as worded fails: the tile has a name, a price and the rating
    text "N/A"; it is not emitted with rating 0.0 but dropped, and the
    logger gets the [ValueError]. *)
Lemma unparseable_rating_drops_item :
  let r := _scrape_amazon (Some (Samples.page [Samples.unrated_tile]))
             (lit "https://www.amazon.com/s?k=phone") Samples.offline in
  fst r = Ok [] /\ log (snd r) = [ErrorParsingAmazon ValueError].
Proof. split; reflexivity. Qed.

(** C8, amended.  The URL of an emitted record: for Amazon the fixed
    origin followed by the [href] of the item's link as it is written,
    for eBay that [href] itself; the URL of the search page exactly
    when the item has no link with an [href]. *)
Theorem item_url (base_url : str) (item : element) (w w' : world)
    (p : Product) :
  (amazon_item base_url item w = (Ok (Some p), w') ->
   url p = match link_href amazon_link item with
           | Some href => lit "https://www.amazon.com" ++ href
           | None => base_url
           end)
  /\ (ebay_item base_url item w = (Ok (Some p), w') ->
      url p = match link_href ebay_link item with
              | Some href => href
              | None => base_url
              end).
Proof.
  split.
  - rewrite amazon_item_equation.
    destruct (select_one amazon_name item); [|discriminate].
    destruct (match select_one amazon_price item with
              | Some e => _ | None => _ end); [|discriminate].
    destruct (match select_one amazon_rating item with
              | Some e => _ | None => _ end); [|discriminate].
    destruct (match select_one amazon_reviews item with
              | Some e => _ | None => _ end); [|discriminate].
    cbv zeta. destruct (_ && _); [|discriminate].
    intros H. injection H as <- _. reflexivity.
  - rewrite ebay_item_equation.
    destruct (select_one ebay_name item); [|discriminate].
    destruct (PyStr.eqb _ _); [discriminate|].
    destruct (match select_one ebay_price item with
              | Some e => _ | None => _ end); [|discriminate].
    cbv zeta. destruct (_ && _); [|discriminate].
    intros H. injection H as <- _. reflexivity.
Qed.

End ItemFields.

Lemma item_url_witness :
  let a := Samples.amazon_element Samples.laptop_contents in
  let e := Samples.ebay_element
             (Samples.ebay_contents "https://www.ebay.com/itm/1" "Laptop bag" "$20.00") in
  (exists p w',
     WebScraper.amazon_item (lit "https://www.amazon.com/s?k=laptop") a
       Samples.offline = (Ok (Some p), w')
     /\ url p = lit "https://www.amazon.com/dp/B01")
  /\ (exists p w',
        WebScraper.ebay_item (lit "https://www.ebay.com/sch/i.html?_nkw=bag") e
          Samples.offline = (Ok (Some p), w')
        /\ url p = lit "https://www.ebay.com/itm/1").
Proof.
  intros a e. split.
  - eexists. eexists.
    assert (E : WebScraper.amazon_item (lit "https://www.amazon.com/s?k=laptop") a
                  Samples.offline
                = (Ok (Some _), _)) by (cbv; reflexivity).
    split; [exact E|].
    rewrite (proj1 (item_url _ _ _ _ _) E). reflexivity.
  - eexists. eexists.
    assert (E : WebScraper.ebay_item (lit "https://www.ebay.com/sch/i.html?_nkw=bag") e
                  Samples.offline
                = (Ok (Some _), _)) by (cbv; reflexivity).
    split; [exact E|].
    rewrite (proj2 (item_url _ _ _ _ _) E). reflexivity.
Defined.

(** C8 as worded fails.  eBay: a link written as a path is kept as it
    is, not placed under the site's origin.  Amazon: the origin is put
    in front of a link that is already absolute. *)
Lemma item_url_not_resolved :
  List.map url
    (Parts.records
       (WebScraper._scrape_ebay
          (Some [Samples.ebay_tile "/itm/1" "Laptop bag" "$20.00"])
          (lit "https://www.ebay.com/sch/i.html?_nkw=bag") Samples.offline))
  = [lit "/itm/1"]
  /\ Spec.resolve (lit "https://www.ebay.com") (lit "/itm/1")
     = lit "https://www.ebay.com/itm/1"
  /\ List.map url
       (Parts.records
          (WebScraper._scrape_amazon
             (Some (Samples.page [Samples.absolute_tile]))
             (lit "https://www.amazon.com/s?k=camera") Samples.offline))
     = [lit "https://www.amazon.comhttps://www.amazon.com/dp/B04"]
  /\ Spec.resolve (lit "https://www.amazon.com")
       (lit "https://www.amazon.com/dp/B04")
     = lit "https://www.amazon.com/dp/B04".
Proof. repeat split. Qed.

(** ** The aggregator *)

Section Aggregator.
Import PriceComparisonTool Spec Parts.

Lemma scrape_site_total (url site_name : str) (w : world) :
  exists ps w', WebScraper.scrape_site url site_name w = (Ok ps, w').
Proof.
  unfold WebScraper.scrape_site, bind.
  destruct (get_soup_total url w) as ([doc|] & w1 & E); rewrite E;
    [|eexists; eexists; reflexivity].
  destruct (PyStr.eqb site_name (lit "amazon")).
  - destruct (loop_total amazon_parser url
                (Soup.select_all (items amazon_parser) doc) [] w1)
      as (ps & w' & L).
    exists ps, w'. exact L.
  - destruct (PyStr.eqb site_name (lit "ebay")).
    + destruct (loop_total ebay_parser url
                  (Soup.select_all (items ebay_parser) doc) [] w1)
        as (ps & w' & L).
      exists ps, w'. exact L.
    + eexists; eexists; reflexivity.
Qed.

Lemma scrape_site_failed (url site_name : str) (w : world) (why : request_failure) :
  network w (requests w) url = Failed why ->
  fst (WebScraper.scrape_site url site_name w) = Ok [].
Proof.
  intros H. rewrite scrape_site_no_document; [reflexivity|].
  rewrite get_soup_outcome, H. reflexivity.
Qed.

Lemma site_step (self : tool) (enc site_name : str) (t : template)
    (rest : list (str * template)) (acc : list Product) (w : world) :
  for_each_site self enc ((site_name, t) :: rest) acc w
  = match format t enc with
    | Raise e =>
        for_each_site self enc rest acc
          (printed_line (ErrorSearching site_name e) w)
    | Ok url =>
        match scrape_site (scraper self) url site_name
                (printed_line (SearchingOn site_name) w) with
        | (Ok site_products, w') =>
            for_each_site self enc rest (acc ++ site_products) w'
        | (Raise e, w') =>
            for_each_site self enc rest acc
              (printed_line (ErrorSearching site_name e) w')
        end
    end.
Proof.
  simpl. unfold bind at 1, try_except. rewrite bind_lift.
  destruct (format t enc) as [url|e]; [|reflexivity].
  unfold bind at 1. simpl. unfold bind at 1.
  fold (printed_line (SearchingOn site_name) w).
  destruct (scrape_site (scraper self) url site_name _) as [[ps|e] w'];
    reflexivity.
Qed.

Lemma format_one (prefix arg : str) :
  format [Literal prefix; Field] arg = Ok (prefix ++ arg).
Proof. unfold format. simpl. now rewrite app_nil_r. Qed.

Lemma for_each_site_total (self : tool) (enc : str)
    (sites : list (str * template)) (acc : list Product) (w : world) :
  exists ps w', for_each_site self enc sites acc w = (Ok (acc ++ ps), w').
Proof.
  revert acc w. induction sites as [|[site_name t] rest IH]; intros acc w.
  - exists [], w. simpl. now rewrite app_nil_r.
  - rewrite site_step. destruct (format t enc) as [url|e]; [|apply IH].
    destruct (scrape_site (scraper self) url site_name _) as [[ps|e] w'];
      [|apply IH].
    destruct (IH (acc ++ ps) w') as (qs & w'' & E).
    exists (ps ++ qs), w''. rewrite E. now rewrite app_assoc.
Qed.

(** C5.  [search_products] goes through the sites in the order of
    [site_urls]; whatever one site's pipeline does, a failed [format]
    or an exception out of the scraper, the loop goes on to the next
    site with what it had collected, and it never raises.  For the
    configured tool that order is Amazon, then eBay: the result is the
    records [scrape_site] returns for Amazon followed by those it
    returns for eBay, and a request that fails (a timeout, say) on one
    site leaves that site's part empty and the other's in place.  Within
    a site the records follow the order of the selected items, which is
    the order of the document.  The one exception [search_products]
    lets out is that of a query [quote_plus] cannot encode, raised
    before any site is tried. *)
Theorem search_products_sites :
  (forall self enc site_name t rest acc w,
     for_each_site self enc ((site_name, t) :: rest) acc w
     = match format t enc with
       | Raise e =>
           for_each_site self enc rest acc
             (printed_line (ErrorSearching site_name e) w)
       | Ok url =>
           match scrape_site (scraper self) url site_name
                   (printed_line (SearchingOn site_name) w) with
           | (Ok site_products, w') =>
               for_each_site self enc rest (acc ++ site_products) w'
           | (Raise e, w') =>
               for_each_site self enc rest acc
                 (printed_line (ErrorSearching site_name e) w')
           end
       end)
  /\ (forall self enc sites acc w,
        exists ps w', for_each_site self enc sites acc w = (Ok (acc ++ ps), w'))
  /\ (forall query enc w,
        quote_plus query = Ok enc ->
        let amazon_url := lit "https://www.amazon.com/s?k=" ++ enc in
        let ebay_url := lit "https://www.ebay.com/sch/i.html?_nkw=" ++ enc in
        let w0 := printed_line (SearchingOn (lit "amazon"))
                    (printed_line Searching w) in
        exists amazon_records w1 ebay_records w2,
          WebScraper.scrape_site amazon_url (lit "amazon") w0
          = (Ok amazon_records, w1)
          /\ WebScraper.scrape_site ebay_url (lit "ebay")
               (printed_line (SearchingOn (lit "ebay")) w1)
             = (Ok ebay_records, w2)
          /\ search_products init query w
             = (Ok (amazon_records ++ ebay_records), w2)
          /\ (forall why,
                network w (requests w) amazon_url = Failed why ->
                amazon_records = []
                /\ search_products init query w = (Ok ebay_records, w2))
          /\ (forall why,
                network w1 (requests w1) ebay_url = Failed why ->
                ebay_records = []
                /\ search_products init query w = (Ok amazon_records, w2)))
  /\ (forall P base_url xs ys w,
        let loop := WebScraper.for_each_item (item_body P base_url) (on_error P) in
        exists ps w1 qs w2,
          loop xs [] w = (Ok ps, w1)
          /\ loop ys [] w1 = (Ok qs, w2)
          /\ loop (xs ++ ys) [] w = (Ok (ps ++ qs), w2))
  /\ (forall self query w e,
        quote_plus query = Raise e ->
        search_products self query w = (Raise e, w)).
Proof.
  split; [exact site_step|]. split; [exact for_each_site_total|].
  split; [|split; [intros P base_url xs ys w; apply loop_in_order|]].
  2: { intros self query w e Hq. unfold search_products.
       now rewrite bind_lift, Hq. }
  intros query enc w Hq amazon_url ebay_url w0.
  destruct (scrape_site_total amazon_url (lit "amazon") w0) as (A & w1 & EA).
  destruct (scrape_site_total ebay_url (lit "ebay")
              (printed_line (SearchingOn (lit "ebay")) w1)) as (B & w2 & EB).
  exists A, w1, B, w2.
  assert (S : search_products init query w = (Ok (A ++ B), w2)).
  { unfold search_products. rewrite bind_lift, Hq.
    change (for_each_site init enc
              [(lit "amazon", [Literal (lit "https://www.amazon.com/s?k="); Field]);
               (lit "ebay",
                [Literal (lit "https://www.ebay.com/sch/i.html?_nkw="); Field])]
              [] (printed_line Searching w)
            = (Ok (A ++ B), w2)).
    rewrite site_step, format_one.
    change (scrape_site (scraper init)) with WebScraper.scrape_site.
    fold amazon_url w0. rewrite EA.
    rewrite site_step, format_one.
    change (scrape_site (scraper init)) with WebScraper.scrape_site.
    fold ebay_url. rewrite EB.
    reflexivity. }
  split; [exact EA|]. split; [exact EB|]. split; [exact S|]. split.
  - intros why H.
    assert (A = []) as ->.
    { pose proof (@scrape_site_failed amazon_url (lit "amazon") w0 why H) as F.
      rewrite EA in F. simpl in F. congruence. }
    split; [reflexivity | exact S].
  - intros why H.
    assert (B = []) as ->.
    { pose proof (@scrape_site_failed ebay_url (lit "ebay")
                    (printed_line (SearchingOn (lit "ebay")) w1) why H) as F.
      rewrite EB in F. simpl in F. congruence. }
    split; [reflexivity|]. now rewrite app_nil_r in S.
Qed.

End Aggregator.

Lemma search_products_sites_witness :
  PriceComparisonTool.quote_plus (lit "laptop bag") = Ok (lit "laptop+bag")
  /\ List.map name
       (Parts.records
          (PriceComparisonTool.search_products PriceComparisonTool.init
             (lit "laptop bag") Samples.ebay_only))
     = [lit "Laptop bag"].
Proof.
  assert (Q : PriceComparisonTool.quote_plus (lit "laptop bag")
              = Ok (lit "laptop+bag")) by reflexivity.
  split; [exact Q|].
  destruct (proj1 (proj2 (proj2 search_products_sites)) _ _ Samples.ebay_only Q)
    as (A & w1 & B & w2 & EA & EB & S & T1 & _).
  destruct (T1 Timeout eq_refl) as [-> S'].
  unfold Parts.records. rewrite S'. simpl fst.
  cbv in EA. injection EA as <-.
  cbv in EB. injection EB as <- _.
  reflexivity.
Defined.

(** ** Characters of a cleaned price text *)

Section Characters.
Local Open Scope N_scope.

Lemma in_ranges_iff (tbl : list (N * N)) (c : char) :
  in_ranges tbl c = true <-> exists r, In r tbl /\ fst r <= c <= snd r.
Proof.
  unfold in_ranges. rewrite existsb_exists.
  split; intros (r & Hin & H); exists r; split; auto.
  - apply andb_true_iff in H as [H1 H2].
    apply N.leb_le in H1, H2. lia.
  - apply andb_true_iff. split; apply N.leb_le; lia.
Qed.

Lemma ranges_disjoint_false (t1 t2 : list (N * N)) (c : char) :
  ranges_disjoint t1 t2 = true ->
  in_ranges t1 c = true -> in_ranges t2 c = false.
Proof.
  intros D H1. destruct (in_ranges t2 c) eqn:H2; [|reflexivity].
  apply in_ranges_iff in H1 as (r & Hr & B).
  apply in_ranges_iff in H2 as (r' & Hr' & B').
  unfold ranges_disjoint in D. rewrite forallb_forall in D.
  specialize (D r Hr). rewrite forallb_forall in D. specialize (D r' Hr').
  apply orb_true_iff in D as [D | D]; apply N.ltb_lt in D; lia.
Qed.

Lemma ranges_from_le (n : N) (tbl : list (N * N)) (c : char) :
  ranges_from n tbl = true -> in_ranges tbl c = true -> n <= c.
Proof.
  intros F H. apply in_ranges_iff in H as (r & Hr & B).
  unfold ranges_from in F. rewrite forallb_forall in F.
  specialize (F r Hr). apply N.leb_le in F. lia.
Qed.

Lemma decimal_value_some (c : char) :
  isdecimal c = true -> exists d, decimal_value c = Some d /\ d < 10.
Proof.
  unfold isdecimal, in_ranges, decimal_value. intros H.
  destruct (find _ decimal_ranges) as [r|] eqn:F.
  - eexists. split; [reflexivity|]. apply N.mod_lt. discriminate.
  - apply existsb_exists in H as (r & Hr & Hc).
    pose proof (find_none _ _ F r Hr) as Hn. congruence.
Qed.

Lemma decimal_value_none (c : char) :
  isdecimal c = false -> decimal_value c = None.
Proof.
  unfold isdecimal, in_ranges, decimal_value. intros H.
  destruct (find _ decimal_ranges) as [r|] eqn:F; [|reflexivity].
  apply find_some in F as [Hr Hc].
  assert (E : existsb (fun r => (fst r <=? c) && (c <=? snd r)) decimal_ranges
              = true) by (apply existsb_exists; eauto).
  congruence.
Qed.

Lemma isdecimal_split (c : char) :
  isdecimal c = is_ascii_digit c || in_ranges (tl decimal_ranges) c.
Proof. reflexivity. Qed.

Lemma decimal_value_ascii (c : char) :
  is_ascii_digit c = true -> decimal_value c = Some (c - 48).
Proof.
  intros A. unfold decimal_value.
  assert (E : find (fun r => (fst r <=? c) && (c <=? snd r)) decimal_ranges
              = if is_ascii_digit c then Some (48, 57)
                else find (fun r => (fst r <=? c) && (c <=? snd r))
                       (tl decimal_ranges)) by reflexivity.
  rewrite E, A. cbn [fst].
  unfold is_ascii_digit in A. apply andb_true_iff in A as [A1 A2].
  apply N.leb_le in A1, A2. f_equal. apply N.mod_small. lia.
Qed.

(** Below 127 the decimal digits are the ASCII ones. *)
Lemma ascii_decimal (c : char) : c < 127 -> isdecimal c = is_ascii_digit c.
Proof.
  intros Hc. rewrite isdecimal_split.
  destruct (in_ranges (tl decimal_ranges) c) eqn:D; [|apply orb_false_r].
  assert (L : 127 <= c).
  { apply ranges_from_le with (tbl := tl decimal_ranges);
      [vm_compute; reflexivity | exact D]. }
  lia.
Qed.

Lemma decimal_not_space (c : char) : isdecimal c = true -> isspace c = false.
Proof.
  apply ranges_disjoint_false. vm_compute. reflexivity.
Qed.

(** What [float()] makes of a decimal digit: the ASCII digit of the
    same value. *)
Lemma to_ascii_decimal (c : char) :
  isdecimal c = true ->
  to_ascii c = 48 + Spec.digit c /\ Spec.digit c < 10.
Proof.
  intros D. unfold to_ascii, Spec.digit.
  destruct (c <? 127) eqn:L.
  - apply N.ltb_lt in L. pose proof (ascii_decimal L) as E.
    rewrite D in E. symmetry in E. rewrite (decimal_value_ascii c E).
    unfold is_ascii_digit in E. apply andb_true_iff in E as [E1 E2].
    apply N.leb_le in E1, E2. lia.
  - rewrite (decimal_not_space c D).
    destruct (decimal_value_some c D) as (d & -> & Hd). auto.
Qed.

(** What it makes of the other digits: a question mark. *)
Lemma to_ascii_other_digit (c : char) :
  in_ranges other_digit_ranges c = true ->
  isdecimal c = false /\ to_ascii c = 63.
Proof.
  intros O.
  assert (D : isdecimal c = false).
  { apply ranges_disjoint_false with (t1 := other_digit_ranges);
      [vm_compute; reflexivity | exact O]. }
  assert (S : isspace c = false).
  { apply ranges_disjoint_false with (t1 := other_digit_ranges);
      [vm_compute; reflexivity | exact O]. }
  assert (L : 127 <= c).
  { apply ranges_from_le with (tbl := other_digit_ranges);
      [vm_compute; reflexivity | exact O]. }
  split; [exact D|].
  unfold to_ascii. apply N.ltb_ge in L. rewrite L, S.
  now rewrite (decimal_value_none c D).
Qed.

End Characters.

Section CleanedText.
Import Spec Parts.
Local Open Scope N_scope.

Lemma plain_cases (a : char) :
  plain a = true -> 48 <= a <= 57 \/ a = 46 \/ a = 63.
Proof.
  unfold plain, is_ascii_digit. intros H.
  apply orb_true_iff in H as [H | H]; [apply orb_true_iff in H as [H | H]|].
  - apply andb_true_iff in H as [H1 H2]. apply N.leb_le in H1, H2. lia.
  - apply N.eqb_eq in H. lia.
  - apply N.eqb_eq in H. lia.
Qed.

Lemma price_char_ascii (c : char) :
  price_char c = true ->
  plain (to_ascii c) = true
  /\ is_ascii_digit (to_ascii c) = isdecimal c
  /\ N.eqb (to_ascii c) 46 = N.eqb c 46
  /\ (isdecimal c = true -> to_ascii c = 48 + digit c /\ digit c < 10).
Proof.
  unfold price_char, isdigit. intros H.
  assert (D46 : isdecimal 46 = false) by (vm_compute; reflexivity).
  assert (T46 : to_ascii 46 = 46) by reflexivity.
  destruct (isdecimal c) eqn:D.
  - destruct (to_ascii_decimal c D) as [E Hd].
    assert (A : is_ascii_digit (to_ascii c) = true).
    { rewrite E. unfold is_ascii_digit. apply andb_true_iff.
      split; apply N.leb_le; lia. }
    repeat split; auto.
    + unfold plain. now rewrite A.
    + destruct (N.eqb_spec c 46) as [->|_]; [congruence|].
      apply N.eqb_neq. rewrite E. lia.
  - simpl in H. apply orb_true_iff in H as [O | P].
    + destruct (to_ascii_other_digit c O) as [_ E]. rewrite E.
      repeat split; try reflexivity; try discriminate.
      destruct (N.eqb_spec c 46) as [->|_]; [|reflexivity].
      rewrite T46 in E. discriminate.
    + apply N.eqb_eq in P. unfold WebScraper.dot in P. subst c.
      repeat split; try reflexivity; discriminate.
Qed.

Lemma Forall_plain (r : str) :
  Forall (fun c => price_char c = true) r ->
  Forall (fun a => plain a = true) (List.map to_ascii r).
Proof.
  induction 1 as [|c r Hc Hr IH]; simpl; constructor; auto.
  now apply price_char_ascii.
Qed.

Lemma plain_underscores_ok (a : str) (prev : char) :
  prev <> underscore -> Forall (fun a => plain a = true) a ->
  underscores_ok prev a = true.
Proof.
  intros Hp H. revert prev Hp.
  induction H as [|c a Hc Ha IH]; intros prev Hp; simpl.
  - apply negb_true_iff. now apply N.eqb_neq.
  - assert (Hu : c <> underscore)
      by (apply plain_cases in Hc; unfold underscore; lia).
    apply N.eqb_neq in Hu. rewrite Hu.
    apply N.eqb_neq in Hp. rewrite Hp. simpl.
    apply IH. now apply N.eqb_neq.
Qed.

Lemma plain_no_underscore (a : str) :
  Forall (fun a => plain a = true) a ->
  filter (fun c => negb (N.eqb c underscore)) a = a.
Proof.
  induction 1 as [|c a Hc Ha IH]; simpl; [reflexivity|].
  assert (Hu : c <> underscore)
    by (apply plain_cases in Hc; unfold underscore; lia).
  apply N.eqb_neq in Hu. rewrite Hu. simpl. now rewrite IH.
Qed.

Lemma plain_not_space (c : char) : plain c = true -> py_isspace c = false.
Proof.
  intros H. apply plain_cases in H. unfold py_isspace.
  apply orb_false_iff. split.
  - apply andb_false_iff.
    destruct (N.leb_spec 9 c), (N.leb_spec c 13); auto; lia.
  - apply N.eqb_neq. lia.
Qed.

Lemma plain_c_lstrip (a : str) :
  Forall (fun a => plain a = true) a -> c_lstrip a = a.
Proof.
  destruct 1 as [|c a Hc Ha]; simpl; [reflexivity|].
  now rewrite (plain_not_space c Hc).
Qed.

Lemma plain_c_strip (a : str) :
  Forall (fun a => plain a = true) a -> c_strip a = a.
Proof.
  intros H. unfold c_strip. rewrite (plain_c_lstrip H).
  rewrite plain_c_lstrip by now apply Forall_rev.
  apply rev_involutive.
Qed.

Lemma plain_take_sign (a : str) :
  Forall (fun a => plain a = true) a -> take_sign a = (false, a).
Proof.
  destruct 1 as [|c a Hc Ha]; [reflexivity|].
  apply plain_cases in Hc. unfold take_sign.
  destruct c as [|p]; [reflexivity|].
  do 6 (destruct p as [p|p|]; try reflexivity); lia.
Qed.

Lemma plain_take_exponent (a : str) :
  Forall (fun a => plain a = true) a -> take_exponent a = (0%Z, a).
Proof.
  destruct 1 as [|c a Hc Ha]; [reflexivity|].
  apply plain_cases in Hc. unfold take_exponent.
  assert (E1 : N.eqb c 101 = false) by (apply N.eqb_neq; lia).
  assert (E2 : N.eqb c 69 = false) by (apply N.eqb_neq; lia).
  now rewrite E1, E2.
Qed.

Lemma plain_parse_inf_or_nan (a : str) :
  Forall (fun a => plain a = true) a -> parse_inf_or_nan a = None.
Proof.
  intros H. unfold parse_inf_or_nan. rewrite (plain_take_sign H).
  destruct H as [|c a Hc Ha]; [reflexivity|].
  apply plain_cases in Hc.
  assert (L : lower (c :: a) = c :: lower a).
  { unfold lower. simpl. unfold lower_char.
    assert (E0 : (65 <=? c) && (c <=? 90) = false).
    { apply andb_false_iff.
      destruct (N.leb_spec 65 c), (N.leb_spec c 90); auto; lia. }
    assert (E1 : N.eqb c 304 = false) by (apply N.eqb_neq; lia).
    assert (E2 : N.eqb c 8490 = false) by (apply N.eqb_neq; lia).
    now rewrite E0, E1, E2. }
  rewrite L.
  assert (Ei : N.eqb 105 c = false) by (apply N.eqb_neq; lia).
  assert (En : N.eqb 110 c = false) by (apply N.eqb_neq; lia).
  change (lit "infinity") with (105 :: lit "nfinity").
  change (lit "inf") with (105 :: lit "nf").
  change (lit "nan") with (110 :: lit "an").
  cbn [startswith]. now rewrite Ei, En.
Qed.

End CleanedText.

Section ParsePrice.
Import Spec Parts WebScraper.
Local Open Scope N_scope.

Lemma span_spec (p : char -> bool) (s : str) :
  s = fst (span p s) ++ snd (span p s)
  /\ match snd (span p s) with
     | [] => True
     | c :: _ => p c = false
     end.
Proof.
  induction s as [|c s [IH1 IH2]]; simpl; [auto|].
  destruct (p c) eqn:E; [|simpl; auto].
  destruct (span p s) as [x y]. simpl in *. split; [congruence | exact IH2].
Qed.

Lemma span_digits_map (r : str) :
  Forall (fun c => price_char c = true) r ->
  span_digits (List.map to_ascii r)
  = (List.map to_ascii (fst (span isdecimal r)),
     List.map to_ascii (snd (span isdecimal r))).
Proof.
  induction 1 as [|c r Hc Hr IH]; simpl; [reflexivity|].
  destruct (price_char_ascii c Hc) as (_ & -> & _).
  rewrite IH. destruct (isdecimal c); [|reflexivity].
  now destruct (span isdecimal r).
Qed.

Lemma span_decimal (r : str) :
  Forall (fun c => isdecimal c = true) (fst (span isdecimal r)).
Proof.
  induction r as [|c r IH]; simpl; [constructor|].
  destruct (isdecimal c) eqn:E; [|constructor].
  destruct (span isdecimal r). simpl in *. now constructor.
Qed.

Lemma digits_value_map (ds : str) :
  Forall (fun c => isdecimal c = true) ds ->
  digits_value (List.map to_ascii ds) = number ds.
Proof.
  unfold digits_value, number. generalize 0.
  intros acc H. revert acc.
  induction H as [|c ds Hc Hds IH]; intros acc; simpl; [reflexivity|].
  rewrite IH. f_equal.
  destruct (to_ascii_decimal c Hc) as [-> _]. lia.
Qed.

Lemma fraction_part (r1 : str) :
  match r1 with
  | 46 :: r => span_digits r
  | _ => ([], r1)
  end
  = match r1 with
    | c :: r => if N.eqb c 46 then span_digits r else ([], r1)
    | [] => ([], r1)
    end.
Proof.
  destruct r1 as [|c r]; [reflexivity|].
  destruct (N.eqb_spec c 46) as [->|Hc]; [reflexivity|].
  destruct c as [|p]; [reflexivity|].
  do 6 (destruct p as [p|p|]; try reflexivity). contradiction.
Qed.

(** On a cleaned text, [float()] reads exactly the decimal numbers. *)
Lemma float_of_str_cleaned (r : str) :
  Forall (fun c => price_char c = true) r ->
  float_of_str r
  = match decimal_number r with
    | Some x => Ok x
    | None => Raise ValueError
    end.
Proof.
  intros H. pose proof (Forall_plain H) as PA.
  unfold float_of_str.
  rewrite (plain_underscores_ok (prev := 0)) by (assumption || discriminate).
  rewrite (plain_no_underscore PA), (plain_c_strip PA).
  unfold parse_decimal, decimal_number.
  rewrite (plain_take_sign PA). cbv beta iota.
  rewrite (span_digits_map H). cbv beta iota. rewrite fraction_part.
  destruct (span_spec isdecimal r) as [Er Hh].
  pose proof (span_decimal r) as Dip.
  destruct (span isdecimal r) as [ip r1]. cbn [fst snd] in *.
  assert (H1 : Forall (fun c => price_char c = true) r1).
  { rewrite Er in H. apply Forall_app in H. tauto. }
  rewrite (plain_parse_inf_or_nan PA).
  destruct r1 as [|c r2].
  - simpl map. cbv beta iota. rewrite !app_nil_r.
    destruct ip as [|d ip']; [reflexivity|].
    change (List.map to_ascii (d :: ip')) with (to_ascii d :: List.map to_ascii ip').
    cbv beta iota. cbn [take_exponent].
    change (to_ascii d :: List.map to_ascii ip') with (List.map to_ascii (d :: ip')).
    rewrite (digits_value_map Dip). reflexivity.
  - inversion H1 as [|? ? Hc Hr2]; subst.
    destruct (price_char_ascii c Hc) as (_ & _ & E46 & _).
    change (List.map to_ascii (c :: r2)) with (to_ascii c :: List.map to_ascii r2).
    cbv beta iota. rewrite E46. unfold dot.
    destruct (c =? 46) eqn:C.
    + rewrite (span_digits_map Hr2).
      destruct (span_spec isdecimal r2) as [Er2 _].
      pose proof (span_decimal r2) as Dfp.
      destruct (span isdecimal r2) as [fp r3]. cbn [fst snd] in *.
      assert (H3 : Forall (fun c => price_char c = true) r3).
      { rewrite Er2 in Hr2. apply Forall_app in Hr2. tauto. }
      rewrite <- map_app.
      assert (Dall : Forall (fun c => isdecimal c = true) (ip ++ fp))
        by (apply Forall_app; auto).
      destruct (ip ++ fp) as [|d l].
      * simpl. now destruct r3.
      * change (List.map to_ascii (d :: l)) with (to_ascii d :: List.map to_ascii l).
        cbv beta iota. rewrite (plain_take_exponent (Forall_plain H3)).
        change (to_ascii d :: List.map to_ascii l) with (List.map to_ascii (d :: l)).
        rewrite (digits_value_map Dall), length_map.
        destruct r3 as [|c3 r3']; [|reflexivity].
        reflexivity.
    + rewrite app_nil_r.
      destruct ip as [|d ip']; [reflexivity|].
      change (List.map to_ascii (d :: ip')) with (to_ascii d :: List.map to_ascii ip').
      cbv beta iota.
      change (to_ascii c :: List.map to_ascii r2) with (List.map to_ascii (c :: r2)).
      rewrite (plain_take_exponent (Forall_plain H1)). reflexivity.
Qed.

Lemma replace_nil (c : char) (l : str) :
  replace c [] l = filter (fun x => negb (N.eqb x c)) l.
Proof.
  unfold replace. induction l as [|x l IH]; simpl; [reflexivity|].
  destruct (N.eqb x c); simpl; now rewrite IH.
Qed.

Lemma cleaned_chars (s : str) :
  Forall (fun c => price_char c = true)
    (filter (fun c => negb (N.eqb c comma))
       (filter (fun c => isdigit c || N.eqb c dot || N.eqb c comma) s)).
Proof.
  apply Forall_forall. intros c Hc.
  apply filter_In in Hc as [Hc Hn]. apply filter_In in Hc as [_ Hk].
  apply negb_true_iff in Hn. rewrite Hn, orb_false_r in Hk. exact Hk.
Qed.

(** C2.  [_extract_price] is parsePrice as the specification words it:
    unknown on the empty text; otherwise the digits, points and commas
    are kept, the commas dropped, and what is left is read as a decimal
    number, unknown when it is not one.  It never raises.  "$1,234.56"
    gives the float nearest to 1234.56; "", "N/A" and "1.2.3" give
    unknown. *)
Theorem extract_price_parsePrice (price_text : str) :
  _extract_price price_text = Ok (parsePrice price_text)
  /\ _extract_price (lit "$1,234.56")
     = Ok (Some (S754_finite false 5429652300748554 (-42)))
  /\ (Z.abs (100 * 5429652300748554 - 123456 * 2 ^ 42) <= 50)%Z
  /\ _extract_price (lit "") = Ok None
  /\ _extract_price (lit "N/A") = Ok None
  /\ _extract_price (lit "1.2.3") = Ok None.
Proof.
  split; [|repeat split; vm_compute; congruence].
  unfold _extract_price, parsePrice, join_filter.
  destruct price_text as [|c s]; [reflexivity|].
  cbn [truthy negb]. rewrite replace_nil.
  rewrite (float_of_str_cleaned (cleaned_chars (c :: s))).
  now destruct (decimal_number _).
Qed.

End ParsePrice.

(** ** Trimmed text *)

Section Trimming.
Import Notions.

Lemma lstrip_suffix (s : str) :
  exists ws, s = ws ++ lstrip s /\ Forall (fun c => isspace c = true) ws.
Proof.
  induction s as [|c s (ws & E & F)]; simpl.
  - exists []. auto.
  - destruct (isspace c) eqn:Hc.
    + exists (c :: ws). split; [simpl; congruence | now constructor].
    + exists []. auto.
Qed.

Lemma lstrip_head (s : str) :
  match lstrip s with
  | [] => True
  | c :: _ => isspace c = false
  end.
Proof.
  induction s as [|c s IH]; simpl; [exact I|].
  destruct (isspace c) eqn:Hc; [exact IH | exact Hc].
Qed.

Lemma rstrip_prefix (s : str) :
  exists ws, s = rstrip s ++ ws /\ Forall (fun c => isspace c = true) ws.
Proof.
  unfold rstrip. destruct (lstrip_suffix (rev s)) as (ws & E & F).
  exists (rev ws). split; [|now apply Forall_rev].
  rewrite <- rev_app_distr, <- E. now rewrite rev_involutive.
Qed.

Lemma rstrip_last (s : str) (d : char) :
  match rstrip s with
  | [] => True
  | _ :: _ => isspace (last (rstrip s) d) = false
  end.
Proof.
  unfold rstrip. pose proof (lstrip_head (rev s)) as H.
  destruct (lstrip (rev s)) as [|c t]; [exact I|].
  simpl rev. destruct (rev t ++ [c]) eqn:E.
  - now destruct (rev t).
  - rewrite <- E. now rewrite last_last.
Qed.

(** [strip] takes white space off both ends and nothing else. *)
Lemma strip_spec (s : str) :
  trimmed (strip s)
  /\ exists a b, s = a ++ strip s ++ b
                 /\ Forall (fun c => isspace c = true) a
                 /\ Forall (fun c => isspace c = true) b.
Proof.
  unfold strip. split.
  - unfold trimmed.
    destruct (rstrip_prefix (lstrip s)) as (ws & E & F).
    pose proof (lstrip_head s) as Hh.
    pose proof (rstrip_last (lstrip s)) as Hl.
    destruct (rstrip (lstrip s)) as [|c t] eqn:R; [exact I|].
    rewrite E in Hh. simpl in Hh. split; [exact Hh | apply Hl].
  - destruct (lstrip_suffix s) as (a & Ea & Fa).
    destruct (rstrip_prefix (lstrip s)) as (b & Eb & Fb).
    exists a, b. split; [|auto]. now rewrite <- Eb.
Qed.

End Trimming.

(** ** What a site parser does and returns *)

Section ParserRuns.
Import Soup WebScraper Parts Notions Outcome Trace.

Lemma amazon_item_reads_clock_once (base_url : str) :
  reads_clock_once amazon_record (amazon_item base_url).
Proof.
  unfold reads_clock_once. intros item w. rewrite amazon_item_equation.
  destruct (select_one amazon_name item) as [name_elem|]; [|reflexivity].
  destruct (match select_one amazon_price item with
            | Some e => _ | None => _ end); [|reflexivity].
  destruct (match select_one amazon_rating item with
            | Some e => _ | None => _ end); [|reflexivity].
  destruct (match select_one amazon_reviews item with
            | Some e => _ | None => _ end); [|reflexivity].
  cbv zeta.
  set (u := match link_href amazon_link item with
            | Some href => _ | None => _ end).
  destruct (truthy (strip (text name_elem))) eqn:Tn; [|exact eq_refl].
  destruct (truthy u) eqn:Tu; [|exact eq_refl].
  simpl andb. cbv iota.
  split; [reflexivity|]. split; [reflexivity|].
  unfold amazon_record. cbn [name url website description availability].
  repeat split; try assumption. apply strip_spec.
Qed.

Lemma ebay_item_reads_clock_once (base_url : str) :
  reads_clock_once ebay_record (ebay_item base_url).
Proof.
  unfold reads_clock_once. intros item w. rewrite ebay_item_equation.
  destruct (select_one ebay_name item) as [name_elem|]; [|reflexivity].
  destruct (PyStr.eqb _ _) eqn:Shop; [reflexivity|].
  destruct (match select_one ebay_price item with
            | Some e => _ | None => _ end); [|reflexivity].
  cbv zeta.
  set (u := match link_href ebay_link item with
            | Some href => _ | None => _ end).
  destruct (truthy (strip (text name_elem))) eqn:Tn; [|exact eq_refl].
  destruct (truthy u) eqn:Tu; [|exact eq_refl].
  simpl andb. cbv iota.
  split; [reflexivity|]. split; [reflexivity|].
  unfold ebay_record.
  cbn [name url website description availability rating num_reviews].
  repeat split; try assumption; try apply strip_spec.
  - now apply str_eqb_neq.
  - destruct (select_one ebay_condition item); [apply strip_spec | exact I].
Qed.

Lemma next_readings_step (w w1 : world) (n : nat) :
  clock w1 = clock w -> readings w1 = S (readings w) ->
  next_readings w (S n) = clock w (readings w) :: next_readings w1 n.
Proof.
  intros Ec Er. unfold next_readings. simpl. now rewrite Ec, Er.
Qed.

Lemma next_readings_same (w w1 : world) (n : nat) :
  clock w1 = clock w -> readings w1 = readings w ->
  next_readings w1 n = next_readings w n.
Proof. intros Ec Er. unfold next_readings. now rewrite Ec, Er. Qed.

Lemma loop_run (P : site_parser) (Q : Product -> Prop) (base_url : str) :
  reads_clock_once Q (item_body P base_url) ->
  forall l acc w,
  exists r,
    for_each_item (item_body P base_url) (on_error P) l acc w
    = (Ok (acc ++ emitted r), after r)
    /\ effects_of P (List.length l) w r
    /\ Forall Q (emitted r).
Proof.
  intros HB. induction l as [|item rest IH]; intros acc w.
  - exists {| emitted := []; errors := []; after := w |}. simpl.
    rewrite !app_nil_r. unfold effects_of, next_readings. simpl.
    rewrite app_nil_r. repeat split; auto.
  - rewrite loop_step. specialize (HB item w).
    destruct (item_body P base_url item w) as [[[p|]|e] w1].
    + destruct HB as (-> & Ht & Hq).
      destruct (IH (acc ++ [p]) (clock_read w)) as (r & E & F & G).
      destruct F as (F1 & F2 & F3 & F4 & F5 & F6 & F7 & F8).
      exists {| emitted := p :: emitted r; errors := errors r; after := after r |}.
      cbn [emitted errors after].
      split; [rewrite E; now rewrite <- app_assoc|].
      split; [|now constructor].
      unfold effects_of. cbn [emitted errors after List.length List.map].
      repeat split; try assumption.
      * rewrite F5. simpl. lia.
      * rewrite F6, Ht. symmetry. now apply next_readings_step.
      * lia.
    + subst w1. destruct (IH acc w) as (r & E & F & G).
      exists r. split; [exact E|]. split; [|exact G].
      unfold effects_of in *. cbn [List.length]. intuition lia.
    + subst w1.
      destruct (IH acc (logged (error_record P e) w)) as (r & E & F & G).
      destruct F as (F1 & F2 & F3 & F4 & F5 & F6 & F7 & F8).
      exists {| emitted := emitted r; errors := e :: errors r; after := after r |}.
      cbn [emitted errors after].
      split; [exact E|]. split; [|exact G].
      unfold effects_of. cbn [emitted errors after List.length List.map].
      repeat split; try assumption.
      * rewrite F7. simpl. now rewrite <- app_assoc.
      * lia.
Qed.

(** The loop returns the records of the outcomes and logs the
    exceptions of the outcomes, each once, in their order. *)
Lemma loop_outcomes (P : site_parser) (Q : Product -> Prop) (base_url : str) :
  reads_clock_once Q (item_body P base_url) ->
  forall l acc w,
  exists w',
    for_each_item (item_body P base_url) (on_error P) l acc w
    = (Ok (acc ++ records_of (outcomes P base_url l w)), w')
    /\ log w' = log w ++ List.map (error_record P)
                           (raised_of (outcomes P base_url l w))
    /\ List.length (outcomes P base_url l w) = List.length l.
Proof.
  intros HB. induction l as [|item rest IH]; intros acc w.
  - exists w. simpl. rewrite !app_nil_r. auto.
  - rewrite loop_step. cbn [outcomes]. specialize (HB item w).
    destruct (item_body P base_url item w) as [[[p|]|e] w1];
      cbn [fst snd records_of raised_of flat_map List.length].
    + destruct HB as (-> & _ & _).
      destruct (IH (acc ++ [p]) (clock_read w)) as (w' & E & L & N).
      exists w'. rewrite E, <- app_assoc. split; [reflexivity|].
      split; [exact L | now rewrite N].
    + subst w1. destruct (IH acc w) as (w' & E & L & N).
      exists w'. split; [exact E|]. split; [exact L | now rewrite N].
    + subst w1.
      destruct (IH acc (logged (error_record P e) w)) as (w' & E & L & N).
      exists w'. split; [exact E|]. split; [|now rewrite N].
      rewrite L. cbn [List.map app]. unfold logged. simpl log.
      now rewrite <- app_assoc.
Qed.

(** X1.  A run of either site parser on a document never raises,
    sends no request and prints nothing.  It returns the records of
    the items whose body emitted one, in the order of the items, and
    logs exactly one record for each item whose body raised, with its
    exception, in the order of the items, and nothing else.  It reads
    the clock exactly once for each record it returns, so that the
    timestamps of the records are successive readings. *)
Theorem site_parser_effects (doc : soup) (base_url : str) (w : world) :
  (let os := outcomes amazon_parser base_url
               (select_all amazon_result doc) w in
   exists w',
     _scrape_amazon (Some doc) base_url w = (Ok (records_of os), w')
     /\ log w' = log w ++ List.map ErrorParsingAmazon (raised_of os)
     /\ List.length os = List.length (select_all amazon_result doc)
     /\ network w' = network w /\ requests w' = requests w
     /\ clock w' = clock w /\ stdout w' = stdout w
     /\ readings w' = (readings w + List.length (records_of os))%nat
     /\ List.map timestamp (records_of os)
        = next_readings w (List.length (records_of os)))
  /\ (let os := outcomes ebay_parser base_url
                  (select_all ebay_result doc) w in
      exists w',
        _scrape_ebay (Some doc) base_url w = (Ok (records_of os), w')
        /\ log w' = log w ++ List.map ErrorParsingEbay (raised_of os)
        /\ List.length os = List.length (select_all ebay_result doc)
        /\ network w' = network w /\ requests w' = requests w
        /\ clock w' = clock w /\ stdout w' = stdout w
        /\ readings w' = (readings w + List.length (records_of os))%nat
        /\ List.map timestamp (records_of os)
           = next_readings w (List.length (records_of os))).
Proof.
  assert (G : forall P Q,
            reads_clock_once Q (item_body P base_url) ->
            let os := outcomes P base_url (select_all (items P) doc) w in
            exists w',
              for_each_item (item_body P base_url) (on_error P)
                (select_all (items P) doc) [] w = (Ok (records_of os), w')
              /\ log w' = log w ++ List.map (error_record P) (raised_of os)
              /\ List.length os = List.length (select_all (items P) doc)
              /\ network w' = network w /\ requests w' = requests w
              /\ clock w' = clock w /\ stdout w' = stdout w
              /\ readings w' = (readings w + List.length (records_of os))%nat
              /\ List.map timestamp (records_of os)
                 = next_readings w (List.length (records_of os))).
  { intros P Q HB os.
    destruct (@loop_outcomes P Q base_url HB (select_all (items P) doc) [] w)
      as (w' & E & L & N).
    destruct (@loop_run P Q base_url HB (select_all (items P) doc) [] w)
      as (r & E' & (F1 & F2 & F3 & F4 & F5 & F6 & _) & _).
    fold os in E, L, N. simpl app in E, E'.
    rewrite E in E'. injection E' as Er Ew.
    exists w'. rewrite Er, Ew.
    repeat split; try assumption; congruence. }
  split.
  - exact (G amazon_parser amazon_record
             (amazon_item_reads_clock_once base_url)).
  - exact (G ebay_parser ebay_record (ebay_item_reads_clock_once base_url)).
Qed.

(** X2.  Every record the Amazon parser returns has a name that is not
    empty and has no white space at either end, a URL that is not
    empty, the website [Amazon] and an empty description and
    availability.  Every record the eBay parser returns has such a
    name, which is not [shop on ebay] in any case of its letters, a URL
    that is not empty, the website [eBay], an availability without
    white space at either end, the rating 0.0 and no reviews. *)
Theorem site_parser_records (doc : soup) (base_url : str) (w : world) :
  Forall amazon_record (records (_scrape_amazon (Some doc) base_url w))
  /\ Forall ebay_record (records (_scrape_ebay (Some doc) base_url w)).
Proof.
  split.
  - destruct (@loop_run amazon_parser amazon_record base_url
                (amazon_item_reads_clock_once base_url)
                (select_all amazon_result doc) [] w) as (r & E & _ & G).
    unfold records, _scrape_amazon.
    change (for_each_item (amazon_item base_url) _ _ [] w)
      with (for_each_item (item_body amazon_parser base_url)
              (on_error amazon_parser) (select_all amazon_result doc) [] w).
    rewrite E. exact G.
  - destruct (@loop_run ebay_parser ebay_record base_url
                (ebay_item_reads_clock_once base_url)
                (select_all ebay_result doc) [] w) as (r & E & _ & G).
    unfold records, _scrape_ebay.
    change (for_each_item (ebay_item base_url) _ _ [] w)
      with (for_each_item (item_body ebay_parser base_url)
              (on_error ebay_parser) (select_all ebay_result doc) [] w).
    rewrite E. exact G.
Qed.

End ParserRuns.

(** ** What a fetch does *)

Section FetchingEffects.
Import Soup WebScraper PriceComparisonTool Parts Notions Outcome.


End FetchingEffects.

(** ** What a search does *)

Section SearchEffects.
Import Soup WebScraper PriceComparisonTool Parts Notions Outcome.

Lemma next_readings_app (w w1 : world) (a b : nat) :
  clock w1 = clock w -> readings w1 = (readings w + a)%nat ->
  next_readings w (a + b) = next_readings w a ++ next_readings w1 b.
Proof.
  intros Ec Er. unfold next_readings.
  now rewrite seq_app, map_app, Ec, Er.
Qed.

(** What one call of [scrape_site] does to the world. *)
Lemma scrape_site_run (url site_name : str) (w : world) :
  exists ps w',
    WebScraper.scrape_site url site_name w = (Ok ps, w')
    /\ requests w' = S (requests w)
    /\ network w' = network w /\ clock w' = clock w
    /\ stdout w' = stdout w
    /\ readings w' = (readings w + List.length ps)%nat
    /\ List.map timestamp ps = next_readings w (List.length ps).
Proof.
  unfold WebScraper.scrape_site, bind. rewrite get_soup_outcome.
  set (w1 := requested url w).
  assert (F1 : requests w1 = S (requests w) /\ network w1 = network w
               /\ clock w1 = clock w /\ stdout w1 = stdout w
               /\ readings w1 = readings w).
  { unfold w1, requested, session_get.
    destruct (network w (requests w) url); simpl; auto. }
  destruct F1 as (R1 & N1 & C1 & S1 & D1).
  assert (Empty : forall r,
            exists ps w',
              (Ok (@nil Product), logged r w1) = (Ok ps, w')
              /\ requests w' = S (requests w)
              /\ network w' = network w /\ clock w' = clock w
              /\ stdout w' = stdout w
              /\ readings w' = (readings w + List.length ps)%nat
              /\ List.map timestamp ps = next_readings w (List.length ps)).
  { intros r. exists [], (logged r w1). simpl.
    repeat split; auto. lia. }
  assert (Run : forall P Q doc,
            reads_clock_once Q (item_body P url) ->
            exists ps w',
              for_each_item (item_body P url) (on_error P)
                (select_all (items P) doc) [] w1 = (Ok ps, w')
              /\ requests w' = S (requests w)
              /\ network w' = network w /\ clock w' = clock w
              /\ stdout w' = stdout w
              /\ readings w' = (readings w + List.length ps)%nat
              /\ List.map timestamp ps = next_readings w (List.length ps)).
  { intros P Q doc HB.
    destruct (@loop_run P Q url HB (select_all (items P) doc) [] w1)
      as (r & E & (G1 & G2 & G3 & G4 & G5 & G6 & _) & _).
    exists (emitted r), (after r). split; [exact E|].
    repeat split; try congruence.
    rewrite G6. now apply next_readings_same. }
  destruct (network w (requests w) url) as [why|st doc]; [apply Empty|].
  destruct ((400 <=? st) && (st <? 600)); [apply Empty|].
  destruct (PyStr.eqb site_name (lit "amazon")).
  - exact (Run amazon_parser amazon_record doc
             (amazon_item_reads_clock_once url)).
  - destruct (PyStr.eqb site_name (lit "ebay")).
    + exact (Run ebay_parser ebay_record doc (ebay_item_reads_clock_once url)).
    + exists [], w1. simpl. repeat split; auto. lia.
Qed.

(** X4.  A search with the configured tool sends exactly two requests,
    prints its three progress lines and no error line, and stamps the
    records with successive readings of the clock. *)
Theorem search_products_effects (query enc : str) (w : world) :
  quote_plus query = Ok enc ->
  exists ps w',
    search_products init query w = (Ok ps, w')
    /\ requests w' = (requests w + 2)%nat
    /\ stdout w'
       = stdout w ++ [Searching; SearchingOn (lit "amazon");
                      SearchingOn (lit "ebay")]
    /\ network w' = network w /\ clock w' = clock w
    /\ readings w' = (readings w + List.length ps)%nat
    /\ List.map timestamp ps = next_readings w (List.length ps).
Proof.
  intros Hq. unfold search_products. rewrite bind_lift, Hq.
  change (exists ps w',
    for_each_site init enc
      [(lit "amazon", [Literal (lit "https://www.amazon.com/s?k="); Field]);
       (lit "ebay",
        [Literal (lit "https://www.ebay.com/sch/i.html?_nkw="); Field])]
      [] (printed_line Searching w) = (Ok ps, w')
    /\ requests w' = (requests w + 2)%nat
    /\ stdout w'
       = stdout w ++ [Searching; SearchingOn (lit "amazon");
                      SearchingOn (lit "ebay")]
    /\ network w' = network w /\ clock w' = clock w
    /\ readings w' = (readings w + List.length ps)%nat
    /\ List.map timestamp ps = next_readings w (List.length ps)).
  rewrite site_step, format_one.
  change (scrape_site (scraper init)) with WebScraper.scrape_site.
  set (w0 := printed_line (SearchingOn (lit "amazon")) (printed_line Searching w)).
  destruct (scrape_site_run (lit "https://www.amazon.com/s?k=" ++ enc)
              (lit "amazon") w0)
    as (A & w1 & EA & A1 & A2 & A3 & A4 & A5 & A6).
  rewrite EA, site_step, format_one.
  change (scrape_site (scraper init)) with WebScraper.scrape_site.
  set (w1' := printed_line (SearchingOn (lit "ebay")) w1).
  destruct (scrape_site_run (lit "https://www.ebay.com/sch/i.html?_nkw=" ++ enc)
              (lit "ebay") w1')
    as (B & w2 & EB & B1 & B2 & B3 & B4 & B5 & B6).
  rewrite EB. exists ([] ++ A ++ B), w2. split; [reflexivity|].
  simpl app. rewrite length_app, map_app.
  assert (W0 : requests w0 = requests w /\ network w0 = network w
               /\ clock w0 = clock w /\ readings w0 = readings w
               /\ stdout w0 = stdout w ++ [Searching; SearchingOn (lit "amazon")]).
  { unfold w0, printed_line. simpl. repeat split.
    now rewrite <- app_assoc. }
  destruct W0 as (Z1 & Z2 & Z3 & Z4 & Z5).
  assert (W1 : requests w1' = requests w1 /\ network w1' = network w1
               /\ clock w1' = clock w1 /\ readings w1' = readings w1
               /\ stdout w1' = stdout w1 ++ [SearchingOn (lit "ebay")]).
  { unfold w1', printed_line. simpl. repeat split. }
  destruct W1 as (Y1 & Y2 & Y3 & Y4 & Y5).
  repeat split.
  - lia.
  - rewrite B4, Y5, A4, Z5. now rewrite <- app_assoc.
  - congruence.
  - congruence.
  - lia.
  - rewrite A6, B6.
    rewrite (@next_readings_same w w0) by assumption.
    rewrite (@next_readings_app w w1' (List.length A) (List.length B));
      [reflexivity | congruence | lia].
Qed.

End SearchEffects.

(** ** The sign and the characters of a price *)

Section PriceSign.
Import WebScraper Spec Parts Prices.

Lemma shr_1_nonneg (mrs : shr_record) :
  0 <= shr_m mrs -> 0 <= shr_m (shr_1 mrs).
Proof.
  destruct mrs as [m r s]. simpl.
  destruct m as [|[p|p|]|[p|p|]]; simpl; lia.
Qed.

Lemma iter_pos_nonneg (n : positive) (mrs : shr_record) :
  0 <= shr_m mrs -> 0 <= shr_m (iter_pos shr_1 n mrs).
Proof.
  revert mrs. induction n as [n IH|n IH|]; intros mrs H; simpl.
  - apply IH, IH, shr_1_nonneg, H.
  - apply IH, IH, H.
  - apply shr_1_nonneg, H.
Qed.

Lemma shr_fexp_nonneg (m e : Z) (l : location) :
  0 <= m -> 0 <= shr_m (fst (shr_fexp prec emax m e l)).
Proof.
  intros H. unfold shr_fexp, shr.
  assert (H0 : 0 <= shr_m (shr_record_of_loc m l))
    by (destruct l as [|[]]; exact H).
  destruct (fexp prec emax (Zdigits2 m + e) - e) as [|p|p]; simpl;
    auto using iter_pos_nonneg.
Qed.

Lemma round_nearest_even_nonneg (m : Z) (l : location) :
  0 <= m -> 0 <= round_nearest_even m l.
Proof.
  intros H. destruct l as [|[]]; simpl; try lia.
  destruct (Z.even m); lia.
Qed.

Lemma binary_round_aux_non_negative (m e : Z) (l : location) :
  0 <= m -> non_negative (binary_round_aux prec emax false m e l).
Proof.
  intros H. unfold binary_round_aux.
  pose proof (shr_fexp_nonneg e l H) as H1.
  destruct (shr_fexp prec emax m e l) as [mrs' e']. simpl in H1.
  pose proof (shr_fexp_nonneg e' loc_Exact
                (round_nearest_even_nonneg (loc_of_shr_record mrs') H1)) as H2.
  destruct (shr_fexp prec emax _ e' loc_Exact) as [mrs'' e'']. simpl in H2.
  destruct (shr_m mrs'') as [|p|p]; simpl; [exact I| |lia].
  destruct (_ <=? _); exact I.
Qed.

Lemma decimal_to_binary64_non_negative (d : N) (e : Z) :
  non_negative (decimal_to_binary64 false d e).
Proof.
  unfold decimal_to_binary64. destruct d as [|p]; [exact I|].
  destruct (0 <=? e) eqn:E.
  - apply Z.leb_le in E. unfold cond_Zopp.
    assert (P : 0 < Z.pos p * 10 ^ e) by (apply Z.mul_pos_pos; lia).
    remember (Z.pos p * 10 ^ e) as z eqn:Ez. clear Ez.
    destruct z as [|q|q]; try lia.
    unfold binary_normalize, binary_round.
    destruct (shl_align _ _ _) as [mz ez].
    apply binary_round_aux_non_negative. lia.
  - apply Z.leb_gt in E. unfold SFdiv_core_binary.
    set (e' := Z.min _ _). set (m' := match 0 - 0 - e' with
                                       | 0 => Z.pos p
                                       | Z.pos _ => Z.shiftl (Z.pos p) (0 - 0 - e')
                                       | Z.neg _ => 0
                                       end).
    assert (M : 0 <= m').
    { unfold m'. destruct (0 - 0 - e'); try lia.
      apply Z.shiftl_nonneg. lia. }
    assert (T : 0 < 10 ^ (- e)) by (apply Z.pow_pos_nonneg; lia).
    pose proof (Z.div_pos _ _ M T) as Q. unfold Z.div in Q.
    destruct (Z.div_eucl m' (10 ^ (- e))) as [q r].
    now apply binary_round_aux_non_negative.
Qed.

Lemma decimal_number_non_negative (r : str) (x : pyfloat) :
  decimal_number r = Some x -> non_negative x.
Proof.
  unfold decimal_number.
  destruct (span isdecimal r) as [ip r1].
  assert (W : forall fp,
            match ip ++ fp with
            | [] => None
            | c :: l => Some (decimal_to_binary64 false (number (c :: l))
                               (- Z.of_nat (List.length fp)))
            end = Some x -> non_negative x).
  { intros fp. destruct (ip ++ fp); [discriminate|].
    intros H. injection H as <-. apply decimal_to_binary64_non_negative. }
  destruct r1 as [|c r2]; [apply W|].
  destruct (N.eqb c dot); [|discriminate].
  destruct (span isdecimal r2) as [fp [|c3 r3]]; [apply W | discriminate].
Qed.

Lemma isdigit_comma : isdigit comma = false.
Proof. vm_compute. reflexivity. Qed.

Lemma cleaned_is_filter (s : str) :
  replace comma []
    (join_filter (fun c => isdigit c || N.eqb c dot || N.eqb c comma) s)
  = filter price_char s.
Proof.
  rewrite replace_nil. unfold join_filter.
  induction s as [|c s IH]; [reflexivity|]. simpl.
  unfold price_char at 1.
  destruct (N.eqb_spec c comma) as [->|Hc].
  - rewrite isdigit_comma. simpl. exact IH.
  - rewrite orb_false_r.
    destruct (isdigit c || N.eqb c dot); simpl; [|exact IH].
    apply N.eqb_neq in Hc. rewrite Hc. simpl. now rewrite IH.
Qed.

Lemma filter_price_char (s : str) :
  Forall (fun c => price_char c = true) (filter price_char s).
Proof. apply Forall_forall. intros c H. now apply filter_In in H. Qed.

Lemma extract_price_by_digits (s : str) :
  _extract_price s
  = match s with
    | [] => Ok None
    | _ => Ok (decimal_number (filter price_char s))
    end.
Proof.
  unfold _extract_price. destruct s as [|c s]; [reflexivity|].
  cbn [truthy negb]. rewrite cleaned_is_filter.
  rewrite (float_of_str_cleaned (filter_price_char (c :: s))).
  now destruct (decimal_number _).
Qed.

(** X5.  [_extract_price] reads nothing but the digits and points of
    the text, in their order: every other character (a currency sign,
    a minus sign, a letter, a blank, a comma) can be taken out without
    changing the result.  A price it returns is never negative and
    never a NaN. *)
Theorem extract_price_digits_and_points (s : str) :
  _extract_price s = _extract_price (filter price_char s)
  /\ forall x, _extract_price s = Ok (Some x) -> non_negative x.
Proof.
  split.
  - rewrite !extract_price_by_digits.
    rewrite (filter_twice price_char).
    destruct s as [|c s]; [reflexivity|].
    destruct (filter price_char (c :: s)) eqn:E; reflexivity.
  - intros x. rewrite extract_price_by_digits.
    destruct s as [|c s]; [discriminate|].
    intros H. injection H as H. now apply decimal_number_non_negative in H.
Qed.

End PriceSign.

(** ** Links and ratings *)

Section EmptyLink.
Import Soup WebScraper Parts.

(** X6.  An eBay item whose link carries an empty [href] is dropped
    without a record and without a log line: the empty URL is not
    replaced by the URL of the search page.  The record of an Amazon
    item with an empty [href] has the bare origin as its URL. *)
Theorem empty_href (base_url : str) (item : element) (w : world) :
  (link_href ebay_link item = Some [] ->
   ebay_item base_url item w = (Ok None, w))
  /\ (link_href amazon_link item = Some [] ->
      forall p w',
        amazon_item base_url item w = (Ok (Some p), w') ->
        url p = lit "https://www.amazon.com").
Proof.
  split.
  - intros H. rewrite ebay_item_equation, H.
    destruct (select_one ebay_name item) as [name_elem|]; [|reflexivity].
    destruct (PyStr.eqb _ _); [reflexivity|].
    destruct (optional_price_total (select_one ebay_price item)) as [o ->].
    cbv zeta. cbn [truthy]. now rewrite andb_false_r.
  - intros H p w'. rewrite amazon_item_equation, H.
    destruct (select_one amazon_name item); [|discriminate].
    destruct (match select_one amazon_price item with
              | Some e => _ | None => _ end); [|discriminate].
    destruct (match select_one amazon_rating item with
              | Some e => _ | None => _ end); [|discriminate].
    destruct (match select_one amazon_reviews item with
              | Some e => _ | None => _ end); [|discriminate].
    cbv zeta. destruct (_ && _); [|discriminate].
    intros E. injection E as <- _. reflexivity.
Qed.

End EmptyLink.

Section RatingText.
Import WebScraper.

Lemma split_go_nil (cur s : str) :
  split_go cur s = [] <-> cur = [] /\ forallb isspace s = true.
Proof.
  revert cur. induction s as [|c s IH]; intros cur; simpl.
  - destruct cur; split; intros H; try discriminate; auto.
    destruct H; discriminate.
  - destruct (isspace c) eqn:Hc; simpl.
    + destruct cur.
      * apply IH.
      * split; [discriminate | intros [H _]; discriminate].
    + rewrite IH. split; [intros [H _]; discriminate | intros [_ H]; discriminate].
Qed.

Lemma split_go_token (tok rest cur : str) (c : char) :
  Forall (fun x => isspace x = false) tok -> isspace c = true ->
  split_go cur (tok ++ c :: rest)
  = match rev cur ++ tok with
    | [] => split_go [] rest
    | t => t :: split_go [] rest
    end.
Proof.
  intros Ht Hc. revert cur.
  induction Ht as [|x tok Hx Ht IH]; intros cur; simpl.
  - rewrite Hc, app_nil_r. destruct cur as [|y cur]; [reflexivity|].
    simpl. destruct (rev cur ++ [y]) eqn:E; [|reflexivity].
    now destruct (rev cur).
  - rewrite Hx, IH. simpl. now rewrite <- app_assoc.
Qed.

Lemma split_go_lstrip (ws s : str) :
  Forall (fun x => isspace x = true) ws ->
  split_go [] (ws ++ s) = split_go [] s.
Proof.
  induction 1 as [|x ws Hx Hws IH]; simpl; [reflexivity|].
  now rewrite Hx.
Qed.

Lemma rev_snoc_cons (cur tok : str) (y : char) :
  match rev (y :: cur) ++ tok with
  | [] => False
  | _ :: _ => True
  end.
Proof.
  simpl. destruct (rev cur); exact I.
Qed.

Lemma split_go_run (tok cur : str) :
  Forall (fun x => isspace x = false) tok ->
  split_go cur tok
  = match rev cur ++ tok with
    | [] => []
    | t => [t]
    end.
Proof.
  intros Ht. revert cur.
  induction Ht as [|x tok Hx Ht IH]; intros cur; simpl.
  - rewrite app_nil_r. destruct cur as [|y cur]; [reflexivity|].
    simpl. destruct (rev cur ++ [y]) eqn:E; [|reflexivity].
    now destruct (rev cur).
  - rewrite Hx, IH. simpl. now rewrite <- app_assoc.
Qed.

(** X7.  The rating of an Amazon item is read from the first
    blank-separated token of its text alone: white space before it and
    everything after it are ignored.  A text that is empty or all
    white space raises [IndexError], and no other text does. *)
Theorem rating_first_token (ws tok rest text : str) (c : char) :
  (Forall (fun x => isspace x = true) ws ->
   Forall (fun x => isspace x = false) tok -> tok <> [] ->
   isspace c = true ->
   rating_value (ws ++ tok ++ c :: rest) = float_of_str tok
   /\ rating_value (ws ++ tok) = float_of_str tok)
  /\ (rating_value text = Raise IndexError <-> forallb isspace text = true).
Proof.
  split.
  - intros Hws Htok Hne Hc. unfold rating_value, split. split.
    + rewrite (@split_go_lstrip ws _ Hws), (@split_go_token tok rest [] c Htok Hc).
      simpl. destruct tok; [contradiction | reflexivity].
    + rewrite (@split_go_lstrip ws _ Hws), (@split_go_run tok [] Htok).
      simpl. destruct tok; [contradiction | reflexivity].
  - unfold rating_value, split.
    destruct (split_go [] text) as [|t l] eqn:E; simpl.
    + split; [intros _ | reflexivity].
      now apply split_go_nil in E.
    + split.
      * intros H. apply float_of_str_raises in H. discriminate H.
      * intros H. assert (F : split_go [] text = []) by now apply split_go_nil.
        rewrite F in E. discriminate.
Qed.

End RatingText.

(** ** The constraints of the table *)

Section StoreInvariant.
Import DatabaseManager StoreFacts.

Lemma same_key_iff (n w : str) (t : datetime) (r : row) :
  same_key n w t r = true <-> key_of r = (n, w, t).
Proof.
  unfold same_key, key_of.
  rewrite !andb_true_iff, !str_eqb_eq, N.eqb_eq.
  split; [intros [[-> ->] ->]; reflexivity | intros E; injection E; auto].
Qed.

Lemma next_id_above (db : table) (r : row) : In r db -> id r < next_id db.
Proof.
  unfold next_id. induction db as [|x db IH]; simpl; [contradiction|].
  intros [->|H]; [lia|]. specialize (IH H). lia.
Qed.

Lemma NoDup_map_filter (A B : Type) (f : A -> B) (g : A -> bool) (l : list A) :
  NoDup (List.map f l) -> NoDup (List.map f (filter g l)).
Proof.
  induction l as [|x l IH]; simpl; [auto|].
  intros H. inversion H as [|? ? Hx Hl]; subst.
  destruct (g x); simpl; [|auto].
  constructor; [|auto].
  intros Hin. apply Hx. apply in_map_iff in Hin as [y [E Hy]].
  apply filter_In in Hy as [Hy _]. rewrite <- E. now apply in_map.
Qed.

Lemma NoDup_snoc (A : Type) (l : list A) (x : A) :
  NoDup l -> ~ In x l -> NoDup (l ++ [x]).
Proof.
  intros Hl Hx. apply NoDup_app; [assumption | repeat constructor; auto |].
  intros a Ha [<-|[]]. contradiction.
Qed.

Lemma save_product_well_keyed (db : table) (p : Product) :
  well_keyed db -> well_keyed (save_product db p).
Proof.
  intros [Hk Hi]. unfold save_product.
  destruct (negb (truthy (name p)) || is_none (price p)); [now split|].
  split; rewrite map_app; simpl; apply NoDup_snoc.
  - now apply NoDup_map_filter.
  - intros Hin. apply in_map_iff in Hin as [r [E Hr]].
    apply filter_In in Hr as [_ Hr].
    change (key_of r = (name p, website p, timestamp p)) in E.
    apply same_key_iff in E. now rewrite E in Hr.
  - now apply NoDup_map_filter.
  - intros Hin. apply in_map_iff in Hin as [r [E Hr]].
    apply filter_In in Hr as [Hr _].
    apply next_id_above in Hr. lia.
Qed.

Lemma save_all_well_keyed (ps : list Product) (db : table) :
  well_keyed db -> well_keyed (PriceComparisonTool.save_all db ps).
Proof.
  unfold PriceComparisonTool.save_all.
  revert db. induction ps as [|p ps IH]; intros db H; simpl; [assumption|].
  apply IH. destruct (negb (is_none (price p))); [|assumption].
  now apply save_product_well_keyed.
Qed.

(** X8.  The table never holds two rows with the same name, website
    and timestamp, nor two rows with the same rowid: this holds of the
    table [setup_database] creates and is kept by [save_product] and by
    the loop of [main] that stores a search. *)
Theorem store_keeps_keys_unique (db : table) (p : Product)
    (ps : list Product) :
  well_keyed (setup_database None)
  /\ (well_keyed db ->
      well_keyed (save_product db p)
      /\ well_keyed (PriceComparisonTool.save_all db ps)).
Proof.
  split; [split; constructor|].
  intros H. split;
    [now apply save_product_well_keyed | now apply save_all_well_keyed].
Qed.

End StoreInvariant.

Section RoundTrip.
Import DatabaseManager StoreFacts.

Lemma like_itself_prefix (s : str) : like (s ++ [percent]) s = true.
Proof.
  induction s as [|c s IH]; [reflexivity|].
  simpl app. destruct (N.eqb c percent) eqn:E.
  - apply N.eqb_eq in E. subst c.
    rewrite like_percent. apply orb_true_iff. right.
    rewrite like_percent. change ((percent :: s) ++ [percent])
      with (percent :: s ++ [percent]) in *.
    rewrite IH. reflexivity.
  - rewrite like_plain by assumption. rewrite N.eqb_refl, orb_true_r. exact IH.
Qed.

Lemma like_itself (s : str) : like (lit "%" ++ s ++ lit "%") s = true.
Proof.
  change (lit "%" ++ s ++ lit "%") with (percent :: s ++ [percent]).
  rewrite like_percent, like_itself_prefix. reflexivity.
Qed.

Lemma in_get_price_history (db : table) (q : str)
    (t : str * option pyfloat * datetime * str) :
  In t (get_price_history db q)
  <-> exists r, In r db /\ history_where q r = true /\ t = history_columns r.
Proof.
  unfold get_price_history. rewrite in_map_iff. split.
  - intros [r [E H]]. exists r.
    apply (Permutation_in _ (Permutation_sym (stable_sort_perm _ _))) in H.
    apply filter_In in H as [H1 H2]. auto.
  - intros [r [H1 [H2 E]]]. exists r. split; [auto|].
    apply (Permutation_in _ (stable_sort_perm _ _)).
    apply filter_In. auto.
Qed.

Lemma history_where_all (r : row) : history_where [] r = priced r.
Proof.
  unfold history_where, priced.
  change (lit "%" ++ [] ++ lit "%") with (percent :: [percent]).
  now rewrite like_percent, like_percent_only.
Qed.

(** X9.  Every entry [get_price_history] returns comes from a stored
    row whose name matches the pattern and whose price is not NULL: a
    row saved with a NaN price never shows.  The empty name matches
    every row: the history is then all the priced rows. *)
Theorem history_only_priced (db : table) (q : str) :
  (forall t, In t (get_price_history db q) ->
     exists r, In r db /\ t = history_columns r /\ r_price r <> None
               /\ like (lit "%" ++ q ++ lit "%") (r_name r) = true)
  /\ (forall p, price p = Some S754_nan ->
        forall t, In t (get_price_history (save_product db p) q) ->
          exists r, In r db /\ t = history_columns r)
  /\ Permutation (List.map history_columns (filter priced db))
                 (get_price_history db [])
  /\ Sorted Spec.newer_or_same (get_price_history db q)
  /\ (List.length (get_price_history db q) <= List.length db)%nat.
Proof.
  split; [|split; [|split; [|split]]].
  - intros t H. apply in_get_price_history in H as [r [H1 [H2 E]]].
    exists r. unfold history_where in H2.
    apply andb_true_iff in H2 as [H2 H3].
    repeat split; auto. destruct (r_price r); congruence.
  - intros p Hp t H. apply in_get_price_history in H as [r [H1 [H2 E]]].
    exists r. split; [|assumption].
    unfold save_product in H1.
    destruct (negb (truthy (name p)) || is_none (price p)); [assumption|].
    apply in_app_or in H1 as [H1|[<-|[]]].
    + now apply filter_In in H1.
    + unfold history_where in H2. simpl in H2. rewrite Hp in H2. simpl in H2.
      now rewrite andb_false_r in H2.
  - unfold get_price_history. apply Permutation_map.
    rewrite (filter_ext (history_where []) priced history_where_all).
    apply stable_sort_perm.
  - unfold get_price_history.
    apply Sorted_map with (R := fun a b => (r_timestamp b <= r_timestamp a)%N).
    + intros a b Hab. exact Hab.
    + apply stable_sort_sorted with (ok := fun _ => True).
      * intros a b _ _ E. apply N.ltb_lt in E. lia.
      * intros a b _ _ E. apply N.ltb_ge in E. exact E.
      * apply Forall_forall. trivial.
  - unfold get_price_history. rewrite length_map.
    rewrite <- (Permutation_length (stable_sort_perm _ _)).
    apply filter_length_le.
Qed.

End RoundTrip.

Section Storing.
Import DatabaseManager StoreFacts.

Lemma save_product_keeps_keys (db : table) (p : Product) (r : row) :
  In r db -> exists r', In r' (save_product db p) /\ key_of r' = key_of r.
Proof.
  intros H. unfold save_product.
  destruct (negb (truthy (name p)) || is_none (price p)); [eauto|].
  destruct (same_key (name p) (website p) (timestamp p) r) eqn:E.
  - exists (row_of_product (next_id db) p). split.
    + apply in_or_app. right. now left.
    + apply same_key_iff in E. now rewrite E.
  - exists r. split; [|reflexivity].
    apply in_or_app. left. apply filter_In. now rewrite E.
Qed.

Lemma save_all_keeps_keys (ps : list Product) (db : table) (r : row) :
  In r db ->
  exists r', In r' (PriceComparisonTool.save_all db ps) /\ key_of r' = key_of r.
Proof.
  unfold PriceComparisonTool.save_all.
  revert db r. induction ps as [|p ps IH]; intros db r H; simpl; [eauto|].
  destruct (negb (is_none (price p))).
  - destruct (save_product_keeps_keys db p r H) as [r1 [H1 E1]].
    destruct (IH _ _ H1) as [r2 [H2 E2]]. exists r2. split; congruence.
  - now apply IH.
Qed.

End Storing.

(** ** The three cases of a listing *)

Section Listing.
Import DatabaseManager PriceComparisonTool.

Lemma valid_products_nil (products : list Product) :
  valid_products products = [] <-> Forall (fun p => price p = None) products.
Proof.
  unfold valid_products. induction products as [|p l IH]; simpl.
  - split; constructor.
  - destruct (price p) eqn:E; simpl.
    + split; [discriminate | intros H; inversion H; congruence].
    + rewrite IH. split; [now constructor | intros H; now inversion H].
Qed.

(** X10.  [display_results] tells three cases apart: no record at all;
    records of which none has a price; and otherwise a listing, which
    is never empty, holds each record that has a price as many times
    as the search returned it, and holds no record without a price. *)
Theorem display_results_cases (products : list Product) :
  match display_results products with
  | NoProductsFound => products = []
  | NoValidPrices =>
      products <> [] /\ Forall (fun p => price p = None) products
  | Results listing =>
      listing <> []
      /\ Permutation (valid_products products) listing
      /\ Forall (fun p => price p <> None) listing
      /\ (List.length listing <= List.length products)%nat
  end.
Proof.
  unfold display_results.
  destruct products as [|p0 l]; [reflexivity|].
  set (products := p0 :: l). cbv zeta.
  destruct (valid_products products) as [|v valid] eqn:E.
  - split; [discriminate | now apply valid_products_nil].
  - assert (P : Permutation (v :: valid) (sorted_products (v :: valid)))
      by apply stable_sort_perm.
    repeat split.
    + intros Hnil. rewrite Hnil in P. apply Permutation_sym, Permutation_nil in P. discriminate P.
    + exact P.
    + apply Forall_forall. intros p Hp.
      apply (Permutation_in _ (Permutation_sym P)) in Hp.
      rewrite <- E in Hp. now apply valid_products_spec in Hp.
    + rewrite <- (Permutation_length P), <- E.
      unfold valid_products. apply filter_length_le.
Qed.

End Listing.

(** ** The offer of the best deals *)

Ltac step :=
  cbn [Console.world_of Console.table_of Console.stdin Console.terminal
       Console.opened fst snd].

Section Terminal.
Import DatabaseManager StoreFacts Console Dialogue.
Local Open Scope console_scope.

Lemma for_each_numbered_show (f : nat -> Product -> event)
    (l : list Product) (i : nat) (s : session) :
  for_each_numbered (fun i product => show (f i product)) i l s
  = (Done tt,
     {| world_of := world_of s; table_of := table_of s; stdin := stdin s;
        terminal := terminal s ++ entries f i l; opened := opened s |}).
Proof.
  revert i s. induction l as [|p l IH]; intros i s; simpl.
  - unfold ret. rewrite app_nil_r. now destruct s.
  - unfold bind, show at 1. rewrite IH. simpl. now rewrite <- app_assoc.
Qed.

Lemma for_each_open (l : list Product) (s : session) :
  for_each (fun product => webbrowser_open (url product)) l s
  = (Done tt,
     {| world_of := world_of s; table_of := table_of s; stdin := stdin s;
        terminal := terminal s; opened := opened s ++ List.map url l |}).
Proof.
  revert s. induction l as [|p l IH]; intros s; simpl.
  - unfold ret. rewrite app_nil_r. now destruct s.
  - unfold bind, webbrowser_open at 1. rewrite IH. simpl.
    now rewrite <- app_assoc.
Qed.

(** The dialogue of [offer_best_deals], for whatever is to be shown
    of its outcome. *)
Lemma deals_dialogue (top : list Product) (s : session)
    (P : outcome unit * session -> Prop) :
  (forall res keys shown opened',
     opened' = opened s ++ match stdin s with
                           | Line first :: Line second :: _ =>
                               if PyStr.eqb (lower first) (lit "y")
                                  && PyStr.eqb (lower second) (lit "y")
                               then List.map url top else []
                           | _ => []
                           end ->
     res = Done tt \/ res = Raised KeyboardInterrupt ->
     (List.length keys <= List.length (stdin s))%nat ->
     P (res,
        {| world_of := world_of s; table_of := table_of s; stdin := keys;
           terminal := shown; opened := opened' |})) ->
  P (try_except
       (choice <- input SeeTopDeals ;;
        if PyStr.eqb (lower choice) (lit "y")
        then
          clear_terminal ;;;
          show DealsHeader ;;;
          for_each_numbered (fun i product => show (DealEntry i product)) 1
            top ;;;
          choice <- input OpenInBrowser ;;
          if PyStr.eqb (lower choice) (lit "y")
          then for_each (fun product => webbrowser_open (url product)) top
          else ret tt
        else ret tt)
       (fun e => show (ErrorDisplayingDeals e)) s).
Proof.
  intros H. destruct s as [w t keys term o].
  remember (lit "y") as y eqn:Ey. clear Ey.
  cbn [world_of table_of stdin terminal opened] in H.
  assert (F : forall res keys' shown opened',
            opened' = o ++ match keys with
                           | Line first :: Line second :: _ =>
                               if PyStr.eqb (lower first) y
                                  && PyStr.eqb (lower second) y
                               then List.map url top else []
                           | _ => []
                           end ->
            res = Done tt \/ res = Raised KeyboardInterrupt ->
            (List.length keys' <= List.length keys)%nat ->
            P (res,
               {| world_of := w; table_of := t; stdin := keys';
                  terminal := shown; opened := opened' |})) by exact H.
  clear H.
  unfold try_except. unfold bind at 1. unfold input at 1. step.
  destruct keys as [|[first| |] rest]; step;
    try (unfold show; step; apply F;
         [now rewrite app_nil_r | auto | simpl; lia]; fail).
  destruct (PyStr.eqb (lower first) y); step;
    [|unfold ret; apply F;
      [destruct rest as [|[]]; now rewrite app_nil_r | auto | simpl; lia]].
  unfold bind at 1, clear_terminal, show at 1. step.
  unfold bind at 1, show at 1. step. unfold bind at 1.
  rewrite (for_each_numbered_show (fun i p => DealEntry i p)).
  step. unfold bind at 1, input at 1. step.
  destruct rest as [|[second| |] rest]; step;
    try (unfold show; step; apply F;
         [now rewrite app_nil_r | auto | simpl; lia]; fail).
  destruct (PyStr.eqb (lower second) y); step.
  - rewrite for_each_open. step. apply F; [reflexivity | auto | simpl; lia].
  - unfold ret. apply F; [now rewrite app_nil_r | auto | simpl; lia].
Qed.

(** X11.  [offer_best_deals] hands URLs to the browser only after both
    of its prompts were answered with [y] or [Y], and then exactly the
    URLs of the first five records, in their order.  It asks nothing
    for an empty list, sends no request, leaves the table alone and
    lets no exception out but [KeyboardInterrupt]. *)
Theorem offer_best_deals_opens (products : list Product) (s : session) :
  let r := offer_best_deals products s in
  opened (snd r)
  = opened s ++ (if agreed products (stdin s)
                 then List.map url (firstn 5 products) else [])
  /\ (List.length (opened (snd r)) <= List.length (opened s) + 5)%nat
  /\ world_of (snd r) = world_of s
  /\ table_of (snd r) = table_of s
  /\ (fst r = Done tt \/ fst r = Raised KeyboardInterrupt)
  /\ (products = [] -> snd r = s).
Proof.
  cbv zeta.
  assert (L : forall b : bool,
            (List.length (opened s ++ (if b then List.map url (firstn 5 products)
                                       else []))
             <= List.length (opened s) + 5)%nat).
  { intros b. rewrite length_app. destruct b; [|simpl; lia].
    rewrite length_map. pose proof (firstn_le_length 5 products).
    assert (List.length (firstn 5 products) <= 5)%nat
      by (rewrite length_firstn; lia). lia. }
  destruct products as [|p0 l].
  - simpl. rewrite app_nil_r. repeat split; auto. lia.
  - set (products := p0 :: l) in *.
    assert (E : offer_best_deals products
                = try_except
                    (choice <- input SeeTopDeals ;;
                     if PyStr.eqb (lower choice) (lit "y")
                     then
                       clear_terminal ;;;
                       show DealsHeader ;;;
                       for_each_numbered
                         (fun i product => show (DealEntry i product)) 1
                         (firstn 5 products) ;;;
                       choice <- input OpenInBrowser ;;
                       if PyStr.eqb (lower choice) (lit "y")
                       then for_each
                              (fun product => webbrowser_open (url product))
                              (firstn 5 products)
                       else ret tt
                     else ret tt)
                    (fun e => show (ErrorDisplayingDeals e)))
      by reflexivity.
    rewrite E. clear E.
    assert (G : forall x : outcome unit * session,
              opened (snd x)
              = opened s ++ (if agreed products (stdin s)
                             then List.map url (firstn 5 products) else []) ->
              world_of (snd x) = world_of s ->
              table_of (snd x) = table_of s ->
              (fst x = Done tt \/ fst x = Raised KeyboardInterrupt) ->
              opened (snd x)
              = opened s ++ (if agreed products (stdin s)
                             then List.map url (firstn 5 products) else [])
              /\ (List.length (opened (snd x)) <= List.length (opened s) + 5)%nat
              /\ world_of (snd x) = world_of s
              /\ table_of (snd x) = table_of s
              /\ (fst x = Done tt \/ fst x = Raised KeyboardInterrupt)
              /\ (products = [] -> snd x = s)).
    { intros x H1 H2 H3 H4. repeat split; auto.
      - rewrite H1. apply L.
      - discriminate. }
    apply deals_dialogue. intros res keys shown opened' D1 D2 _.
    apply G; auto.
    cbn [snd opened]. rewrite D1. unfold agreed, products.
    destruct (stdin s) as [|[first| |] [|[second| |] rest]]; reflexivity.
Qed.

End Terminal.

(** ** Storing a search *)

Section StoringSearch.
Import DatabaseManager StoreFacts Console Dialogue.
Local Open Scope console_scope.

Lemma save_all_stores (ps : list Product) (db : table) (p : Product) :
  In p ps -> truthy (name p) = true -> price p <> None ->
  exists r, In r (PriceComparisonTool.save_all db ps)
            /\ key_of r = product_key p.
Proof.
  revert db. induction ps as [|q ps IH]; intros db [] Hn Hp.
  - subst q.
    assert (H : In (row_of_product (next_id db) p) (save_product db p)).
    { rewrite save_product_valid by assumption.
      apply in_or_app. right. now left. }
    unfold PriceComparisonTool.save_all. simpl.
    destruct (price p) eqn:E; [|contradiction]. simpl.
    rewrite <- E in *.
    destruct (save_all_keeps_keys ps _ _ H) as [r' [H1 H2]].
    exists r'. split; [exact H1|]. rewrite H2. reflexivity.
  - unfold PriceComparisonTool.save_all. simpl. now apply IH.
Qed.

Lemma db_save_product_run (p : Product) (s : session) :
  db_save_product p s
  = if negb (truthy (name p)) || is_none (price p) then (Done tt, s)
    else match bind_parameters p with
         | Some e => (Raised (Error e), s)
         | None =>
             (Done tt,
              {| world_of := world_of s;
                 table_of := save_product (table_of s) p;
                 stdin := stdin s; terminal := terminal s;
                 opened := opened s |})
         end.
Proof. reflexivity. Qed.

Lemma store_search_cons (p : Product) (ps : list Product) (s : session) :
  store_search (p :: ps) s
  = match (if negb (is_none (price p)) then db_save_product p else ret tt) s
    with
    | (Done _, s') => store_search ps s'
    | (Raised r, s') => (Raised r, s')
    end.
Proof. reflexivity. Qed.

(** What the loop that stores a search does, record by record. *)
Lemma store_search_run (ps : list Product) (s : session) :
  exists res done,
    store_search ps s
    = (res,
       {| world_of := world_of s;
          table_of := PriceComparisonTool.save_all (table_of s) done;
          stdin := stdin s; terminal := terminal s; opened := opened s |})
    /\ (exists rest, ps = done ++ rest
          /\ match res with
             | Done _ => rest = []
             | Raised r =>
                 exists p rest', rest = p :: rest' /\ passes p = false
                                 /\ exists e, r = Error e
                                              /\ bind_parameters p = Some e
             end)
    /\ forallb passes done = true.
Proof.
  revert s. induction ps as [|p ps IH]; intros s.
  - exists (Done tt), []. simpl. unfold ret. split; [now destruct s|].
    split; [exists []; auto | reflexivity].
  - rewrite store_search_cons.
    destruct (is_none (price p)) eqn:Ep; cbn [negb].
    + unfold ret at 1. cbv beta iota.
      destruct (IH s) as (res & done & E & (rest & E1 & E2) & E3).
      exists res, (p :: done). rewrite E. split; [|split].
      * unfold PriceComparisonTool.save_all. simpl. now rewrite Ep.
      * exists rest. split; [now rewrite E1 | exact E2].
      * simpl. unfold passes at 1. now rewrite Ep.
    + rewrite db_save_product_run, Ep, orb_false_r.
      destruct (truthy (name p)) eqn:En; cbn [negb].
      * destruct (bind_parameters p) as [e|] eqn:Eb.
        -- exists (Raised (Error e)), []. split; [now destruct s|].
           split; [|reflexivity].
           exists (p :: ps). split; [reflexivity|].
           exists p, ps. split; [reflexivity|]. split.
           ++ unfold passes. now rewrite Ep, En, Eb.
           ++ exists e. auto.
        -- match goal with
           | |- context [store_search ps ?s0] =>
               destruct (IH s0) as (res & done & E & (rest & E1 & E2) & E3)
           end.
           exists res, (p :: done). rewrite E.
           cbn [world_of table_of stdin terminal opened].
           split; [|split].
           ++ unfold PriceComparisonTool.save_all. simpl. rewrite Ep. simpl.
              reflexivity.
           ++ exists rest. split; [now rewrite E1 | exact E2].
           ++ simpl. unfold passes at 1. now rewrite Ep, En, Eb.
      * destruct (IH s) as (res & done & E & (rest & E1 & E2) & E3).
        exists res, (p :: done). rewrite E. split; [|split].
        -- unfold PriceComparisonTool.save_all. simpl. rewrite Ep. simpl.
           replace (save_product (table_of s) p) with (table_of s);
             [reflexivity|].
           unfold save_product. now rewrite En.
        -- exists rest. split; [now rewrite E1 | exact E2].
        -- simpl. unfold passes at 1. now rewrite Ep, En.
Qed.

(** X12.  The loop of [main] that stores a search stores the records in
    their order and stops at the first one whose fields sqlite3 cannot
    bind, raising its exception with the records before it stored.  It
    completes exactly when every record passes; the table is then the
    one [save_product] builds record by record, and holds a row for
    each record that has a name and a price.  Completed or not, it
    loses no key of the table and touches nothing else. *)
Theorem store_search_outcome (ps : list Product) (s : session) :
  let r := store_search ps s in
  world_of (snd r) = world_of s /\ stdin (snd r) = stdin s
  /\ terminal (snd r) = terminal s /\ opened (snd r) = opened s
  /\ (fst r = Done tt <-> forallb passes ps = true)
  /\ (fst r = Done tt ->
      table_of (snd r) = PriceComparisonTool.save_all (table_of s) ps
      /\ forall p, In p ps -> truthy (name p) = true -> price p <> None ->
           exists row, In row (table_of (snd r))
                       /\ key_of row = product_key p)
  /\ (forall e, fst r = Raised e ->
      exists done p rest x,
        ps = done ++ p :: rest /\ forallb passes done = true
        /\ e = Error x /\ bind_parameters p = Some x
        /\ table_of (snd r) = PriceComparisonTool.save_all (table_of s) done)
  /\ (forall row, In row (table_of s) ->
      exists row', In row' (table_of (snd r)) /\ key_of row' = key_of row)
  /\ (well_keyed (table_of s) -> well_keyed (table_of (snd r))).
Proof.
  cbv zeta.
  destruct (store_search_run ps s) as (res & done & E & (rest & E1 & E2) & E3).
  rewrite E. cbn [fst snd world_of table_of stdin terminal opened].
  do 4 (split; [reflexivity|]).
  split; [split|split; [|split; [|split]]].
  - intros ->. subst rest. now rewrite E1, app_nil_r.
  - intros H. destruct res as [[]|r]; [reflexivity|].
    destruct E2 as (p & rest' & -> & Hp & _).
    rewrite E1, forallb_app in H. simpl in H. rewrite Hp in H.
    rewrite andb_false_r in H. discriminate.
  - intros ->. subst rest. rewrite app_nil_r in E1. subst done.
    split; [reflexivity|].
    intros p Hin Hn Hp. now apply save_all_stores.
  - intros e ->. destruct E2 as (p & rest' & -> & Hp & x & -> & Hb).
    exists done, p, rest', x. auto.
  - intros row H. now apply save_all_keeps_keys.
  - intros H. now apply save_all_well_keyed.
Qed.

Lemma encodable_name (p : Product) :
  bind_parameters p = None -> encodable (name p) = true.
Proof.
  unfold bind_parameters. destruct (encodable (name p)); [auto|discriminate].
Qed.

(** X13.  A record that can be stored and whose price is a number is
    found again by [get_price_history] under its own name, whatever
    wildcard characters the name contains, as long as the name fits a
    LIKE pattern: the history has the entry with the record's website,
    price, timestamp and URL. *)
Theorem saved_then_found (p : Product) (x : pyfloat) (s : session) :
  storable p = true -> price p = Some x -> is_nan x = false ->
  utf8_length (name p) + 2 <= 50000 ->
  exists s' history,
    db_save_product p s = (Done tt, s')
    /\ db_get_price_history (name p) s' = (Done history, s')
    /\ In (website p, sql_real x, timestamp p, url p) history.
Proof.
  unfold storable. intros Hs Hp Hx Hlen.
  apply andb_true_iff in Hs as [Hs Hb]. apply andb_true_iff in Hs as [Hn _].
  destruct (bind_parameters p) eqn:Eb; [discriminate|]. clear Hb.
  rewrite db_save_product_run, Hn, Hp, Eb. simpl.
  eexists. eexists. split; [reflexivity|].
  unfold db_get_price_history. rewrite (encodable_name p Eb). cbn [negb table_of].
  replace (50000 <? utf8_length (name p) + 2) with false
    by (symmetry; apply Z.ltb_ge; lia).
  cbn [andb]. split; [reflexivity|].
  apply in_get_price_history.
  exists (row_of_product (next_id (table_of s)) p). split; [|split].
  - rewrite save_product_valid by congruence.
    apply in_or_app. right. now left.
  - unfold history_where. simpl r_name. rewrite like_itself. simpl.
    rewrite Hp. simpl. destruct x; try discriminate; reflexivity.
  - unfold history_columns. simpl. now rewrite Hp.
Qed.

End StoringSearch.

(** ** Relations a turn keeps *)

Section Keeping.
Import DatabaseManager StoreFacts Console Dialogue.
Local Open Scope console_scope.

Variable R : session -> session -> Prop.
Hypothesis R_refl : forall s, R s s.
Hypothesis R_trans : forall a b c, R a b -> R b c -> R a c.
Hypothesis R_show : forall e, keeps R (show e).
Hypothesis R_input : forall p, keeps R (input p).
Hypothesis R_open : forall u, keeps R (webbrowser_open u).

Lemma keeps_ret (A : Type) (a : A) : keeps R (ret a).
Proof. intros s. apply R_refl. Qed.

Lemma keeps_bind (A B : Type) (m : C A) (k : A -> C B) :
  keeps R m -> (forall a, keeps R (k a)) -> keeps R (bind m k).
Proof.
  intros Hm Hk s. unfold bind. specialize (Hm s).
  destruct (m s) as [[a|r] s']; simpl in *; [|assumption].
  eapply R_trans; [exact Hm | apply Hk].
Qed.

Lemma keeps_try_except (A : Type) (m : C A) (h : raised -> C A) :
  keeps R m -> (forall e, keeps R (h e)) -> keeps R (try_except m h).
Proof.
  intros Hm Hh s. unfold try_except. specialize (Hm s).
  destruct (m s) as [[a|r] s']; simpl in *; [assumption|].
  destruct r; try assumption; eapply R_trans; try exact Hm; apply Hh.
Qed.

Lemma keeps_for_each (A : Type) (f : A -> C unit) (l : list A) :
  (forall x, keeps R (f x)) -> keeps R (for_each f l).
Proof.
  intros Hf. induction l as [|x l IH]; simpl.
  - apply keeps_ret.
  - apply keeps_bind; auto.
Qed.

Lemma keeps_for_each_numbered (A : Type) (f : nat -> A -> C unit)
    (l : list A) (i : nat) :
  (forall i x, keeps R (f i x)) -> keeps R (for_each_numbered f i l).
Proof.
  intros Hf. revert i. induction l as [|x l IH]; intros i; simpl.
  - apply keeps_ret.
  - apply keeps_bind; auto.
Qed.

Lemma keeps_offer_best_deals (products : list Product) :
  keeps R (offer_best_deals products).
Proof.
  destruct products as [|p l]; [apply keeps_ret|].
  unfold offer_best_deals.
  apply keeps_try_except; [|intros e; apply R_show].
  apply keeps_bind; [apply R_input|]. intros choice.
  destruct (PyStr.eqb _ _); [|apply keeps_ret].
  apply keeps_bind; [apply R_show|]. intros _.
  apply keeps_bind; [apply R_show|]. intros _.
  apply keeps_bind;
    [apply keeps_for_each_numbered; intros; apply R_show|]. intros _.
  apply keeps_bind; [apply R_input|]. intros choice'.
  destruct (PyStr.eqb _ _); [|apply keeps_ret].
  apply keeps_for_each. intros x. apply R_open.
Qed.

Lemma keeps_display_results (products : list Product) :
  keeps R (display_results products).
Proof.
  unfold display_results.
  destruct (PriceComparisonTool.display_results products);
    try apply R_show.
  apply keeps_bind; [apply R_show|]. intros _.
  apply keeps_bind;
    [apply keeps_for_each_numbered; intros; apply R_show|]. intros _.
  apply keeps_offer_best_deals.
Qed.

Lemma keeps_db_get_price_history (product_name : str) :
  keeps R (db_get_price_history product_name).
Proof.
  intros s. unfold db_get_price_history.
  destruct (negb _); [apply R_refl|].
  destruct (_ && _); apply R_refl.
Qed.

Lemma keeps_show_price_history (product_name : str) :
  keeps R (show_price_history product_name).
Proof.
  unfold show_price_history.
  apply keeps_try_except; [|intros e; apply R_show].
  apply keeps_bind; [apply keeps_db_get_price_history|].
  intros [|entry history]; [apply R_show|].
  apply keeps_bind; [apply R_show|]. intros _.
  apply keeps_for_each. intros x. apply R_show.
Qed.

(** The handlers of a turn, whatever the body left. *)
Lemma keeps_handlers (body : C control) :
  keeps R body ->
  keeps R (fun s =>
             match body s with
             | (Done c, s') => (Done c, s')
             | (Raised KeyboardInterrupt, s') =>
                 (clear_terminal ;;; show TerminatedByUser ;;; ret Break) s'
             | (Raised e, s') =>
                 (show (ErrorOccurred e) ;;; input PressEnter ;;;
                  ret Continue) s'
             end).
Proof.
  intros Hb s. specialize (Hb s).
  assert (K : keeps R (clear_terminal ;;; show TerminatedByUser ;;; ret Break)).
  { apply keeps_bind; [apply R_show|]. intros _.
    apply keeps_bind; [apply R_show|]. intros _. apply keeps_ret. }
  assert (E : forall e,
            keeps R (show (ErrorOccurred e) ;;; input PressEnter ;;;
                     ret Continue)).
  { intros e. apply keeps_bind; [apply R_show|]. intros _.
    apply keeps_bind; [apply R_input|]. intros _. apply keeps_ret. }
  destruct (body s) as [[c|r] s']; simpl in *; [assumption|].
  destruct r; eapply R_trans; try exact Hb; try apply K; apply E.
Qed.

End Keeping.

Section Relations.
Import DatabaseManager StoreFacts Console Dialogue.
Local Open Scope console_scope.

Lemma carried_refl (s : session) : carried s s.
Proof.
  split; [lia|]. split; [auto|]. intros r H. exists r. auto.
Qed.

Lemma carried_trans (a b c : session) :
  carried a b -> carried b c -> carried a c.
Proof.
  intros (L1 & W1 & K1) (L2 & W2 & K2).
  split; [lia|]. split; [auto|].
  intros r H. destruct (K1 r H) as (r1 & H1 & E1).
  destruct (K2 r1 H1) as (r2 & H2 & E2). exists r2. split; congruence.
Qed.

Lemma carried_same (s s' : session) :
  (List.length (stdin s') <= List.length (stdin s))%nat ->
  table_of s' = table_of s -> carried s s'.
Proof.
  intros L E. unfold carried. rewrite E.
  split; [lia|]. split; [auto|]. intros r H. exists r. auto.
Qed.

Lemma carried_show (e : event) : keeps carried (show e).
Proof. intros s. now apply carried_same. Qed.

Lemma carried_input (p : prompt) : keeps carried (input p).
Proof.
  intros s. unfold input.
  destruct (stdin s) as [|[] rest] eqn:E; apply carried_same; simpl;
    rewrite ?E; simpl; auto.
Qed.

Lemma carried_open (u : str) : keeps carried (webbrowser_open u).
Proof. intros s. now apply carried_same. Qed.

Lemma carried_search (query : str) : keeps carried (search_products query).
Proof.
  intros s. unfold search_products. cbv zeta.
  destruct (fst _); now apply carried_same.
Qed.

Lemma carried_store (products : list Product) :
  keeps carried (store_search products).
Proof.
  intros s.
  destruct (store_search_run products s) as (res & done & E & _).
  rewrite E. unfold carried. simpl. split; [lia|]. split.
  - now apply save_all_well_keyed.
  - intros r H. now apply save_all_keeps_keys.
Qed.

Lemma same_table_refl (s : session) : same_table s s.
Proof. reflexivity. Qed.

Lemma same_table_trans (a b c : session) :
  same_table a b -> same_table b c -> same_table a c.
Proof. unfold same_table. congruence. Qed.

Lemma same_table_show (e : event) : keeps same_table (show e).
Proof. intros s. reflexivity. Qed.

Lemma same_table_input (p : prompt) : keeps same_table (input p).
Proof. intros s. unfold input. now destruct (stdin s) as [|[] rest]. Qed.

Lemma same_table_open (u : str) : keeps same_table (webbrowser_open u).
Proof. intros s. reflexivity. Qed.

End Relations.

Ltac carry :=
  repeat first
    [ apply (keeps_ret Dialogue.carried carried_refl)
    | apply carried_show
    | apply carried_input
    | apply carried_search
    | apply carried_store
    | apply (keeps_display_results carried_refl carried_trans carried_show
               carried_input carried_open)
    | apply (keeps_show_price_history carried_refl carried_trans carried_show)
    | apply (keeps_bind carried_trans); [|intros ?]
    | progress cbv zeta
    | match goal with
      | |- Dialogue.keeps _ (if ?b then _ else _) => destruct b
      end ].

Ltac still :=
  repeat first
    [ apply (keeps_ret Dialogue.same_table same_table_refl)
    | apply same_table_show
    | apply same_table_input
    | apply (keeps_show_price_history same_table_refl same_table_trans
               same_table_show)
    | apply (keeps_bind same_table_trans); [|intros ?]
    | progress cbv zeta
    | match goal with
      | |- Dialogue.keeps _ (if ?b then _ else _) => destruct b
      end ].

Section Turns.
Import DatabaseManager StoreFacts Console Dialogue.
Local Open Scope console_scope.

Lemma carried_main_body : keeps carried main_body.
Proof. unfold main_body, clear_terminal, sleep. carry. Qed.

Lemma main_turn_handlers (s : session) :
  main_turn s
  = match main_body s with
    | (Done c, s') => (Done c, s')
    | (Raised KeyboardInterrupt, s') =>
        (clear_terminal ;;; show TerminatedByUser ;;; ret Break) s'
    | (Raised e, s') =>
        (show (ErrorOccurred e) ;;; input PressEnter ;;; ret Continue) s'
    end.
Proof. reflexivity. Qed.

Lemma carried_main_turn : keeps carried main_turn.
Proof.
  intros s. rewrite main_turn_handlers.
  apply (keeps_handlers carried_refl carried_trans carried_show carried_input
           carried_main_body).
Qed.

Lemma carried_main_loop (fuel : nat) (s : session) :
  carried s (snd (main_loop fuel s)).
Proof.
  revert s. induction fuel as [|fuel IH]; intros s; simpl.
  - apply carried_refl.
  - pose proof (carried_main_turn s) as H.
    destruct (main_turn s) as [[[]|r] s']; simpl in *; auto.
    eapply carried_trans; [exact H | apply IH].
Qed.

(** A turn whose first answer is not the choice 1. *)
Lemma other_choice_same_table (s : session) :
  (forall l rest, stdin s = Line l :: rest -> strip l <> lit "1") ->
  table_of (snd (main_turn s)) = table_of s.
Proof.
  intros H. rewrite main_turn_handlers.
  assert (B : same_table s (snd (main_body s))).
  { unfold main_body. unfold bind at 1. unfold clear_terminal at 1, show at 1.
    unfold bind at 1. unfold show at 1. unfold bind at 1, input at 1. step.
    destruct (stdin s) as [|[l| |] rest] eqn:E; try reflexivity.
    cbv zeta. destruct (PyStr.eqb (strip l) (lit "1")) eqn:E1.
    { apply str_eqb_eq in E1. exact (False_ind _ (H l rest eq_refl E1)). }
    match goal with
    | |- same_table s (snd (?m ?s0)) =>
        change (same_table s0 (snd (m s0)));
        generalize s0; change (keeps same_table m)
    end.
    unfold clear_terminal, sleep. still. }
  unfold same_table in B.
  destruct (main_body s) as [[c|r] s'] eqn:E; simpl in *; [assumption|].
  rewrite <- B.
  destruct r.
  all: match goal with
       | |- table_of (snd (?m ?s1)) = _ =>
           generalize s1; change (keeps same_table m)
       end; unfold clear_terminal; still.
Qed.

(** X14.  Whatever is typed, and for as many turns as [main] runs, the
    table keeps its constraints when it had them and loses no key; a
    run that starts without a database file ends with a table that
    has them.  A turn changes the table only when its first answer is
    the choice 1. *)
Theorem main_keeps_the_store (fuel : nat) (s : session) (w : world)
    (keys : list answer) :
  (well_keyed (table_of s) -> well_keyed (table_of (snd (main_loop fuel s))))
  /\ (forall row, In row (table_of s) ->
        exists row', In row' (table_of (snd (main_loop fuel s)))
                     /\ key_of row' = key_of row)
  /\ well_keyed (table_of (snd (main fuel None w keys)))
  /\ ((forall l rest, stdin s = Line l :: rest -> strip l <> lit "1") ->
      table_of (snd (main_turn s)) = table_of s).
Proof.
  destruct (carried_main_loop fuel s) as (_ & W & K).
  split; [exact W|]. split; [exact K|]. split.
  - unfold main.
    match goal with
    | |- context [main_loop fuel ?s0] =>
        destruct (carried_main_loop fuel s0) as (_ & W0 & _)
    end.
    apply W0. split; constructor.
  - apply other_choice_same_table.
Qed.

End Turns.

(** ** How the program ends *)

Section Ending.
Import DatabaseManager StoreFacts Console Dialogue.
Local Open Scope console_scope.

Lemma input_then (A : Type) (p : prompt) (k : str -> C A) (s : session) :
  (forall l, keeps carried (k l)) -> stdin s <> [] ->
  (List.length (stdin (snd (bind (input p) k s))) < List.length (stdin s))%nat.
Proof.
  intros Hk Hs. unfold bind, input.
  destruct (stdin s) as [|[l| |] rest] eqn:E; [contradiction| | |]; simpl;
    try lia.
  match goal with
  | |- context [k l ?s0] => destruct (Hk l s0) as (L & _)
  end.
  simpl in L. lia.
Qed.

Lemma main_body_reads (s : session) :
  stdin s <> [] ->
  (List.length (stdin (snd (main_body s))) < List.length (stdin s))%nat.
Proof.
  intros Hs. unfold main_body. unfold bind at 1.
  unfold clear_terminal at 1, show at 1. unfold bind at 1. unfold show at 1.
  match goal with
  | |- context [bind (input EnterChoice) ?k ?s0] =>
      change (List.length (stdin s)) with (List.length (stdin s0));
      apply (@input_then control EnterChoice k s0)
  end; [|exact Hs].
  intros l. unfold clear_terminal, sleep.
  carry.
Qed.

Lemma main_turn_reads (s : session) :
  stdin s <> [] ->
  (List.length (stdin (snd (main_turn s))) < List.length (stdin s))%nat.
Proof.
  intros Hs. pose proof (main_body_reads s Hs) as L.
  rewrite main_turn_handlers.
  destruct (main_body s) as [[c|r] s'] eqn:E; simpl in *; [assumption|].
  assert (G : forall m : C control,
            keeps carried m ->
            (List.length (stdin (snd (m s'))) < List.length (stdin s))%nat).
  { intros m Hm. destruct (Hm s') as (L' & _). lia. }
  destruct r; apply G; unfold clear_terminal; carry.
Qed.

Lemma main_turn_endings (s : session) :
  match fst (main_turn s) with
  | Done _ => stdin s <> []
  | Raised EOFError | Raised KeyboardInterrupt => True
  | Raised _ => False
  end.
Proof.
  rewrite main_turn_handlers.
  assert (B : stdin s = [] -> exists s', main_body s = (Raised EOFError, s')
                                        /\ stdin s' = []).
  { intros E. unfold main_body. unfold bind at 1.
    unfold clear_terminal at 1, show at 1. unfold bind at 1. unfold show at 1.
    unfold bind at 1, input at 1. step. rewrite E. eexists. split; reflexivity. }
  destruct (main_body s) as [[c|r] s'] eqn:E; simpl.
  - intros Hs. destruct (B Hs) as (s1 & H1 & _). discriminate.
  - assert (H : forall e,
              match fst ((show (ErrorOccurred e) ;;; input PressEnter ;;;
                          ret Continue) s') with
              | Done _ => stdin s' <> []
              | Raised EOFError | Raised KeyboardInterrupt => True
              | Raised _ => False
              end).
    { intros e. unfold bind at 1, show at 1. unfold bind at 1, input at 1.
      step. destruct (stdin s') as [|[] rest]; simpl; auto; discriminate. }
    destruct r; try apply H.
    + specialize (H (Error e)).
      destruct (fst _) as [c|[]]; auto.
      intros Hs. destruct (B Hs) as (s1 & H1 & H2).
      injection H1 as _ <-. contradiction.
    + specialize (H OperationalError).
      destruct (fst _) as [c|[]]; auto.
      intros Hs. destruct (B Hs) as (s1 & H1 & H2). discriminate.
    + specialize (H EOFError).
      destruct (fst _) as [c|[]]; auto.
      intros Hs. destruct (B Hs) as (s1 & H1 & H2).
      injection H1 as <-. contradiction.
    + simpl. intros Hs. destruct (B Hs) as (s1 & H1 & H2). discriminate.
Qed.

Lemma main_loop_ends (fuel : nat) (s : session) :
  (List.length (stdin s) < fuel)%nat ->
  exists e, fst (main_loop fuel s) = Some e
            /\ (e = Returned \/ e = Uncaught EOFError
                \/ e = Uncaught KeyboardInterrupt).
Proof.
  revert s. induction fuel as [|fuel IH]; intros s L; [lia|].
  simpl. pose proof (main_turn_endings s) as H.
  pose proof (main_turn_reads s) as Hr.
  destruct (main_turn s) as [[[]|r] s']; simpl in *.
  - apply IH. specialize (Hr H). lia.
  - eauto.
  - destruct r; try contradiction; eauto.
Qed.

(** X15.  On every finite input [main] ends: given more turns than
    there are answers, the loop stops, and it stops in one of three
    ways: it returns, or an [EOFError] leaves it, or a
    [KeyboardInterrupt] does.  No exception of the scraper or of the
    database leaves [main].  With nothing to read, it ends on
    [EOFError]. *)
Theorem main_ends (fuel : nat) (file : option table) (w : world)
    (keys : list answer) :
  (List.length keys < fuel)%nat ->
  (exists e, fst (main fuel file w keys) = Some e
             /\ (e = Returned \/ e = Uncaught EOFError
                 \/ e = Uncaught KeyboardInterrupt))
  /\ (keys = [] -> fst (main fuel file w keys) = Some (Uncaught EOFError)).
Proof.
  intros L. split; [now apply main_loop_ends|].
  intros ->. destruct fuel as [|fuel]; [simpl in L; lia|]. reflexivity.
Qed.

End Ending.

(** ** A search turn *)

Section SearchTurn.
Import DatabaseManager StoreFacts Console Dialogue.
Local Open Scope console_scope.

Lemma sorted_products_nil (valid : list Product) :
  PriceComparisonTool.sorted_products valid = [] -> valid = [].
Proof.
  intros H.
  pose proof (stable_sort_perm
                (fun a b => flt (PriceComparisonTool.sort_key a)
                              (PriceComparisonTool.sort_key b)) valid) as P.
  unfold PriceComparisonTool.sorted_products in H. rewrite H in P.
  now apply Permutation_sym, Permutation_nil in P.
Qed.

Lemma display_results_listing (products : list Product) (s : session) :
  PriceComparisonTool.valid_products products <> [] ->
  display_results products s
  = offer_best_deals
      (PriceComparisonTool.sorted_products
         (PriceComparisonTool.valid_products products))
      {| world_of := world_of s; table_of := table_of s; stdin := stdin s;
         terminal :=
           terminal s
           ++ ResultsHeader
              :: entries ResultEntry 1
                   (PriceComparisonTool.sorted_products
                      (PriceComparisonTool.valid_products products));
         opened := opened s |}.
Proof.
  intros Hv. unfold display_results, PriceComparisonTool.display_results.
  destruct products as [|p0 l]; [contradiction|].
  cbv zeta.
  destruct (PriceComparisonTool.valid_products (p0 :: l)) as [|v valid];
    [contradiction|].
  unfold bind at 1, show at 1. unfold bind at 1.
  rewrite for_each_numbered_show. step.
  now rewrite <- app_assoc.
Qed.

Lemma offer_best_deals_interrupted (products : list Product) (s : session)
    (rest : list answer) :
  products <> [] -> stdin s = Interrupt :: rest ->
  offer_best_deals products s
  = (Raised KeyboardInterrupt,
     {| world_of := world_of s; table_of := table_of s; stdin := rest;
        terminal := terminal s ++ [Asked SeeTopDeals]; opened := opened s |}).
Proof.
  intros Hp Hs. destruct products as [|p0 l]; [contradiction|].
  unfold offer_best_deals, try_except. unfold bind at 1, input at 1.
  now rewrite Hs.
Qed.

Lemma offer_best_deals_declined (products : list Product) (s : session)
    (no : str) (rest : list answer) :
  stdin s = Line no :: rest -> PyStr.eqb (lower no) (lit "y") = false ->
  products <> [] ->
  offer_best_deals products s
  = (Done tt,
     {| world_of := world_of s; table_of := table_of s; stdin := rest;
        terminal := terminal s ++ [Asked SeeTopDeals]; opened := opened s |}).
Proof.
  intros Hs Hn Hp. destruct products as [|p0 l]; [contradiction|].
  unfold offer_best_deals, try_except. unfold bind at 1, input at 1.
  now rewrite Hs, Hn.
Qed.

(** The turn of a search, up to the call of [display_results]. *)
Lemma search_turn (s : session) (c q : str) (rest : list answer)
    (ps : list Product) (w1 : world) :
  stdin s = Line c :: Line q :: rest ->
  strip c = lit "1" -> truthy (strip q) = true ->
  PriceComparisonTool.search_products PriceComparisonTool.init (strip q)
    (world_of s) = (Ok ps, w1) ->
  main_body s
  = (display_results ps ;;; store_search ps ;;; input PressEnter ;;;
     ret Continue)
      {| world_of := w1; table_of := table_of s; stdin := rest;
         terminal :=
           terminal s ++ [Cleared; Menu; Asked EnterChoice; Cleared;
                          Asked EnterSearch];
         opened := opened s |}.
Proof.
  intros Hs Hc Hq Hw. unfold main_body.
  unfold bind at 1, clear_terminal at 1, show at 1.
  unfold bind at 1, show at 1. unfold bind at 1, input at 1. step.
  rewrite Hs. cbv zeta. rewrite Hc, str_eqb_refl.
  unfold bind at 1, clear_terminal at 1, show at 1.
  unfold bind at 1, input at 1. step. cbv zeta. rewrite Hq. cbn [negb].
  unfold bind at 1, search_products at 1. step. rewrite Hw. step.
  now rewrite <- !app_assoc.
Qed.

(** X16.  Ctrl-C at the prompt that offers the best deals ends the
    program and loses the search: the search was made and the results
    listed, but none of them is stored.  Declining the offer and
    pressing Enter stores them, when each of them passes, and goes on
    to the next turn. *)
Theorem interrupted_search_is_not_stored (s : session) (c q : str)
    (rest : list answer) (ps : list Product) (w1 : world) :
  strip c = lit "1" -> truthy (strip q) = true ->
  PriceComparisonTool.search_products PriceComparisonTool.init (strip q)
    (world_of s) = (Ok ps, w1) ->
  PriceComparisonTool.valid_products ps <> [] ->
  let listing :=
    ResultsHeader
    :: entries ResultEntry 1
         (PriceComparisonTool.sorted_products
            (PriceComparisonTool.valid_products ps)) in
  (stdin s = Line c :: Line q :: Interrupt :: rest ->
   main_turn s
   = (Done Break,
      {| world_of := w1; table_of := table_of s; stdin := rest;
         terminal :=
           terminal s
           ++ [Cleared; Menu; Asked EnterChoice; Cleared; Asked EnterSearch]
           ++ listing ++ [Asked SeeTopDeals; Cleared; TerminatedByUser];
         opened := opened s |}))
  /\ (forall no enter rest',
        stdin s = Line c :: Line q :: Line no :: Line enter :: rest' ->
        PyStr.eqb (lower no) (lit "y") = false ->
        forallb passes ps = true ->
        main_turn s
        = (Done Continue,
           {| world_of := w1;
              table_of := PriceComparisonTool.save_all (table_of s) ps;
              stdin := rest';
              terminal :=
                terminal s
                ++ [Cleared; Menu; Asked EnterChoice; Cleared;
                    Asked EnterSearch]
                ++ listing ++ [Asked SeeTopDeals; Asked PressEnter];
              opened := opened s |})).
Proof.
  intros Hc Hq Hw Hv listing.
  assert (Hsorted : PriceComparisonTool.sorted_products
                      (PriceComparisonTool.valid_products ps) <> []).
  { intros H. now apply sorted_products_nil in H. }
  split.
  - intros Hs. rewrite main_turn_handlers.
    rewrite (search_turn s Hs Hc Hq Hw).
    unfold bind at 1. rewrite display_results_listing by assumption.
    rewrite (@offer_best_deals_interrupted _ _ rest Hsorted) by reflexivity.
    step. unfold bind at 1, clear_terminal, show at 1.
    unfold bind, show, ret. step.
    now rewrite <- !app_assoc.
  - intros no enter rest' Hs Hn Hp. rewrite main_turn_handlers.
    rewrite (search_turn s Hs Hc Hq Hw).
    unfold bind at 1. rewrite display_results_listing by assumption.
    rewrite (@offer_best_deals_declined _ _ no (Line enter :: rest'))
      by (reflexivity || assumption).
    step. unfold bind at 1.
    match goal with
    | |- context [store_search ps ?s0] =>
        destruct (store_search_run ps s0)
          as (res & done & E & (left & E1 & E2) & E3);
        rewrite E; clear E
    end.
    destruct res as [[]|r].
    + subst left. rewrite app_nil_r in E1. subst done.
      step. unfold bind at 1, input at 1. step. unfold ret.
      now rewrite <- !app_assoc.
    + destruct E2 as (p & left' & -> & Hpass & _).
      rewrite E1, forallb_app in Hp. simpl in Hp. rewrite Hpass in Hp.
      rewrite andb_false_r in Hp. discriminate.
Qed.

End SearchTurn.

(** ** The history on the terminal *)

Section HistoryScreen.
Import DatabaseManager StoreFacts Console Dialogue.
Local Open Scope console_scope.

Lemma for_each_show (A : Type) (f : A -> event) (l : list A) (s : session) :
  for_each (fun x => show (f x)) l s
  = (Done tt,
     {| world_of := world_of s; table_of := table_of s; stdin := stdin s;
        terminal := terminal s ++ List.map f l; opened := opened s |}).
Proof.
  revert s. induction l as [|x l IH]; intros s; simpl.
  - unfold ret. rewrite app_nil_r. now destruct s.
  - unfold bind, show at 1. rewrite IH. simpl. now rewrite <- app_assoc.
Qed.

(** X17.  [show_price_history] never raises and reads nothing: it only
    writes to the terminal.  It writes the error of a name sqlite3
    cannot take, the line for an empty history, or the header and the
    entries of [get_price_history], one for each, in their order. *)
Theorem show_price_history_screen (product_name : str) (s : session) :
  show_price_history product_name s
  = (Done tt,
     {| world_of := world_of s; table_of := table_of s; stdin := stdin s;
        terminal :=
          terminal s
          ++ (if negb (encodable product_name)
              then [ErrorDisplayingHistory (Error UnicodeEncodeError)]
              else if (50000 <? utf8_length product_name + 2)
                      && has_rows (table_of s)
              then [ErrorDisplayingHistory OperationalError]
              else match get_price_history (table_of s) product_name with
                   | [] => [NoHistory product_name]
                   | history =>
                       HistoryHeader product_name
                       :: List.map HistoryEntry history
                   end);
        opened := opened s |}).
Proof.
  unfold show_price_history, try_except. unfold bind at 1.
  unfold db_get_price_history.
  destruct (negb (encodable product_name)); [reflexivity|].
  destruct ((50000 <? utf8_length product_name + 2) && has_rows (table_of s));
    [reflexivity|].
  destruct (get_price_history (table_of s) product_name) as [|entry history];
    [reflexivity|].
  unfold bind at 1, show at 1. rewrite for_each_show. step.
  now rewrite <- app_assoc.
Qed.

End HistoryScreen.

(** ** When the program returns *)

Section ReadingOn.
Import DatabaseManager StoreFacts Console Dialogue Stopping.
Local Open Scope console_scope.

Lemma reads_on_quiet (A : Type) (m : C A) :
  (forall s, stdin (snd (m s)) = stdin s
             /\ fst (m s) <> Raised KeyboardInterrupt) ->
  reads_on m.
Proof.
  intros H s. destruct (H s) as [E N]. exists []. rewrite E.
  split; [reflexivity | intros F; contradiction].
Qed.

Lemma reads_on_ret (A : Type) (a : A) : reads_on (ret a).
Proof. apply reads_on_quiet. intros s. split; [reflexivity|discriminate]. Qed.

Lemma reads_on_show (e : event) : reads_on (show e).
Proof. apply reads_on_quiet. intros s. split; [reflexivity|discriminate]. Qed.

Lemma reads_on_open (u : str) : reads_on (webbrowser_open u).
Proof. apply reads_on_quiet. intros s. split; [reflexivity|discriminate]. Qed.

Lemma reads_on_input (p : prompt) : reads_on (input p).
Proof.
  intros s. unfold input.
  destruct (stdin s) as [|[l| |] rest]; simpl.
  - exists []. split; [reflexivity | discriminate].
  - exists [Line l]. split; [reflexivity | discriminate].
  - exists [EndOfFile]. split; [reflexivity | discriminate].
  - exists [Interrupt]. split; [reflexivity | intros _; now left].
Qed.

Lemma reads_on_bind (A B : Type) (m : C A) (k : A -> C B) :
  reads_on m -> (forall a, reads_on (k a)) -> reads_on (bind m k).
Proof.
  intros Hm Hk s. unfold bind. destruct (Hm s) as (r1 & E1 & I1).
  destruct (m s) as [[a|r] s1]; simpl in *.
  - destruct (Hk a s1) as (r2 & E2 & I2). exists (r1 ++ r2).
    rewrite <- app_assoc, <- E2. split; [exact E1|].
    intros F. apply in_or_app. right. auto.
  - exists r1. split; [exact E1|]. intros F. apply I1.
    injection F as ->. reflexivity.
Qed.

Lemma reads_on_try_except (A : Type) (m : C A) (h : raised -> C A) :
  reads_on m -> (forall e, reads_on (h e)) -> reads_on (try_except m h).
Proof.
  intros Hm Hh s. unfold try_except. destruct (Hm s) as (r1 & E1 & I1).
  destruct (m s) as [[a|r] s1]; simpl in *.
  - exists r1. split; [exact E1 | discriminate].
  - assert (G : forall e,
              exists read,
                stdin s = read ++ stdin (snd (h e s1))
                /\ (fst (h e s1) = Raised KeyboardInterrupt ->
                    In Interrupt read)).
    { intros e. destruct (Hh e s1) as (r2 & E2 & I2). exists (r1 ++ r2).
      rewrite <- app_assoc, <- E2. split; [exact E1|].
      intros F. apply in_or_app. right. auto. }
    destruct r; try apply G.
    exists r1. split; [exact E1 | intros _; now apply I1].
Qed.

Lemma reads_on_for_each (A : Type) (f : A -> C unit) (l : list A) :
  (forall x, reads_on (f x)) -> reads_on (for_each f l).
Proof.
  intros Hf. induction l as [|x l IH]; simpl.
  - apply reads_on_ret.
  - apply reads_on_bind; auto.
Qed.

Lemma reads_on_for_each_numbered (A : Type) (f : nat -> A -> C unit)
    (l : list A) (i : nat) :
  (forall i x, reads_on (f i x)) -> reads_on (for_each_numbered f i l).
Proof.
  intros Hf. revert i. induction l as [|x l IH]; intros i; simpl.
  - apply reads_on_ret.
  - apply reads_on_bind; auto.
Qed.

Lemma reads_on_search (query : str) : reads_on (search_products query).
Proof.
  apply reads_on_quiet. intros s. unfold search_products. cbv zeta.
  destruct (fst _); split; try reflexivity; discriminate.
Qed.

Lemma reads_on_store (products : list Product) :
  reads_on (store_search products).
Proof.
  apply reads_on_quiet. intros s.
  destruct (store_search_run products s)
    as (res & done & E & (rest & E1 & E2) & _).
  rewrite E. split; [reflexivity|]. simpl.
  destruct res as [[]|r]; [discriminate|].
  destruct E2 as (p & rest' & _ & _ & e & -> & _). discriminate.
Qed.

Lemma reads_on_history (product_name : str) :
  reads_on (show_price_history product_name).
Proof.
  apply reads_on_quiet. intros s. rewrite show_price_history_screen.
  split; [reflexivity | discriminate].
Qed.

Lemma reads_on_offer (products : list Product) :
  reads_on (offer_best_deals products).
Proof.
  destruct products as [|p l]; [apply reads_on_ret|].
  unfold offer_best_deals.
  apply reads_on_try_except; [|intros e; apply reads_on_show].
  apply reads_on_bind; [apply reads_on_input|]. intros choice.
  destruct (PyStr.eqb _ _); [|apply reads_on_ret].
  apply reads_on_bind; [apply reads_on_show|]. intros _.
  apply reads_on_bind; [apply reads_on_show|]. intros _.
  apply reads_on_bind;
    [apply reads_on_for_each_numbered; intros; apply reads_on_show|].
  intros _.
  apply reads_on_bind; [apply reads_on_input|]. intros choice'.
  destruct (PyStr.eqb _ _); [|apply reads_on_ret].
  apply reads_on_for_each. intros x. apply reads_on_open.
Qed.

Lemma reads_on_display (products : list Product) :
  reads_on (display_results products).
Proof.
  unfold display_results.
  destruct (PriceComparisonTool.display_results products);
    try apply reads_on_show.
  apply reads_on_bind; [apply reads_on_show|]. intros _.
  apply reads_on_bind;
    [apply reads_on_for_each_numbered; intros; apply reads_on_show|].
  intros _. apply reads_on_offer.
Qed.

Lemma goes_on_ret : goes_on (ret Continue).
Proof. intros s. discriminate. Qed.

Lemma goes_on_bind (A : Type) (m : C A) (k : A -> C control) :
  (forall a, goes_on (k a)) -> goes_on (bind m k).
Proof.
  intros Hk s. unfold bind.
  destruct (m s) as [[a|r] s1]; [apply Hk | discriminate].
Qed.

End ReadingOn.

Ltac reading :=
  repeat first
    [ apply reads_on_ret
    | apply reads_on_show
    | apply reads_on_input
    | apply reads_on_search
    | apply reads_on_store
    | apply reads_on_display
    | apply reads_on_history
    | apply reads_on_bind; [|intros ?]
    | progress cbv zeta
    | match goal with
      | |- Stopping.reads_on (if ?b then _ else _) => destruct b
      end ].

Ltac going :=
  repeat first
    [ apply goes_on_ret
    | apply goes_on_bind; intros ?
    | progress cbv zeta
    | match goal with
      | |- Stopping.goes_on (if ?b then _ else _) => destruct b
      end ].

Section Asked.
Import DatabaseManager StoreFacts Console Dialogue Stopping.
Local Open Scope console_scope.

Lemma reads_on_main_body : reads_on main_body.
Proof. unfold main_body, clear_terminal, sleep. reading. Qed.

(** The body of a turn ends the loop for the choice 3 only. *)
Lemma main_body_break (s : session) :
  fst (main_body s) = Done Break ->
  exists l rest, stdin s = Line l :: rest /\ strip l = lit "3".
Proof.
  unfold main_body. unfold bind at 1. unfold clear_terminal at 1, show at 1.
  unfold bind at 1. unfold show at 1. unfold bind at 1, input at 1. step.
  destruct (stdin s) as [|[l| |] rest]; try discriminate.
  cbv zeta. intros H. exists l, rest. split; [reflexivity|].
  destruct (PyStr.eqb (strip l) (lit "3")) eqn:E3;
    [now apply str_eqb_eq in E3|].
  exfalso. revert H.
  match goal with
  | |- fst (?m ?s0) = Done Break -> False =>
      generalize s0; change (goes_on m)
  end.
  destruct (PyStr.eqb (strip l) (lit "1")); [unfold clear_terminal, sleep; going|].
  destruct (PyStr.eqb (strip l) (lit "2")); unfold clear_terminal, sleep; going.
Qed.

Lemma in_interrupt (read : list answer) :
  In Interrupt read -> existsb asks_to_stop read = true.
Proof.
  intros H. rewrite existsb_exists. exists Interrupt. now split.
Qed.

(** A turn that ends the loop, or that Ctrl-C leaves, read an answer
    that asks to stop; every turn reads the input from its front. *)
Lemma main_turn_asked (s : session) :
  exists read,
    stdin s = read ++ stdin (snd (main_turn s))
    /\ (fst (main_turn s) = Done Break
        \/ fst (main_turn s) = Raised KeyboardInterrupt ->
        existsb asks_to_stop read = true).
Proof.
  rewrite main_turn_handlers.
  destruct (reads_on_main_body s) as (r1 & E1 & I1).
  pose proof (main_body_break s) as B.
  destruct (main_body s) as [[c|r] s1] eqn:Eb; simpl in *.
  - exists r1. split; [exact E1|]. intros [F|F]; [|discriminate].
    injection F as ->.
    destruct (B eq_refl) as (l & rest & Es & E3).
    rewrite Es in E1. destruct r1 as [|a r1].
    + simpl in E1. exfalso.
      assert (N : stdin s <> []) by (rewrite Es; discriminate).
      pose proof (main_body_reads s N) as L. rewrite Eb in L. simpl in L.
      rewrite Es, <- E1 in L. simpl in L. lia.
    + simpl in E1. injection E1 as <- _. simpl.
      now rewrite E3, str_eqb_refl.
  - assert (G : forall e,
              exists read,
                stdin s
                = read ++ stdin (snd ((show (ErrorOccurred e) ;;;
                                       input PressEnter ;;; ret Continue) s1))
                /\ (fst ((show (ErrorOccurred e) ;;; input PressEnter ;;;
                          ret Continue) s1) = Done Break
                    \/ fst ((show (ErrorOccurred e) ;;; input PressEnter ;;;
                             ret Continue) s1) = Raised KeyboardInterrupt ->
                    existsb asks_to_stop read = true)).
    { intros e.
      assert (R : reads_on (show (ErrorOccurred e) ;;; input PressEnter ;;;
                            ret Continue)) by reading.
      destruct (R s1) as (r2 & E2 & I2). exists (r1 ++ r2).
      rewrite <- app_assoc, <- E2. split; [exact E1|].
      intros [F|F].
      - exfalso. revert F.
        generalize s1. change (goes_on (show (ErrorOccurred e) ;;;
                                        input PressEnter ;;; ret Continue)).
        going.
      - rewrite existsb_app, (in_interrupt r2 (I2 F)). apply orb_true_r. }
    destruct r; try apply G.
    exists r1. split; [exact E1|]. intros _.
    apply in_interrupt. now apply I1.
Qed.

Lemma main_loop_asked (fuel : nat) (s : session) :
  fst (main_loop fuel s) = Some Returned
  \/ fst (main_loop fuel s) = Some (Uncaught KeyboardInterrupt) ->
  existsb asks_to_stop (stdin s) = true.
Proof.
  revert s. induction fuel as [|fuel IH]; intros s; simpl;
    [intros [H|H]; discriminate|].
  destruct (main_turn_asked s) as (read & E & A).
  destruct (main_turn s) as [[[]|r] s1]; simpl in *.
  - intros H. apply IH in H. rewrite E, existsb_app, H. apply orb_true_r.
  - intros _. rewrite E, existsb_app, A by now left. reflexivity.
  - intros [H|H]; [discriminate|]. injection H as ->.
    rewrite E, existsb_app, A by now right. reflexivity.
Qed.

(** X18.  [main] returns only when it is asked to: a run that returns,
    or that a [KeyboardInterrupt] leaves, has read Ctrl-C or a line
    that is the choice 3 once stripped.  On an input that holds
    neither, [main] ends on an uncaught [EOFError] once the input is
    used up. *)
Theorem main_returns_when_asked (fuel : nat) (file : option table)
    (w : world) (keys : list answer) :
  (fst (main fuel file w keys) = Some Returned
   \/ fst (main fuel file w keys) = Some (Uncaught KeyboardInterrupt) ->
   existsb asks_to_stop keys = true)
  /\ (existsb asks_to_stop keys = false ->
      (List.length keys < fuel)%nat ->
      fst (main fuel file w keys) = Some (Uncaught EOFError)).
Proof.
  assert (A : fst (main fuel file w keys) = Some Returned
              \/ fst (main fuel file w keys)
                 = Some (Uncaught KeyboardInterrupt) ->
              existsb asks_to_stop keys = true).
  { unfold main. intros H. now apply main_loop_asked in H. }
  split; [exact A|].
  intros N L.
  destruct (@main_loop_ends fuel
              {| world_of := w; table_of := setup_database file;
                 stdin := keys; terminal := []; opened := [] |} L)
    as (e & E & [->|[->| ->]]).
  - rewrite A in N by (left; exact E). discriminate.
  - exact E.
  - rewrite A in N by (right; exact E). discriminate.
Qed.

End Asked.

(** ** Turns that are turned away *)

Section QuietTurns.
Import DatabaseManager StoreFacts Console Dialogue Stopping.
Local Open Scope console_scope.

Lemma lstrip_blank (s : str) : forallb isspace s = true -> lstrip s = [].
Proof.
  induction s as [|c s IH]; simpl; [reflexivity|].
  intros H. apply andb_true_iff in H as [Hc Hs]. rewrite Hc. auto.
Qed.

Lemma strip_blank (s : str) : forallb isspace s = true -> strip s = [].
Proof.
  intros H. unfold strip, rstrip. now rewrite (lstrip_blank s H).
Qed.

(** X19.  A turn that is turned away at the menu does nothing but
    write: a search or a history asked with a name that is empty or
    all white space sends no request and reads no table, an answer
    that is none of the three choices is refused, and the choice 3
    ends the loop; in each case the world, the table and the browser
    are left as they were and only the answers of the turn are
    read. *)
Theorem turned_away (s : session) (c : str) (rest : list answer) :
  stdin s = Line c :: rest ->
  let menu := [Cleared; Menu; Asked EnterChoice] in
  let after keys said :=
    {| world_of := world_of s; table_of := table_of s; stdin := keys;
       terminal := terminal s ++ menu ++ said; opened := opened s |} in
  (strip c = lit "1" ->
   forall q rest', rest = Line q :: rest' -> forallb isspace q = true ->
     main_turn s
     = (Done Continue,
        after rest' [Cleared; Asked EnterSearch; EnterValidName; Slept]))
  /\ (strip c = lit "2" ->
      forall q rest', rest = Line q :: rest' -> forallb isspace q = true ->
        main_turn s
        = (Done Continue,
           after rest'
             [Cleared; Asked EnterHistoryName; EnterValidName; Slept]))
  /\ (strip c = lit "3" ->
      main_turn s = (Done Break, after rest [Cleared; Goodbye]))
  /\ (strip c <> lit "1" -> strip c <> lit "2" -> strip c <> lit "3" ->
      main_turn s = (Done Continue, after rest [InvalidChoice; Slept])).
Proof.
  intros Hs menu after.
  assert (E : main_turn s
              = match
                  (let choice := strip c in
                   if PyStr.eqb choice (lit "1") then
                     clear_terminal ;;;
                     query <- input EnterSearch ;;
                     let query := strip query in
                     if negb (truthy query)
                     then show EnterValidName ;;; sleep ;;; ret Continue
                     else
                       products <- search_products query ;;
                       display_results products ;;;
                       store_search products ;;;
                       input PressEnter ;;;
                       ret Continue
                   else if PyStr.eqb choice (lit "2") then
                     clear_terminal ;;;
                     product_name <- input EnterHistoryName ;;
                     let product_name := strip product_name in
                     if negb (truthy product_name)
                     then show EnterValidName ;;; sleep ;;; ret Continue
                     else
                       show_price_history product_name ;;;
                       input PressEnter ;;;
                       ret Continue
                   else if PyStr.eqb choice (lit "3") then
                     clear_terminal ;;;
                     show Goodbye ;;;
                     ret Break
                   else
                     show InvalidChoice ;;; sleep ;;; ret Continue)
                    {| world_of := world_of s; table_of := table_of s;
                       stdin := rest;
                       terminal := terminal s ++ menu; opened := opened s |}
                with
                | (Done c, s') => (Done c, s')
                | (Raised KeyboardInterrupt, s') =>
                    (clear_terminal ;;; show TerminatedByUser ;;; ret Break) s'
                | (Raised e, s') =>
                    (show (ErrorOccurred e) ;;; input PressEnter ;;;
                     ret Continue) s'
                end).
  { rewrite main_turn_handlers. unfold main_body.
    unfold bind at 1, clear_terminal at 1, show at 1.
    unfold bind at 1, show at 1. unfold bind at 1, input at 1. step.
    rewrite Hs. unfold menu.
    replace (((terminal s ++ [Cleared]) ++ [Menu]) ++ [Asked EnterChoice])
      with (terminal s ++ [Cleared; Menu; Asked EnterChoice])
      by now rewrite <- !app_assoc.
    reflexivity. }
  rewrite E. clear E. cbv zeta.
  split; [|split; [|split]].
  - intros H1 q rest' -> Hq. rewrite H1, str_eqb_refl.
    unfold bind at 1, clear_terminal at 1, show at 1.
    unfold bind at 1, input at 1. step. cbv zeta.
    rewrite (strip_blank q Hq). cbn [truthy negb].
    unfold bind, sleep, clear_terminal, show, ret. step. unfold after, menu.
    now rewrite <- !app_assoc.
  - intros H2 q rest' -> Hq. rewrite H2.
    change (PyStr.eqb (lit "2") (lit "1")) with false.
    rewrite str_eqb_refl.
    unfold bind at 1, clear_terminal at 1, show at 1.
    unfold bind at 1, input at 1. step. cbv zeta.
    rewrite (strip_blank q Hq). cbn [truthy negb].
    unfold bind, sleep, clear_terminal, show, ret. step. unfold after, menu.
    now rewrite <- !app_assoc.
  - intros H3. rewrite H3.
    change (PyStr.eqb (lit "3") (lit "1")) with false.
    change (PyStr.eqb (lit "3") (lit "2")) with false.
    rewrite str_eqb_refl.
    unfold bind, sleep, clear_terminal, show, ret. step. unfold after, menu.
    now rewrite <- !app_assoc.
  - intros N1 N2 N3.
    apply str_eqb_neq in N1, N2, N3. rewrite N1, N2, N3.
    unfold bind, sleep, clear_terminal, show, ret. step. unfold after, menu.
    now rewrite <- !app_assoc.
Qed.

End QuietTurns.

(** ** Instances *)

Section Instances.
Import DatabaseManager StoreFacts Console Dialogue Stopping Sessions.

Lemma empty_href_witness :
  let item := Samples.ebay_element (Samples.ebay_contents EmptyString "Laptop bag" "$20.00") in
  let base_url := lit "https://www.ebay.com/sch/i.html?_nkw=bag" in
  Soup.select_one WebScraper.ebay_name item <> None
  /\ WebScraper.link_href WebScraper.ebay_link item = Some []
  /\ WebScraper.ebay_item base_url item Samples.offline
     = (Ok None, Samples.offline).
Proof.
  intros item base_url. split; [discriminate|].
  split; [reflexivity|].
  exact (proj1 (empty_href base_url item Samples.offline) eq_refl).
Defined.

Lemma rating_first_token_witness :
  WebScraper.rating_value (lit "4.5 out of 5 stars") = float_of_str (lit "4.5")
  /\ WebScraper.rating_value (lit "   ") = Raise IndexError.
Proof.
  destruct (rating_first_token [] (lit "4.5") (lit "out of 5 stars")
              (lit "   ") 32%N) as [H1 H2].
  split.
  - apply H1; [constructor | repeat constructor | discriminate | reflexivity].
  - apply H2. reflexivity.
Defined.

Lemma site_parser_effects_witness :
  let doc := Samples.page [Samples.unrated_tile; Samples.laptop_tile] in
  let base_url := lit "https://www.amazon.com/s?k=laptop" in
  let os := Trace.outcomes Parts.amazon_parser base_url
              (Soup.select_all WebScraper.amazon_result doc) Samples.offline in
  Trace.raised_of os = [ValueError]
  /\ List.map name (Trace.records_of os) = [lit "Laptop"]
  /\ exists w',
       WebScraper._scrape_amazon (Some doc) base_url Samples.offline
       = (Ok (Trace.records_of os), w')
       /\ log w' = [ErrorParsingAmazon ValueError]
       /\ readings w' = 1%nat.
Proof.
  intros doc base_url os.
  destruct (site_parser_effects doc base_url Samples.offline)
    as [(w' & E & L & _ & _ & _ & _ & _ & R & _) _].
  split; [reflexivity|]. split; [reflexivity|].
  exists w'. split; [exact E|]. split.
  - rewrite L. reflexivity.
  - rewrite R. reflexivity.
Defined.

Lemma search_products_effects_witness :
  PriceComparisonTool.quote_plus (lit "laptop bag") = Ok (lit "laptop+bag")
  /\ exists ps w',
       PriceComparisonTool.search_products PriceComparisonTool.init
         (lit "laptop bag") Samples.ebay_only = (Ok ps, w')
       /\ requests w' = (requests Samples.ebay_only + 2)%nat
       /\ stdout w'
          = stdout Samples.ebay_only
            ++ [Searching; SearchingOn (lit "amazon");
                SearchingOn (lit "ebay")]
       /\ network w' = network Samples.ebay_only
       /\ clock w' = clock Samples.ebay_only
       /\ readings w' = (readings Samples.ebay_only + List.length ps)%nat
       /\ List.map timestamp ps
          = Notions.next_readings Samples.ebay_only (List.length ps).
Proof.
  split; [reflexivity|].
  apply (@search_products_effects (lit "laptop bag") (lit "laptop+bag")
           Samples.ebay_only).
  reflexivity.
Defined.

Lemma saved_then_found_witness :
  let s := fresh Samples.offline [] in
  storable Samples.phone_9 = true
  /\ price Samples.phone_9 = Some (Samples.float_lit "9.99")
  /\ is_nan (Samples.float_lit "9.99") = false
  /\ utf8_length (name Samples.phone_9) + 2 <= 50000
  /\ exists s' history,
       db_save_product Samples.phone_9 s = (Done tt, s')
       /\ db_get_price_history (name Samples.phone_9) s' = (Done history, s')
       /\ In (website Samples.phone_9,
              sql_real (Samples.float_lit "9.99"),
              timestamp Samples.phone_9, url Samples.phone_9) history.
Proof.
  intros s.
  assert (H1 : storable Samples.phone_9 = true) by reflexivity.
  assert (H2 : price Samples.phone_9 = Some (Samples.float_lit "9.99"))
    by reflexivity.
  assert (H3 : is_nan (Samples.float_lit "9.99") = false) by reflexivity.
  assert (H4 : utf8_length (name Samples.phone_9) + 2 <= 50000)
    by (vm_compute; discriminate).
  split; [exact H1|]. split; [exact H2|]. split; [exact H3|].
  split; [exact H4|].
  exact (@saved_then_found Samples.phone_9 (Samples.float_lit "9.99") s
           H1 H2 H3 H4).
Defined.

Lemma main_ends_witness :
  let keys := [Line (lit " 3 ")] in
  (List.length keys < 2)%nat
  /\ (exists e, fst (main 2 None Samples.offline keys) = Some e
                /\ (e = Returned \/ e = Uncaught EOFError
                    \/ e = Uncaught KeyboardInterrupt))
  /\ (keys = [] ->
      fst (main 2 None Samples.offline keys) = Some (Uncaught EOFError)).
Proof.
  intros keys.
  assert (H : (List.length keys < 2)%nat) by (simpl; lia).
  split; [exact H|].
  exact (@main_ends 2 None Samples.offline keys H).
Defined.

Lemma interrupted_search_is_not_stored_witness :
  let ps := Parts.records bag_search in
  let w1 := snd bag_search in
  let s := fresh Samples.ebay_only
             [Line (lit "1"); Line (lit "laptop bag"); Interrupt] in
  let listing :=
    ResultsHeader
    :: entries ResultEntry 1
         (PriceComparisonTool.sorted_products
            (PriceComparisonTool.valid_products ps)) in
  strip (lit "1") = lit "1"
  /\ truthy (strip (lit "laptop bag")) = true
  /\ PriceComparisonTool.search_products PriceComparisonTool.init
       (strip (lit "laptop bag")) (world_of s) = (Ok ps, w1)
  /\ PriceComparisonTool.valid_products ps <> []
  /\ stdin s = [Line (lit "1"); Line (lit "laptop bag"); Interrupt]
  /\ main_turn s
     = (Done Break,
        {| world_of := w1; table_of := table_of s; stdin := [];
           terminal :=
             terminal s
             ++ [Cleared; Menu; Asked EnterChoice; Cleared;
                 Asked EnterSearch]
             ++ listing ++ [Asked SeeTopDeals; Cleared; TerminatedByUser];
           opened := opened s |}).
Proof.
  intros ps w1 s listing.
  assert (H1 : strip (lit "1") = lit "1") by reflexivity.
  assert (H2 : truthy (strip (lit "laptop bag")) = true) by reflexivity.
  assert (H3 : PriceComparisonTool.search_products PriceComparisonTool.init
                 (strip (lit "laptop bag")) (world_of s) = (Ok ps, w1))
    by reflexivity.
  assert (H4 : PriceComparisonTool.valid_products ps <> [])
    by (intros H; vm_compute in H; discriminate H).
  split; [exact H1|]. split; [exact H2|]. split; [exact H3|].
  split; [exact H4|]. split; [reflexivity|].
  exact (proj1 (@interrupted_search_is_not_stored s (lit "1")
                  (lit "laptop bag") [] ps w1 H1 H2 H3 H4) eq_refl).
Defined.

Lemma main_returns_when_asked_witness :
  let keys := [Line (lit "9"); Line (lit "2"); Line (lit "  ")] in
  existsb asks_to_stop keys = false
  /\ (List.length keys < 5)%nat
  /\ fst (main 5 None Samples.offline keys) = Some (Uncaught EOFError).
Proof.
  intros keys.
  assert (H1 : existsb asks_to_stop keys = false) by reflexivity.
  assert (H2 : (List.length keys < 5)%nat) by (simpl; lia).
  split; [exact H1|]. split; [exact H2|].
  exact (proj2 (main_returns_when_asked 5 None Samples.offline keys) H1 H2).
Defined.

Lemma turned_away_witness :
  let s := fresh Samples.offline [Line (lit " 1"); Line (lit "   ")] in
  stdin s = Line (lit " 1") :: [Line (lit "   ")]
  /\ strip (lit " 1") = lit "1"
  /\ forallb isspace (lit "   ") = true
  /\ main_turn s
     = (Done Continue,
        {| world_of := world_of s; table_of := table_of s; stdin := [];
           terminal :=
             terminal s ++ [Cleared; Menu; Asked EnterChoice]
             ++ [Cleared; Asked EnterSearch; EnterValidName; Slept];
           opened := opened s |}).
Proof.
  intros s.
  assert (H0 : stdin s = Line (lit " 1") :: [Line (lit "   ")])
    by reflexivity.
  assert (H1 : strip (lit " 1") = lit "1") by reflexivity.
  assert (H2 : forallb isspace (lit "   ") = true) by reflexivity.
  split; [exact H0|]. split; [exact H1|]. split; [exact H2|].
  exact (proj1 (@turned_away s (lit " 1") [Line (lit "   ")] H0)
           H1 (lit "   ") [] eq_refl H2).
Defined.

End Instances.
